(** * TurboGorilla chunk: a shallow embedding of [src/turbogorilla_chunk.c]

    The chunk is an uncompressed, columnar segment of a time series: two
    parallel heap buffers (timestamps, values) plus a small header.  Every
    C function of the file is rendered as a Rocq function over an explicit
    chunk value.  Out-of-bounds accesses and signed overflow are undefined
    behaviour in C; they are rendered as the [Fault] outcome of a small
    error monad, so that "the code returns" is a statement and not an
    assumption.

    Not rendered: [free] (nothing is observed of a released block), failure
    of [malloc] (the source does not test for it), the [DEBUG]-only
    [memset], and the two empty Gears hooks. *)

From stdpp Require Import base numbers list sorting.

Local Open Scope Z_scope.

(** ** Machine integers *)

(** [u_int64_t] and [size_t] are 64-bit unsigned, [unsigned int] is 32-bit
    unsigned, [int] is 32-bit signed (LP64).  [timestamp_t] is declared in a
    header outside the sources; the specification has timestamps as
    unsigned 64-bit integers, and the file assigns [u_int64_t] to it and
    back.

    Wrap-around is written out wherever a well-typed input can push a
    result out of its type: the increments of [num_samples], the growth of
    [size], the conversion of -1 to a timestamp, the integers coming from a
    stream.  A count below 2^32 multiplied by 8 or 16, the halves of a
    count, and the difference of two counts of which the second is at most
    the first stay inside [size_t] and are written plainly. *)
Definition UINT64_MOD : Z := 2 ^ 64.
Definition UINT32_MOD : Z := 2 ^ 32.
Definition INT_MAX : Z := 2 ^ 31 - 1.

Definition wrap64 (z : Z) : Z := z mod UINT64_MOD.
Definition wrap32 (z : Z) : Z := z mod UINT32_MOD.

Definition in_u64 (z : Z) : Prop := 0 <= z < UINT64_MOD.
Definition in_u32 (z : Z) : Prop := 0 <= z < UINT32_MOD.

Definition sizeof_u64 : Z := 8.
Definition sizeof_double : Z := 8.

(** Modelled from the spec: the macro [SAMPLE_SIZE] lives in a header that
    is not part of the sources; the specification gives it as
    [sizeof(timestamp) + sizeof(value)], 8 + 8 = 16 bytes. *)
Definition SAMPLE_SIZE : Z := 16.

(** A [double] is carried as its 8-byte object representation.  The chunk
    never computes on a value, it only copies it; the one function that
    looks inside a value is the injected duplicate-policy resolver. *)
Abbreviation double := Z (only parsing).

(** Modelled from the spec: the result enumeration [ChunkResult] is declared
    in a header that is not part of the sources; the file uses exactly these
    three codes. *)
Inductive ChunkResult : Type := CR_OK | CR_ERR | CR_END.

Global Instance ChunkResult_eq_dec : EqDecision ChunkResult.
Proof. solve_decision. Defined.

(** ** Undefined behaviour as an outcome *)

Inductive fault : Type :=
| OutOfBounds      (* access outside the allocated block *)
| SignedOverflow.  (* an [int] counter incremented past [INT_MAX] *)

Inductive exec (A : Type) : Type :=
| Ret (a : A)
| Fault (f : fault).
Arguments Ret {A} a.
Arguments Fault {A} f.

Global Instance exec_ret : MRet exec := @Ret.
Global Instance exec_bind : MBind exec := λ A B (k : A → exec B) (m : exec A),
  match m with
  | Ret a => k a
  | Fault f => Fault f
  end.

(** ** Heap blocks *)

(** A block returned by [malloc] is a list of 8-byte slots.  A request of
    [bytes] bytes yields [bytes / 8] whole slots; a trailing fragment shorter
    than a slot cannot be addressed through a [u_int64_t *] or [double *] and
    is left out.  The content of fresh memory is indeterminate: it is supplied
    by the caller of the model as a function from slot index to word, so that
    every theorem quantifies over what the allocator happened to leave
    there. *)
Definition slots_of (bytes : Z) : nat := Z.to_nat (bytes / 8).

Definition fresh (junk : nat → Z) (from n : nat) : list Z :=
  (λ i, wrap64 (junk i)) <$> seq from n.

Definition malloc (bytes : Z) (junk : nat → Z) : list Z :=
  fresh junk 0 (slots_of bytes).

(** [realloc] keeps the common prefix; slots gained are indeterminate. *)
Definition realloc (buf : list Z) (bytes : Z) (junk : nat → Z) : list Z :=
  take (slots_of bytes) buf
    ++ fresh junk (length buf) (slots_of bytes - length buf).

(** [buf[i]] as an rvalue. *)
Definition load (buf : list Z) (i : Z) : exec Z :=
  if bool_decide (0 <= i) then
    match buf !! Z.to_nat i with
    | Some v => Ret v
    | None => Fault OutOfBounds
    end
  else Fault OutOfBounds.

(** [buf[i] = v]. *)
Definition store (buf : list Z) (i : Z) (v : Z) : exec (list Z) :=
  if bool_decide (0 <= i < Z.of_nat (length buf)) then
    Ret (<[Z.to_nat i := v]> buf)
  else Fault OutOfBounds.

(** [memmove(&buf[dst], &buf[src], bytes)] inside one block: the source range
    is read as a whole, then written. *)
Definition memmove (buf : list Z) (dst src bytes : Z) : exec (list Z) :=
  let n := bytes / 8 in
  if bool_decide (0 <= dst ∧ 0 <= src ∧ 0 <= n
                  ∧ dst + n <= Z.of_nat (length buf)
                  ∧ src + n <= Z.of_nat (length buf)) then
    Ret (take (Z.to_nat dst) buf
           ++ take (Z.to_nat n) (drop (Z.to_nat src) buf)
           ++ drop (Z.to_nat (dst + n)) buf)
  else Fault OutOfBounds.

(** [for (i = lo; i < hi; i++) s = body(i, s);] with a bound that the body
    does not change: the number of iterations is known on entry. *)
Fixpoint for_iter {St : Type} (n : nat) (i : Z) (body : Z → St → exec St) (s : St)
  : exec St :=
  match n with
  | O => Ret s
  | S n' => s' ← body i s; for_iter n' (i + 1) body s'
  end.

Definition for_loop {St : Type} (lo hi : Z) (body : Z → St → exec St) (s : St)
  : exec St :=
  for_iter (Z.to_nat (hi - lo)) lo body s.

(** ** The chunk *)

Record TurboGorilla_Chunk : Type := mkChunk {
  start_ts : Z;               (* timestamp_t *)
  num_samples : Z;            (* unsigned int *)
  size : Z;                   (* size_t, bytes *)
  buffer_in_use : bool;
  buffer_ts : list Z;         (* u_int64_t * *)
  buffer_values : list double (* double * *)
}.

Definition set_start_ts (c : TurboGorilla_Chunk) (t : Z) : TurboGorilla_Chunk :=
  mkChunk t (num_samples c) (size c) (buffer_in_use c)
          (buffer_ts c) (buffer_values c).

Definition set_num_samples (c : TurboGorilla_Chunk) (n : Z) : TurboGorilla_Chunk :=
  mkChunk (start_ts c) n (size c) (buffer_in_use c)
          (buffer_ts c) (buffer_values c).

Definition set_size (c : TurboGorilla_Chunk) (sz : Z) : TurboGorilla_Chunk :=
  mkChunk (start_ts c) (num_samples c) sz (buffer_in_use c)
          (buffer_ts c) (buffer_values c).

Definition set_buffers (c : TurboGorilla_Chunk) (bt : list Z) (bv : list double)
  : TurboGorilla_Chunk :=
  mkChunk (start_ts c) (num_samples c) (size c) (buffer_in_use c) bt bv.

(** What [malloc] left in the header field [start_ts] and in the two
    buffers. *)
Record garbage : Type := mkGarbage {
  g_word : Z;
  g_ts : nat → Z;
  g_values : nat → Z
}.

Record Sample : Type := mkSample {
  timestamp : Z;
  value : double
}.

(** [TurboGorilla_NewChunk]: [start_ts] is not initialised. *)
Definition TurboGorilla_NewChunk (sz : Z) (g : garbage) : TurboGorilla_Chunk :=
  let array_size := sz / 2 in
  {| start_ts := wrap64 (g_word g);
     num_samples := 0;
     size := sz;
     buffer_in_use := true;
     buffer_ts := malloc array_size (g_ts g);
     buffer_values := malloc array_size (g_values g) |}.

Definition IsChunkFull (chunk : TurboGorilla_Chunk) : bool :=
  bool_decide (num_samples chunk = size chunk / SAMPLE_SIZE).

Definition TurboGorilla_NumOfSample (chunk : TurboGorilla_Chunk) : Z :=
  num_samples chunk.

(** [return -1] in a function returning [timestamp_t]. *)
Definition TurboGorilla_GetLastTimestamp (uChunk : TurboGorilla_Chunk) : exec Z :=
  if bool_decide (num_samples uChunk = 0) then Ret (wrap64 (-1))
  else load (buffer_ts uChunk) (num_samples uChunk - 1).

Definition TurboGorilla_GetFirstTimestamp (uChunk : TurboGorilla_Chunk) : exec Z :=
  if bool_decide (num_samples uChunk = 0) then Ret (wrap64 (-1))
  else load (buffer_ts uChunk) 0.

Definition TurboGorilla_GetSampleValueAtPos (uChunk : TurboGorilla_Chunk) (pos : Z)
  : exec (ChunkResult * option double) :=
  if bool_decide (pos < num_samples uChunk) then
    v ← load (buffer_values uChunk) pos; mret (CR_OK, Some v)
  else mret (CR_ERR, None).

Definition TurboGorilla_GetSampleTimestampAtPos (uChunk : TurboGorilla_Chunk) (pos : Z)
  : exec (ChunkResult * option Z) :=
  if bool_decide (pos < num_samples uChunk) then
    t ← load (buffer_ts uChunk) pos; mret (CR_OK, Some t)
  else mret (CR_ERR, None).

(** [TurboGorilla_AddSampleOptimized]: the only guard is the capacity test. *)
Definition TurboGorilla_AddSampleOptimized
    (regChunk : TurboGorilla_Chunk) (ts : Z) (v : double)
  : exec (ChunkResult * TurboGorilla_Chunk) :=
  if IsChunkFull regChunk then mret (CR_END, regChunk)
  else
    let c1 := if bool_decide (num_samples regChunk = 0)
              then set_start_ts regChunk ts else regChunk in
    let pos := num_samples c1 in
    bt ← store (buffer_ts c1) pos ts;
    bv ← store (buffer_values c1) pos v;
    mret (CR_OK, set_num_samples (set_buffers c1 bt bv)
                                 (wrap32 (num_samples c1 + 1))).

Definition TurboGorilla_AddSample (chunk : TurboGorilla_Chunk) (sample : Sample)
  : exec (ChunkResult * TurboGorilla_Chunk) :=
  TurboGorilla_AddSampleOptimized chunk (timestamp sample) (value sample).

(** ** Positional upsert *)

(** [upsertChunk]: grows by one sample when full, shifts the tail one slot to
    the right, writes the sample at [idx].  After growth each buffer holds
    [size / 2 + 8] bytes. *)
Definition upsertChunk (chunk : TurboGorilla_Chunk) (idx : Z) (ts : Z) (v : double)
    (g : garbage) : exec TurboGorilla_Chunk :=
  let c1 :=
    if IsChunkFull chunk then
      let sz := wrap64 (size chunk + SAMPLE_SIZE) in
      let new_ts_size := wrap64 (sz / 2 + sizeof_u64) in
      let new_values_size := wrap64 (sz / 2 + sizeof_double) in
      set_buffers (set_size chunk sz)
        (realloc (buffer_ts chunk) new_ts_size (g_ts g))
        (realloc (buffer_values chunk) new_values_size (g_values g))
    else chunk in
  '(bt, bv) ←
    (if bool_decide (idx < num_samples c1) then
       bt ← memmove (buffer_ts c1) (idx + 1) idx
              ((num_samples c1 - idx) * sizeof_u64);
       bv ← memmove (buffer_values c1) (idx + 1) idx
              ((num_samples c1 - idx) * sizeof_double);
       mret (bt, bv)
     else mret (buffer_ts c1, buffer_values c1));
  bt' ← store bt idx ts;
  bv' ← store bv idx v;
  mret (set_num_samples (set_buffers c1 bt' bv') (wrap32 (num_samples c1 + 1))).

Record UpsertCtx : Type := mkUpsertCtx {
  inChunk : TurboGorilla_Chunk;
  sample : Sample
}.

Section Upsert.
(** The duplicate-policy resolver is not part of this file: it receives the
    policy, the stored value and the incoming value, and returns a result
    code together with the value it left in the incoming sample. *)
Context {DuplicatePolicy : Type}.
Variable handleDuplicateSample :
  DuplicatePolicy → double → double → ChunkResult * double.

(** The counting loop runs on an [int] counter compared against a
    [size_t]: with more than [INT_MAX] samples the counter is incremented
    past [INT_MAX]. *)
Definition TurboGorilla_UpsertSample (uCtx : UpsertCtx)
    (duplicatePolicy : DuplicatePolicy) (g : garbage)
  : exec (ChunkResult * UpsertCtx * Z) :=
  let regChunk := inChunk uCtx in
  let ts := timestamp (sample uCtx) in
  let ts_array := buffer_ts regChunk in
  let numSamples := num_samples regChunk in
  if bool_decide (INT_MAX < numSamples) then Fault SignedOverflow
  else
    sample_pos ←
      for_loop 0 numSamples
        (λ i pos, t ← load ts_array i;
                  mret (pos + (if bool_decide (t < ts) then 1 else 0)))
        0;
    found ←
      (if bool_decide (sample_pos < numSamples) then
         t ← load ts_array sample_pos; mret (bool_decide (t = ts))
       else mret false);
    if (found : bool) then
      old ← load (buffer_values regChunk) sample_pos;
      let '(cr, v') :=
        handleDuplicateSample duplicatePolicy old (value (sample uCtx)) in
      let sample' := mkSample ts v' in
      if bool_decide (cr ≠ CR_OK) then
        mret (CR_ERR, mkUpsertCtx regChunk sample', 0)
      else
        bv ← store (buffer_values regChunk) sample_pos v';
        mret (CR_OK,
              mkUpsertCtx (set_buffers regChunk (buffer_ts regChunk) bv) sample',
              0)
    else
      let c1 := if bool_decide (sample_pos = 0)
                then set_start_ts regChunk ts else regChunk in
      c2 ← upsertChunk c1 sample_pos ts (value (sample uCtx)) g;
      mret (CR_OK, mkUpsertCtx c2 (sample uCtx), 1).
End Upsert.

(** ** Range mutation *)

(** One turn of the copy loop of the split: sample [currentChunkNumSamples
    + i] of the old chunk is appended to the new one; the result code of the
    append is dropped by the source. *)
Definition SplitChunk_step (curChunk : TurboGorilla_Chunk)
    (currentChunkNumSamples : Z) (i : Z) (newChunk : TurboGorilla_Chunk)
  : exec TurboGorilla_Chunk :=
  ts ← load (buffer_ts curChunk) (currentChunkNumSamples + i);
  v ← load (buffer_values curChunk) (currentChunkNumSamples + i);
  r ← TurboGorilla_AddSampleOptimized newChunk ts v;
  mret (r.2).

(** [TurboGorilla_SplitChunk].  [g] is what the new chunk's allocation
    holds, [g'] what [realloc] would expose in the old one. *)
Definition TurboGorilla_SplitChunk (curChunk : TurboGorilla_Chunk) (g g' : garbage)
  : exec (TurboGorilla_Chunk * TurboGorilla_Chunk) :=
  let newChunkNumSamples := num_samples curChunk / 2 in
  let currentChunkNumSamples := num_samples curChunk - newChunkNumSamples in
  let newChunk0 := TurboGorilla_NewChunk (newChunkNumSamples * SAMPLE_SIZE) g in
  newChunk ←
    for_loop 0 newChunkNumSamples
      (SplitChunk_step curChunk currentChunkNumSamples) newChunk0;
  let old_ts_size := currentChunkNumSamples * sizeof_u64 in
  let old_values_size := currentChunkNumSamples * sizeof_double in
  mret (set_buffers
          (set_size (set_num_samples curChunk currentChunkNumSamples)
                    (currentChunkNumSamples * SAMPLE_SIZE))
          (realloc (buffer_ts curChunk) old_ts_size (g_ts g'))
          (realloc (buffer_values curChunk) old_values_size (g_values g')),
        newChunk).

(** One turn of the filter loop of the range delete; the state is the two
    new buffers and [new_count]. *)
Definition DelRange_step (timestamps values : list Z) (startTs endTs : Z)
    (i : Z) (st : list Z * list Z * Z) : exec (list Z * list Z * Z) :=
  let '(new_buffer_ts, new_buffer_values, new_count) := st in
  t ← load timestamps i;
  if bool_decide (startTs <= t) && bool_decide (t <= endTs) then
    mret (new_buffer_ts, new_buffer_values, new_count)
  else
    nts ← store new_buffer_ts new_count t;
    v ← load values i;
    nvs ← store new_buffer_values new_count v;
    mret (nts, nvs, new_count + 1).

(** [TurboGorilla_DelRange]: the new buffers are sized from [size], the
    first slot of the new timestamp buffer is read unconditionally. *)
Definition TurboGorilla_DelRange (regChunk : TurboGorilla_Chunk)
    (startTs endTs : Z) (g : garbage) : exec (TurboGorilla_Chunk * Z) :=
  let timestamps := buffer_ts regChunk in
  let values := buffer_values regChunk in
  let array_size := size regChunk / 2 in
  let new_buffer_ts0 := malloc array_size (g_ts g) in
  let new_buffer_values0 := malloc array_size (g_values g) in
  '(new_buffer_ts, new_buffer_values, new_count) ←
    for_loop 0 (num_samples regChunk)
      (DelRange_step timestamps values startTs endTs)
      (new_buffer_ts0, new_buffer_values0, 0);
  let deleted_count := num_samples regChunk - new_count in
  first ← load new_buffer_ts 0;
  mret (set_start_ts
          (set_num_samples (set_buffers regChunk new_buffer_ts new_buffer_values)
                           new_count)
          first,
        deleted_count).

(** ** Iteration *)

(** Modelled from the spec: the iterator record and the option bit
    [CHUNK_ITER_OP_REVERSE] are declared in headers that are not part of the
    sources.  The cursor is a chunk, an index and the options; the C type of
    the index is not visible, so index arithmetic is left mathematical (the
    test [currentIndex >= 0] of the reverse step asks for a signed type). *)
Record TurboGorilla_ChunkIterator : Type := mkIter {
  chunk : TurboGorilla_Chunk;
  currentIndex : Z;
  options : Z
}.

Section Iterator.
Variable CHUNK_ITER_OP_REVERSE : Z.

Definition TurboGorilla_NewChunkIterator (c : TurboGorilla_Chunk) (opts : Z)
  : TurboGorilla_ChunkIterator :=
  {| chunk := c;
     options := opts;
     currentIndex :=
       if bool_decide (Z.land opts CHUNK_ITER_OP_REVERSE ≠ 0)
       then num_samples c - 1 else 0 |}.
End Iterator.

Definition advance (iter : TurboGorilla_ChunkIterator) (d : Z)
  : TurboGorilla_ChunkIterator :=
  mkIter (chunk iter) (currentIndex iter + d) (options iter).

Definition TurboGorilla_ChunkIteratorGetNext (iter : TurboGorilla_ChunkIterator)
  : exec (ChunkResult * TurboGorilla_ChunkIterator * option Sample) :=
  if bool_decide (currentIndex iter < num_samples (chunk iter)) then
    v ← load (buffer_values (chunk iter)) (currentIndex iter);
    t ← load (buffer_ts (chunk iter)) (currentIndex iter);
    mret (CR_OK, advance iter 1, Some (mkSample t v))
  else mret (CR_END, iter, None).

Definition TurboGorilla_ChunkIteratorGetPrev (iter : TurboGorilla_ChunkIterator)
  : exec (ChunkResult * TurboGorilla_ChunkIterator * option Sample) :=
  if bool_decide (0 <= currentIndex iter) then
    v ← load (buffer_values (chunk iter)) (currentIndex iter);
    t ← load (buffer_ts (chunk iter)) (currentIndex iter);
    mret (CR_OK, advance iter (-1), Some (mkSample t v))
  else mret (CR_END, iter, None).

(** The reader's loop, [while (GetNext(iter, &s) == CR_OK) emit(s);], cut off
    after [fuel] calls.  [None] means the cut-off was reached before the
    iterator answered [CR_END]. *)
Fixpoint drain_next (fuel : nat) (iter : TurboGorilla_ChunkIterator)
  : exec (option (list Sample)) :=
  match fuel with
  | O => mret None
  | S fuel' =>
      r ← TurboGorilla_ChunkIteratorGetNext iter;
      match r with
      | (CR_OK, iter', Some s) =>
          rest ← drain_next fuel' iter'; mret (cons s <$> rest)
      | _ => mret (Some [])
      end
  end.

(** Forward iteration over a whole chunk: an iterator made with options 0,
    drained.  [reverse_bit] is the value of [CHUNK_ITER_OP_REVERSE]. *)
Definition forward_iteration (reverse_bit : Z) (fuel : nat)
    (c : TurboGorilla_Chunk) : exec (option (list Sample)) :=
  drain_next fuel (TurboGorilla_NewChunkIterator reverse_bit c 0).

Definition TurboGorilla_GetChunkSize (c : TurboGorilla_Chunk)
    (includeStruct : bool) (sizeof_struct : Z) : Z :=
  wrap64 (size c + (if includeStruct then sizeof_struct else 0)).

(** ** Serialization *)

(** Object representation of an 8-byte slot, least significant byte first. *)
Definition byte_at (z : Z) (k : Z) : Z := (z / 2 ^ (8 * k)) mod 256.

Definition bytes_of_slot (z : Z) : list Z :=
  [byte_at z 0; byte_at z 1; byte_at z 2; byte_at z 3;
   byte_at z 4; byte_at z 5; byte_at z 6; byte_at z 7].

Definition slot_of_bytes (b0 b1 b2 b3 b4 b5 b6 b7 : Z) : Z :=
  b0 + 2 ^ 8 * b1 + 2 ^ 16 * b2 + 2 ^ 24 * b3
  + 2 ^ 32 * b4 + 2 ^ 40 * b5 + 2 ^ 48 * b6 + 2 ^ 56 * b7.

Definition bytes_of_slots (buf : list Z) : list Z := buf ≫= bytes_of_slot.

Fixpoint slots_of_bytes (bs : list Z) : list Z :=
  match bs with
  | b0 :: b1 :: b2 :: b3 :: b4 :: b5 :: b6 :: b7 :: rest =>
      slot_of_bytes b0 b1 b2 b3 b4 b5 b6 b7 :: slots_of_bytes rest
  | _ => []
  end.

(** The buffer, seen as [char] data, read for [len] bytes by the string
    writer. *)
Definition read_bytes (buf : list Z) (len : Z) : exec (list Z) :=
  if bool_decide (0 <= len <= 8 * Z.of_nat (length buf)) then
    Ret (take (Z.to_nat len) (bytes_of_slots buf))
  else Fault OutOfBounds.

Section Serialize.
Context {Ctx : Type}.
Variable saveUnsigned : Ctx → Z → Ctx.
Variable saveString : Ctx → list Z → Ctx.

Definition TurboGorilla_GenericSerialize (uncompchunk : TurboGorilla_Chunk)
    (ctx : Ctx) : exec Ctx :=
  let ctx := saveUnsigned ctx (size uncompchunk) in
  let ctx := saveUnsigned ctx (start_ts uncompchunk) in
  let ctx := saveUnsigned ctx (num_samples uncompchunk) in
  let ctx := saveUnsigned ctx (if buffer_in_use uncompchunk then 1 else 0) in
  ts_bytes ← read_bytes (buffer_ts uncompchunk)
               (num_samples uncompchunk * sizeof_u64);
  let ctx := saveString ctx ts_bytes in
  v_bytes ← read_bytes (buffer_values uncompchunk)
              (num_samples uncompchunk * sizeof_double);
  mret (saveString ctx v_bytes).
End Serialize.

Section Deserialize.
Context {Ctx : Type}.
Variable readUnsigned : Ctx → Z * Ctx.
Variable readStringBuffer : Ctx → list Z * Ctx.

(** The function has no result code and never looks at [loadsize]; the
    buffers of the chunk it first allocates are dropped. *)
Definition TurboGorilla_Deserialize (ctx : Ctx) (g : garbage)
  : TurboGorilla_Chunk * Ctx :=
  let '(sz, ctx) := readUnsigned ctx in
  let uncompchunk := TurboGorilla_NewChunk (wrap64 sz) g in
  let '(st, ctx) := readUnsigned ctx in
  let uncompchunk := set_start_ts uncompchunk (wrap64 st) in
  let '(n, ctx) := readUnsigned ctx in
  let uncompchunk := set_num_samples uncompchunk (wrap32 n) in
  let '(u, ctx) := readUnsigned ctx in
  let uncompchunk :=
    mkChunk (start_ts uncompchunk) (num_samples uncompchunk)
            (size uncompchunk) (bool_decide (wrap64 u ≠ 0))
            (buffer_ts uncompchunk) (buffer_values uncompchunk) in
  let '(ts_bytes, ctx) := readStringBuffer ctx in
  let '(v_bytes, ctx) := readStringBuffer ctx in
  (set_buffers uncompchunk (slots_of_bytes ts_bytes) (slots_of_bytes v_bytes),
   ctx).
End Deserialize.

(** Modelled from the spec: the persistence primitives belong to the host
    and are not part of the sources.  The specification asks for "write one
    64-bit unsigned value", "write raw bytes and their length" and the two
    readers; the stream is the sequence of items written, read back in the
    order of writing.  A reader that meets the wrong item or the end of the
    stream yields zero or an empty buffer. *)
Inductive rdb_item : Type :=
| RdbUnsigned (u : Z)
| RdbString (s : list Z).

Definition rdb_saveUnsigned (io : list rdb_item) (v : Z) : list rdb_item :=
  io ++ [RdbUnsigned (wrap64 v)].

Definition rdb_saveString (io : list rdb_item) (s : list Z) : list rdb_item :=
  io ++ [RdbString s].

Definition rdb_readUnsigned (io : list rdb_item) : Z * list rdb_item :=
  match io with
  | RdbUnsigned u :: rest => (u, rest)
  | _ => (0, io)
  end.

Definition rdb_readStringBuffer (io : list rdb_item) : list Z * list rdb_item :=
  match io with
  | RdbString s :: rest => (s, rest)
  | _ => ([], io)
  end.

Definition TurboGorilla_SaveToRDB (c : TurboGorilla_Chunk) (io : list rdb_item)
  : exec (list rdb_item) :=
  TurboGorilla_GenericSerialize rdb_saveUnsigned rdb_saveString c io.

Definition TurboGorilla_LoadFromRDB (io : list rdb_item) (g : garbage)
  : TurboGorilla_Chunk * list rdb_item :=
  TurboGorilla_Deserialize rdb_readUnsigned rdb_readStringBuffer io g.

(** ** The data model *)

(** The logical content: the first [num_samples] slots of each buffer. *)
Definition samples_ts (c : TurboGorilla_Chunk) : list Z :=
  take (Z.to_nat (num_samples c)) (buffer_ts c).

Definition samples_values (c : TurboGorilla_Chunk) : list double :=
  take (Z.to_nat (num_samples c)) (buffer_values c).

Definition samples (c : TurboGorilla_Chunk) : list Sample :=
  zip_with mkSample (samples_ts c) (samples_values c).

(** Header fields fit their C types. *)
Definition header_typed (c : TurboGorilla_Chunk) : Prop :=
  in_u32 (num_samples c) ∧ in_u64 (size c).

(** Both blocks cover the capacity the header announces. *)
Definition allocated (c : TurboGorilla_Chunk) : Prop :=
  size c / SAMPLE_SIZE <= Z.of_nat (length (buffer_ts c))
  ∧ size c / SAMPLE_SIZE <= Z.of_nat (length (buffer_values c)).

Definition strictly_ascending (l : list Z) : Prop := StronglySorted Z.lt l.

Record chunk_inv (c : TurboGorilla_Chunk) : Prop := mkInv {
  inv_typed : header_typed c;
  inv_allocated : allocated c;
  inv_sorted : strictly_ascending (samples_ts c);
  inv_capacity : num_samples c * SAMPLE_SIZE <= size c;
  inv_start : 0 < num_samples c → buffer_ts c !! 0%nat = Some (start_ts c)
}.

(** ** Vocabulary of the statements *)

(** The number of elements strictly below [ts]: the insertion position
    computed by the upsert. *)
Definition count_below (ts : Z) (l : list Z) : nat :=
  length (filter (λ t, t < ts) l).

(** The samples a deletion of [startTs, endTs] leaves: those whose
    timestamp is outside the closed interval, in their order. *)
Definition survivors (startTs endTs : Z) (l : list Sample) : list Sample :=
  filter (λ s, ¬ (startTs <= timestamp s ∧ timestamp s <= endTs)) l.

(** Storage with no slack: the byte capacity is the logical size and each
    buffer has exactly [num_samples] slots of 8 bytes, together
    [num_samples * SAMPLE_SIZE] bytes. *)
Definition exact_storage (c : TurboGorilla_Chunk) : Prop :=
  size c = num_samples c * SAMPLE_SIZE
  ∧ length (buffer_ts c) = Z.to_nat (num_samples c)
  ∧ length (buffer_values c) = Z.to_nat (num_samples c).

(** What a validating load would have to establish: the declared count is
    covered by both loaded buffers and by the declared capacity. *)
Definition load_consistent (c : TurboGorilla_Chunk) : Prop :=
  num_samples c <= Z.of_nat (length (buffer_ts c))
  ∧ num_samples c <= Z.of_nat (length (buffer_values c))
  ∧ num_samples c * SAMPLE_SIZE <= size c.

(** The state of the filter loop of the range delete after [j] turns: the
    first [new_count] slots of the new buffers are the survivors among the
    first [j] samples, the slots behind them are as allocated. *)
Definition DelRange_inv (tsb vb nts0 : list Z) (nvs0 : list Z)
    (startTs endTs : Z) (j : nat) (st : list Z * list Z * Z) : Prop :=
  let kept := survivors startTs endTs
                (zip_with mkSample (take j tsb) (take j vb)) in
  st.2 = Z.of_nat (length kept)
  ∧ take (length kept) st.1.1 = timestamp <$> kept
  ∧ take (length kept) st.1.2 = value <$> kept
  ∧ drop (length kept) st.1.1 = drop (length kept) nts0
  ∧ length st.1.1 = length nts0
  ∧ length st.1.2 = length nvs0.

(** The new chunk of a split after [j] turns of the copy loop. *)
Definition SplitChunk_inv (c : TurboGorilla_Chunk) (keep newN : Z) (g : garbage)
    (j : nat) (nc : TurboGorilla_Chunk) : Prop :=
  num_samples nc = Z.of_nat j
  ∧ size nc = newN * SAMPLE_SIZE
  ∧ buffer_in_use nc = true
  ∧ length (buffer_ts nc) = Z.to_nat newN
  ∧ length (buffer_values nc) = Z.to_nat newN
  ∧ take j (buffer_ts nc) = take j (drop (Z.to_nat keep) (buffer_ts c))
  ∧ take j (buffer_values nc) = take j (drop (Z.to_nat keep) (buffer_values c))
  ∧ (j = 0%nat → start_ts nc = wrap64 (g_word g))
  ∧ ((0 < j)%nat → buffer_ts c !! Z.to_nat keep = Some (start_ts nc)).

(** ** Sample data *)

(** A chunk with room for four samples holding three. *)
Definition three_samples : TurboGorilla_Chunk :=
  mkChunk 100 3 64 true [100; 200; 300; 0] [1; 2; 3; 0].

(** A chunk filled to its capacity of four samples. *)
Definition four_samples : TurboGorilla_Chunk :=
  mkChunk 100 4 64 true [100; 150; 200; 300] [1; 9; 2; 3].

(** A chunk holding one sample in a block of one slot. *)
Definition one_sample : TurboGorilla_Chunk :=
  mkChunk 100 1 16 true [100] [1].

(** The right half of a split of a one-sample chunk: no capacity at all. *)
Definition no_samples : TurboGorilla_Chunk :=
  mkChunk 0 0 0 true [] [].

(** A resolver with two policies, enough to exercise both outcomes of a
    duplicate: [DP_BLOCK] refuses, [DP_LAST] keeps the incoming value. *)
Inductive SamplePolicy : Type := DP_BLOCK | DP_LAST.

Definition sample_resolver (p : SamplePolicy) (old new : double)
  : ChunkResult * double :=
  match p with
  | DP_BLOCK => (CR_ERR, new)
  | DP_LAST => (CR_OK, new)
  end.

(** Fresh memory that holds a thousand (two thousand, for values) plus the
    slot index. *)
Definition sample_garbage : garbage :=
  mkGarbage 7 (λ i, 1000 + Z.of_nat i) (λ i, 2000 + Z.of_nat i).

(** A stream whose header declares five samples in 16 bytes of capacity and
    whose two byte strings are empty. *)
Definition corrupt_stream : list rdb_item :=
  [RdbUnsigned 16; RdbUnsigned 100; RdbUnsigned 5; RdbUnsigned 1;
   RdbString []; RdbString []].

(** ** Client loops *)

(** The writer's loop, [for each s: results += AddSample(chunk, s)]: the
    result code of every call, and the chunk at the end. *)
Fixpoint append_samples (c : TurboGorilla_Chunk) (l : list Sample)
  : exec (list ChunkResult * TurboGorilla_Chunk) :=
  match l with
  | [] => mret ([], c)
  | s :: l' =>
      r ← TurboGorilla_AddSample c s;
      rest ← append_samples r.2 l';
      mret (r.1 :: rest.1, rest.2)
  end.

(** The reader's loop in the reverse direction,
    [while (GetPrev(iter, &s) == CR_OK) emit(s);], cut off after [fuel]
    calls. *)
Fixpoint drain_prev (fuel : nat) (iter : TurboGorilla_ChunkIterator)
  : exec (option (list Sample)) :=
  match fuel with
  | O => mret None
  | S fuel' =>
      r ← TurboGorilla_ChunkIteratorGetPrev iter;
      match r with
      | (CR_OK, iter', Some s) =>
          rest ← drain_prev fuel' iter'; mret (cons s <$> rest)
      | _ => mret (Some [])
      end
  end.

(** Reverse iteration over a whole chunk: an iterator made with the reverse
    bit as its options, drained backwards. *)
Definition reverse_iteration (reverse_bit : Z) (fuel : nat)
    (c : TurboGorilla_Chunk) : exec (option (list Sample)) :=
  drain_prev fuel (TurboGorilla_NewChunkIterator reverse_bit c reverse_bit).

(** * Properties *)

(** ** Arithmetic of the machine types *)

Lemma wrap64_small z : in_u64 z → wrap64 z = z.
Proof. unfold in_u64, wrap64. intros H. by apply Z.mod_small. Qed.

Lemma wrap32_small z : in_u32 z → wrap32 z = z.
Proof. unfold in_u32, wrap32. intros H. by apply Z.mod_small. Qed.

Lemma wrap64_in z : in_u64 (wrap64 z).
Proof. unfold in_u64, wrap64, UINT64_MOD. apply Z.mod_pos_bound. lia. Qed.

Lemma wrap32_in z : in_u32 (wrap32 z).
Proof. unfold in_u32, wrap32, UINT32_MOD. apply Z.mod_pos_bound. lia. Qed.

Lemma wrap64_minus_one : wrap64 (-1) = UINT64_MOD - 1.
Proof. reflexivity. Qed.

(** ** The error monad *)

Lemma bind_Ret {A B} (a : A) (k : A → exec B) : (Ret a ≫= k) = k a.
Proof. reflexivity. Qed.

Lemma bind_Fault {A B} (f : fault) (k : A → exec B) : (Fault f ≫= k) = Fault f.
Proof. reflexivity. Qed.

Lemma bind_inv_Ret {A B} (m : exec A) (k : A → exec B) (b : B) :
  (m ≫= k) = Ret b → ∃ a, m = Ret a ∧ k a = Ret b.
Proof. destruct m as [a|f]; [eauto | discriminate]. Qed.

(** ** Heap blocks *)

Lemma length_fresh junk from n : length (fresh junk from n) = n.
Proof. unfold fresh. by rewrite length_fmap, length_seq. Qed.

Lemma length_malloc bytes junk : length (malloc bytes junk) = slots_of bytes.
Proof. apply length_fresh. Qed.

Lemma length_realloc buf bytes junk :
  length (realloc buf bytes junk) = slots_of bytes.
Proof.
  unfold realloc. rewrite length_app, length_take, length_fresh. lia.
Qed.

Lemma realloc_shrink buf bytes junk :
  (slots_of bytes ≤ length buf)%nat →
  realloc buf bytes junk = take (slots_of bytes) buf.
Proof.
  intros H. unfold realloc.
  replace (slots_of bytes - length buf)%nat with 0%nat by lia.
  unfold fresh. simpl. by rewrite app_nil_r.
Qed.

Lemma take_realloc buf bytes junk (n : nat) :
  (n ≤ length buf)%nat → (n ≤ slots_of bytes)%nat →
  take n (realloc buf bytes junk) = take n buf.
Proof.
  intros H1 H2. unfold realloc.
  rewrite take_app_le by (rewrite length_take; lia).
  rewrite take_take. f_equal. lia.
Qed.

Lemma slots_of_mul (n : Z) : 0 <= n → slots_of (n * 8) = Z.to_nat n.
Proof. intros H. unfold slots_of. by rewrite Z.div_mul. Qed.

Lemma load_Some buf (i : nat) v :
  buf !! i = Some v → load buf (Z.of_nat i) = Ret v.
Proof.
  intros H. unfold load. rewrite bool_decide_true by lia.
  by rewrite Nat2Z.id, H.
Qed.

Lemma load_lookup buf (i : Z) v :
  0 <= i → buf !! Z.to_nat i = Some v → load buf i = Ret v.
Proof.
  intros Hi H. unfold load. rewrite bool_decide_true by lia. by rewrite H.
Qed.

Lemma load_None buf (i : Z) :
  Z.of_nat (length buf) <= i → load buf i = Fault OutOfBounds.
Proof.
  intros H. unfold load. rewrite bool_decide_true by lia.
  rewrite lookup_ge_None_2 by lia. done.
Qed.

Lemma store_ok buf (i : Z) v :
  0 <= i < Z.of_nat (length buf) → store buf i v = Ret (<[Z.to_nat i := v]> buf).
Proof. intros H. unfold store. by rewrite bool_decide_true. Qed.

Lemma memmove_up buf (idx n : Z) :
  0 <= idx <= n → n < Z.of_nat (length buf) →
  memmove buf (idx + 1) idx ((n - idx) * 8)
  = Ret (take (Z.to_nat idx + 1) buf
           ++ take (Z.to_nat (n - idx)) (drop (Z.to_nat idx) buf)
           ++ drop (Z.to_nat n + 1) buf).
Proof.
  intros H1 H2. unfold memmove. rewrite Z.div_mul by lia.
  rewrite bool_decide_true by lia.
  do 3 f_equal; [lia | f_equal; lia].
Qed.

(** Opening a gap at [idx] and writing into it: the first [n + 1] slots are
    the first [n] slots with the new word inserted at [idx]. *)
Lemma take_insert_shift (buf : list Z) (idx n : nat) (x : Z) :
  (idx ≤ n)%nat → (n < length buf)%nat →
  take (n + 1) (<[idx := x]> (take (idx + 1) buf
                                ++ take (n - idx) (drop idx buf)
                                ++ drop (n + 1) buf))
  = take idx (take n buf) ++ x :: drop idx (take n buf).
Proof.
  intros H1 H2.
  set (M := take (n - idx) (drop idx buf)).
  set (R := drop (n + 1) buf).
  assert (HM : length M = (n - idx)%nat).
  { unfold M. rewrite length_take, length_drop. lia. }
  assert (HL : length (take (idx + 1) buf) = S idx).
  { rewrite length_take. lia. }
  assert (E : <[idx := x]> (take (idx + 1) buf ++ M ++ R)
              = take idx buf ++ x :: M ++ R).
  { rewrite insert_take_drop by (rewrite length_app, HL; lia).
    f_equal.
    - rewrite take_app_le by lia. rewrite take_take. f_equal. lia.
    - f_equal. rewrite <- HL. by rewrite drop_app_length. }
  rewrite E.
  rewrite take_take, Nat.min_l by lia.
  rewrite skipn_firstn_comm. fold M.
  assert (Hi : length (take idx buf) = idx) by (rewrite length_take; lia).
  rewrite take_app_ge by lia.
  f_equal. rewrite Hi.
  replace (n + 1 - idx)%nat with (S (n - idx)) by lia.
  simpl. f_equal. rewrite take_app_le by lia. apply take_ge. lia.
Qed.

(** ** Boundary timestamps *)

(** C10.  On a chunk without samples both getters return -1 converted to
    the unsigned timestamp type, 2^64 - 1, whatever the timestamp buffer is
    (an empty block included, where any read would fault); on a chunk with
    samples they return the first and the last stored timestamp. *)
Theorem first_last_timestamp (c : TurboGorilla_Chunk) :
  (num_samples c = 0 →
     TurboGorilla_GetFirstTimestamp c = Ret (UINT64_MOD - 1)
     ∧ TurboGorilla_GetLastTimestamp c = Ret (UINT64_MOD - 1))
  ∧ (0 < num_samples c →
     num_samples c <= Z.of_nat (length (buffer_ts c)) →
     ∃ first lst,
       head (samples_ts c) = Some first
       ∧ last (samples_ts c) = Some lst
       ∧ TurboGorilla_GetFirstTimestamp c = Ret first
       ∧ TurboGorilla_GetLastTimestamp c = Ret lst).
Proof.
  unfold TurboGorilla_GetFirstTimestamp, TurboGorilla_GetLastTimestamp.
  split.
  - intros H0. rewrite !bool_decide_true by done. by rewrite wrap64_minus_one.
  - intros Hpos Hlen. rewrite !bool_decide_false by lia.
    set (n := Z.to_nat (num_samples c)).
    assert (Hn : length (samples_ts c) = n).
    { unfold samples_ts. fold n. rewrite length_take. lia. }
    destruct (buffer_ts c !! 0%nat) as [first|] eqn:Hf;
      [| apply lookup_ge_None_1 in Hf; lia].
    destruct (buffer_ts c !! (n - 1)%nat) as [lst|] eqn:Hl;
      [| apply lookup_ge_None_1 in Hl; lia].
    exists first, lst. repeat split.
    + rewrite head_lookup. unfold samples_ts. fold n.
      rewrite lookup_take_lt by lia. done.
    + rewrite last_lookup, Hn. unfold samples_ts. fold n.
      rewrite lookup_take_lt by lia.
      replace (Init.Nat.pred n) with (n - 1)%nat by lia. done.
    + apply load_lookup; [lia | done].
    + apply load_lookup; [lia |].
      replace (Z.to_nat (num_samples c - 1)) with (n - 1)%nat by lia. done.
Qed.

Lemma first_last_timestamp_witness :
  (TurboGorilla_GetFirstTimestamp no_samples = Ret 18446744073709551615
   ∧ TurboGorilla_GetLastTimestamp no_samples = Ret 18446744073709551615)
  ∧ (∃ first lst,
       head (samples_ts three_samples) = Some first
       ∧ last (samples_ts three_samples) = Some lst
       ∧ TurboGorilla_GetFirstTimestamp three_samples = Ret first
       ∧ TurboGorilla_GetLastTimestamp three_samples = Ret lst).
Proof.
  split.
  - apply (proj1 (first_last_timestamp no_samples)). reflexivity.
  - apply (proj2 (first_last_timestamp three_samples)); simpl; lia.
Defined.

(** ** The append path *)

(** The post-state of an append that found room. *)
Lemma AddSampleOptimized_room (c : TurboGorilla_Chunk) (ts : Z) (v : double) :
  header_typed c → allocated c →
  num_samples c < size c / SAMPLE_SIZE →
  TurboGorilla_AddSampleOptimized c ts v
  = Ret (CR_OK,
         mkChunk (if bool_decide (num_samples c = 0) then ts else start_ts c)
                 (wrap32 (num_samples c + 1)) (size c) (buffer_in_use c)
                 (<[Z.to_nat (num_samples c) := ts]> (buffer_ts c))
                 (<[Z.to_nat (num_samples c) := v]> (buffer_values c))).
Proof.
  intros ([Hn0 Hn1] & Hsz) [Hat Hav] Hroom.
  unfold TurboGorilla_AddSampleOptimized, IsChunkFull.
  rewrite bool_decide_false by lia.
  case_bool_decide; simpl; rewrite !store_ok by lia; done.
Qed.

Lemma take_succ_insert (buf : list Z) (n : nat) (x : Z) :
  (n < length buf)%nat → take (S n) (<[n := x]> buf) = take n buf ++ [x].
Proof.
  intros H. erewrite take_S_r by (apply list_lookup_insert_eq; lia).
  f_equal. apply take_insert_ge. lia.
Qed.

(** C8.  The append path on a chunk whose header is well typed and whose
    blocks cover its capacity.  At capacity it answers [CR_END] and hands the
    chunk back as it was.  Below capacity it answers [CR_OK] for any
    timestamp: the sample is written at slot [num_samples], [start_ts] is set
    when the chunk was empty, [num_samples] is incremented as an [unsigned
    int]; when [num_samples + 1] is representable the logical content is the
    old content followed by the new sample. *)
Theorem add_sample_optimized_capacity (c : TurboGorilla_Chunk) (ts : Z) (v : double) :
  header_typed c → allocated c →
  (num_samples c = size c / SAMPLE_SIZE →
     TurboGorilla_AddSampleOptimized c ts v = Ret (CR_END, c))
  ∧ (num_samples c < size c / SAMPLE_SIZE →
     ∃ c', TurboGorilla_AddSampleOptimized c ts v = Ret (CR_OK, c')
       ∧ buffer_ts c' = <[Z.to_nat (num_samples c) := ts]> (buffer_ts c)
       ∧ buffer_values c' = <[Z.to_nat (num_samples c) := v]> (buffer_values c)
       ∧ buffer_ts c' !! Z.to_nat (num_samples c) = Some ts
       ∧ buffer_values c' !! Z.to_nat (num_samples c) = Some v
       ∧ start_ts c' = (if bool_decide (num_samples c = 0) then ts else start_ts c)
       ∧ num_samples c' = wrap32 (num_samples c + 1)
       ∧ size c' = size c
       ∧ buffer_in_use c' = buffer_in_use c
       ∧ (num_samples c + 1 < UINT32_MOD →
            num_samples c' = num_samples c + 1
            ∧ samples_ts c' = samples_ts c ++ [ts]
            ∧ samples_values c' = samples_values c ++ [v])).
Proof.
  intros Hty Hal. split.
  - intros Hfull. unfold TurboGorilla_AddSampleOptimized, IsChunkFull.
    by rewrite bool_decide_true.
  - intros Hroom. rewrite (AddSampleOptimized_room c ts v Hty Hal Hroom).
    destruct Hty as ([Hn0 Hn1] & Hsz). destruct Hal as [Hat Hav].
    eexists. split; [reflexivity |]. simpl.
    repeat split.
    + apply list_lookup_insert_eq. lia.
    + apply list_lookup_insert_eq. lia.
    + apply wrap32_small. unfold in_u32. lia.
    + unfold samples_ts. simpl. rewrite wrap32_small by (unfold in_u32; lia).
      replace (Z.to_nat (num_samples c + 1))
        with (S (Z.to_nat (num_samples c))) by lia.
      apply take_succ_insert. lia.
    + unfold samples_values. simpl. rewrite wrap32_small by (unfold in_u32; lia).
      replace (Z.to_nat (num_samples c + 1))
        with (S (Z.to_nat (num_samples c))) by lia.
      apply take_succ_insert. lia.
Qed.

Lemma add_sample_optimized_capacity_witness :
  TurboGorilla_AddSampleOptimized four_samples 400 4 = Ret (CR_END, four_samples)
  ∧ (∃ c', TurboGorilla_AddSampleOptimized three_samples 50 4 = Ret (CR_OK, c')
       ∧ start_ts c' = 100
       ∧ num_samples c' = 4
       ∧ samples_ts c' = [100; 200; 300; 50]
       ∧ samples_values c' = [1; 2; 3; 4]).
Proof.
  split.
  - apply (proj1 (add_sample_optimized_capacity four_samples 400 4
                    ltac:(by vm_compute) ltac:(by vm_compute))).
    reflexivity.
  - destruct (proj2 (add_sample_optimized_capacity three_samples 50 4
                       ltac:(by vm_compute) ltac:(by vm_compute))
                ltac:(by vm_compute))
      as (c' & Hrun & _ & _ & _ & _ & Hst & _ & _ & _ & Hlog).
    destruct (Hlog ltac:(by vm_compute)) as (Hn & Hts & Hvs).
    exists c'. repeat split; assumption.
Defined.

(** ** Loops *)

(** A total-correctness rule for [for_iter]: an invariant indexed by the
    number of completed iterations, which every iteration re-establishes
    without faulting. *)
Lemma for_iter_inv {St : Type} (P : nat → St → Prop) (k : nat) (i : Z)
    (body : Z → St → exec St) (s : St) :
  P 0%nat s →
  (∀ (j : nat) (st : St), (j < k)%nat → P j st →
     ∃ st', body (i + Z.of_nat j) st = Ret st' ∧ P (S j) st') →
  ∃ st', for_iter k i body s = Ret st' ∧ P k st'.
Proof.
  revert P i s. induction k as [|k IH]; intros P i s H0 Hstep.
  - exists s. done.
  - destruct (Hstep 0%nat s ltac:(lia) H0) as (s1 & Hb & H1).
    rewrite Z.add_0_r in Hb. simpl. rewrite Hb. simpl.
    apply (IH (λ j, P (S j))); [done |].
    intros j st Hj Hp.
    destruct (Hstep (S j) st ltac:(lia) Hp) as (st' & Hb' & Hp').
    exists st'. split; [| done].
    rewrite <- Hb'. f_equal. lia.
Qed.

Lemma for_loop_inv {St : Type} (P : nat → St → Prop) (hi : Z)
    (body : Z → St → exec St) (s : St) :
  0 <= hi →
  P 0%nat s →
  (∀ (j : nat) (st : St), Z.of_nat j < hi → P j st →
     ∃ st', body (Z.of_nat j) st = Ret st' ∧ P (S j) st') →
  ∃ st', for_loop 0 hi body s = Ret st' ∧ P (Z.to_nat hi) st'.
Proof.
  intros Hhi H0 Hstep. unfold for_loop. rewrite Z.sub_0_r.
  apply for_iter_inv; [done |].
  intros j st Hj Hp. rewrite Z.add_0_l. apply Hstep; [lia | done].
Qed.

(** ** Position of a timestamp in an ascending sequence *)

Lemma count_below_snoc ts l x :
  count_below ts (l ++ [x])
  = (count_below ts l + (if bool_decide (x < ts)%Z then 1 else 0))%nat.
Proof.
  unfold count_below. rewrite filter_app, length_app. f_equal.
  rewrite filter_cons, filter_nil.
  case_decide; case_bool_decide; done.
Qed.

Lemma count_below_le ts l : (count_below ts l ≤ length l)%nat.
Proof. apply length_filter. Qed.

Lemma count_below_none ts l :
  Forall (λ x, ts <= x) l → count_below ts l = 0%nat.
Proof.
  unfold count_below. induction 1 as [|x l Hx Hl IH]; [done |].
  rewrite filter_cons. case_decide; [lia | done].
Qed.

(** In a strictly ascending sequence the elements below [ts] are exactly
    those at the positions before [count_below ts l]. *)
Lemma ascending_below ts l (i : nat) x :
  strictly_ascending l → l !! i = Some x →
  (x < ts ↔ (i < count_below ts l)%nat).
Proof.
  unfold strictly_ascending, count_below. intros Hs. revert i.
  induction Hs as [|a l Hs IH Ha]; intros i Hi; [done |].
  rewrite filter_cons. case_decide as Hlt.
  - destruct i as [|i]; simpl in Hi.
    + injection Hi as ->. simpl. lia.
    + specialize (IH i Hi). simpl. lia.
  - assert (Hz : count_below ts l = 0%nat).
    { apply count_below_none. eapply Forall_impl; [exact Ha |].
      simpl. intros y Hy. lia. }
    unfold count_below in Hz. rewrite Hz.
    assert (a <= x); [| lia].
    destruct i as [|i]; simpl in Hi.
    + injection Hi as ->. lia.
    + rewrite Forall_forall in Ha.
      assert (a < x); [| lia]. apply Ha. by eapply list_elem_of_lookup_2.
Qed.

Lemma ascending_lookup_lt l (i j : nat) x y :
  strictly_ascending l → l !! i = Some x → l !! j = Some y →
  (i < j)%nat → x < y.
Proof.
  unfold strictly_ascending. intros Hs. revert i j.
  induction Hs as [|a l Hs IH Ha]; intros i j Hi Hj Hij; [done |].
  destruct j as [|j]; [lia |]. simpl in Hj.
  destruct i as [|i]; simpl in Hi.
  - injection Hi as ->. rewrite Forall_forall in Ha. apply Ha.
    by eapply list_elem_of_lookup_2.
  - eapply IH; [done | done | lia].
Qed.

(** The membership test of the upsert: a timestamp occurs in an ascending
    sequence exactly when it sits at the position counted. *)
Lemma ascending_found ts l :
  strictly_ascending l →
  (ts ∈ l ↔ l !! count_below ts l = Some ts).
Proof.
  intros Hs. split.
  - intros Hin. apply list_elem_of_lookup_1 in Hin as [i Hi].
    pose proof (ascending_below ts l i ts Hs Hi) as Hb.
    destruct (decide (i = count_below ts l)) as [-> | Hne]; [done |].
    assert (Hlt : (count_below ts l < i)%nat) by lia.
    destruct (l !! count_below ts l) as [y|] eqn:Hy.
    + pose proof (ascending_below ts l _ y Hs Hy).
      pose proof (ascending_lookup_lt l _ _ y ts Hs Hy Hi Hlt). lia.
    + apply lookup_ge_None_1 in Hy. apply lookup_lt_Some in Hi. lia.
  - intros H. by eapply list_elem_of_lookup_2.
Qed.

Lemma ascending_insert ts l :
  strictly_ascending l → ts ∉ l →
  strictly_ascending
    (take (count_below ts l) l ++ ts :: drop (count_below ts l) l).
Proof.
  intros Hs Hnin. set (p := count_below ts l).
  assert (Hsplit : strictly_ascending (take p l ++ drop p l))
    by (by rewrite take_drop).
  apply StronglySorted_app in Hsplit as (Hcross & Hl & Hr).
  assert (Hleft : ∀ x, x ∈ take p l → x < ts).
  { intros x Hx. apply list_elem_of_lookup_1 in Hx as [i Hi].
    apply lookup_take_Some in Hi as [Hi Hip].
    by apply (ascending_below ts l i x Hs Hi). }
  assert (Hright : ∀ x, x ∈ drop p l → ts < x).
  { intros x Hx. apply list_elem_of_lookup_1 in Hx as [i Hi].
    rewrite lookup_drop in Hi.
    pose proof (ascending_below ts l _ x Hs Hi).
    assert (x ≠ ts).
    { intros ->. apply Hnin. by eapply list_elem_of_lookup_2. }
    fold p in H. lia. }
  apply StronglySorted_app_2.
  - intros x1 x2 H1 H2. apply elem_of_cons in H2 as [-> | H2].
    + by apply Hleft.
    + by apply Hcross.
  - done.
  - constructor; [done |]. rewrite Forall_forall. intros x Hx.
    by apply Hright.
Qed.

(** ** Positional upsert *)

Lemma count_loop (buf : list Z) (ts n : Z) :
  0 <= n <= Z.of_nat (length buf) →
  for_loop 0 n
    (λ i pos, t ← load buf i;
              mret (pos + (if bool_decide (t < ts) then 1 else 0)))
    0
  = Ret (Z.of_nat (count_below ts (take (Z.to_nat n) buf))).
Proof.
  intros Hn.
  destruct (for_loop_inv
              (λ j pos, pos = Z.of_nat (count_below ts (take j buf)))
              n
              (λ i pos, t ← load buf i;
                        mret (pos + (if bool_decide (t < ts) then 1 else 0)))
              0) as (r & Hr & ->); [lia | done | | done].
  intros j pos Hj ->.
  destruct (buf !! j) as [t|] eqn:Ht; [| apply lookup_ge_None_1 in Ht; lia].
  rewrite (load_Some _ _ _ Ht). simpl. eexists. split; [reflexivity |].
  rewrite (take_S_r _ _ _ Ht), count_below_snoc.
  case_bool_decide; lia.
Qed.

Lemma length_memmove_up (buf : list Z) (idx n : nat) :
  (idx ≤ n)%nat → (n < length buf)%nat →
  length (take (idx + 1) buf ++ take (n - idx) (drop idx buf)
            ++ drop (n + 1) buf) = length buf.
Proof.
  intros H1 H2. rewrite !length_app, !length_take, !length_drop. lia.
Qed.

(** Shifting the tail and writing at [idx], on one buffer. *)
Lemma shift_store (buf : list Z) (idx n x : Z) :
  0 <= idx <= n → n < Z.of_nat (length buf) →
  ∃ buf1 buf2,
    (if bool_decide (idx < n)
     then memmove buf (idx + 1) idx ((n - idx) * 8) else Ret buf) = Ret buf1
    ∧ store buf1 idx x = Ret buf2
    ∧ length buf2 = length buf
    ∧ take (Z.to_nat n + 1) buf2
      = take (Z.to_nat idx) (take (Z.to_nat n) buf)
          ++ x :: drop (Z.to_nat idx) (take (Z.to_nat n) buf).
Proof.
  intros Hi Hn. case_bool_decide as Hlt.
  - rewrite memmove_up by lia.
    eexists _, _. split; [reflexivity |].
    replace (Z.to_nat (n - idx)) with (Z.to_nat n - Z.to_nat idx)%nat by lia.
    rewrite store_ok by (rewrite length_memmove_up; lia).
    split; [reflexivity |]. split.
    + rewrite length_insert, length_memmove_up; lia.
    + apply take_insert_shift; lia.
  - assert (idx = n) as -> by lia.
    eexists _, _. split; [reflexivity |].
    rewrite store_ok by lia. split; [reflexivity |]. split.
    + by rewrite length_insert.
    + rewrite take_take, Nat.min_id.
      rewrite drop_ge by (rewrite length_take; lia).
      replace (Z.to_nat n + 1)%nat with (S (Z.to_nat n)) by lia.
      erewrite take_S_r by (apply list_lookup_insert_eq; lia).
      f_equal. apply take_insert_ge. lia.
Qed.

Lemma slots_grown (sz : Z) : 0 <= sz → slots_of (sz / 2 + 8) = Z.to_nat (sz / 16 + 1).
Proof.
  intros H. unfold slots_of. f_equal.
  replace (sz / 2 + 8) with (sz / 2 + 1 * 8) by lia.
  rewrite Z.div_add by lia. rewrite Z.div_div by lia. done.
Qed.

Lemma upsertChunk_spec (c : TurboGorilla_Chunk) (idx ts v : Z) (g : garbage) :
  in_u32 (num_samples c) → in_u64 (size c) → allocated c →
  num_samples c * SAMPLE_SIZE <= size c →
  num_samples c + 1 < UINT32_MOD →
  0 <= idx <= num_samples c →
  ∃ c', upsertChunk c idx ts v g = Ret c'
    ∧ num_samples c' = num_samples c + 1
    ∧ size c' = (if IsChunkFull c then size c + SAMPLE_SIZE else size c)
    ∧ start_ts c' = start_ts c
    ∧ buffer_in_use c' = buffer_in_use c
    ∧ samples_ts c'
      = take (Z.to_nat idx) (samples_ts c)
          ++ ts :: drop (Z.to_nat idx) (samples_ts c)
    ∧ samples_values c'
      = take (Z.to_nat idx) (samples_values c)
          ++ v :: drop (Z.to_nat idx) (samples_values c)
    ∧ allocated c'.
Proof.
  intros [Hn0 Hn1] [Hs0 Hs1] [Hat Hav] Hcap Hsucc Hidx.
  unfold SAMPLE_SIZE in *.
  set (n := num_samples c) in *.
  unfold upsertChunk.
  set (c1 := if IsChunkFull c then _ else c).
  assert (H1 : num_samples c1 = n
               ∧ start_ts c1 = start_ts c
               ∧ buffer_in_use c1 = buffer_in_use c
               ∧ size c1 = (if IsChunkFull c then size c + 16 else size c)
               ∧ n < Z.of_nat (length (buffer_ts c1))
               ∧ n < Z.of_nat (length (buffer_values c1))
               ∧ size c1 / 16 <= Z.of_nat (length (buffer_ts c1))
               ∧ size c1 / 16 <= Z.of_nat (length (buffer_values c1))
               ∧ take (Z.to_nat n) (buffer_ts c1) = take (Z.to_nat n) (buffer_ts c)
               ∧ take (Z.to_nat n) (buffer_values c1)
                 = take (Z.to_nat n) (buffer_values c)).
  { unfold c1, IsChunkFull, SAMPLE_SIZE. fold n. case_bool_decide as Hfull.
    - assert (Hsz : size c < 16 * UINT32_MOD).
      { pose proof (Z.mul_succ_div_gt (size c) 16 ltac:(lia)). lia. }
      assert (Hw : wrap64 (size c + 16) = size c + 16).
      { apply wrap64_small. unfold in_u64, UINT64_MOD, UINT32_MOD in *. lia. }
      assert (Hd : (size c + 16) / 16 = n + 1).
      { replace (size c + 16) with (size c + 1 * 16) by lia.
        rewrite Z.div_add by lia. lia. }
      assert (Hw2 : wrap64 ((size c + 16) / 2 + 8) = (size c + 16) / 2 + 8).
      { apply wrap64_small. unfold in_u64, UINT64_MOD, UINT32_MOD in *.
        pose proof (Z.div_pos (size c + 16) 2 ltac:(lia) ltac:(lia)).
        pose proof (Z.div_le_upper_bound (size c + 16) 2 (size c + 16)
                      ltac:(lia) ltac:(lia)). lia. }
      simpl. unfold sizeof_u64, sizeof_double. rewrite Hw, Hw2.
      rewrite !length_realloc, slots_grown, Hd by lia.
      repeat split; try lia.
      + apply take_realloc; [lia | rewrite slots_grown, Hd; lia].
      + apply take_realloc; [lia | rewrite slots_grown, Hd; lia].
    - assert (n <= size c / 16) by (apply Z.div_le_lower_bound; lia).
      repeat split; try lia; done. }
  destruct H1 as (E1 & E2 & E3 & E4 & L1 & L2 & A1 & A2 & T1 & T2).
  rewrite E1. unfold sizeof_u64, sizeof_double.
  destruct (shift_store (buffer_ts c1) idx n ts Hidx L1)
    as (bt1 & bt2 & Hm1 & Hs1' & Hl1 & Ht1).
  destruct (shift_store (buffer_values c1) idx n v Hidx L2)
    as (bv1 & bv2 & Hm2 & Hs2' & Hl2 & Ht2).
  assert (Hmove :
    (if bool_decide (idx < n)
     then bt ← memmove (buffer_ts c1) (idx + 1) idx ((n - idx) * 8);
          bv ← memmove (buffer_values c1) (idx + 1) idx ((n - idx) * 8);
          mret (bt, bv)
     else mret (buffer_ts c1, buffer_values c1)) = Ret (bt1, bv1)).
  { case_bool_decide.
    - rewrite Hm1. simpl. rewrite Hm2. done.
    - by simplify_eq. }
  rewrite Hmove. simpl. rewrite Hs1'. simpl. rewrite Hs2'. simpl.
  eexists. split; [reflexivity |]. simpl.
  assert (Hw : wrap32 (n + 1) = n + 1).
  { apply wrap32_small. unfold in_u32. lia. }
  rewrite Hw, E2, E3, E4.
  unfold samples_ts, samples_values, allocated. simpl. fold n.
  replace (Z.to_nat (n + 1)) with (Z.to_nat n + 1)%nat by lia.
  rewrite Ht1, Ht2, T1, T2, Hl1, Hl2.
  unfold SAMPLE_SIZE. rewrite <- E4.
  repeat split; done.
Qed.

Lemma inv_fits (c : TurboGorilla_Chunk) :
  chunk_inv c →
  0 <= num_samples c
  ∧ num_samples c <= Z.of_nat (length (buffer_ts c))
  ∧ num_samples c <= Z.of_nat (length (buffer_values c)).
Proof.
  intros [([Hn0 Hn1] & Hsz) [Hat Hav] _ Hcap _].
  unfold SAMPLE_SIZE in *.
  assert (num_samples c <= size c / 16) by (apply Z.div_le_lower_bound; lia).
  lia.
Qed.

Lemma length_samples_ts (c : TurboGorilla_Chunk) :
  chunk_inv c → length (samples_ts c) = Z.to_nat (num_samples c).
Proof.
  intros Hc. destruct (inv_fits c Hc) as (H0 & H1 & H2).
  unfold samples_ts. rewrite length_take. lia.
Qed.

Lemma length_samples_values (c : TurboGorilla_Chunk) :
  chunk_inv c → length (samples_values c) = Z.to_nat (num_samples c).
Proof.
  intros Hc. destruct (inv_fits c Hc) as (H0 & H1 & H2).
  unfold samples_values. rewrite length_take. lia.
Qed.

(** ** Positional upsert: the whole operation *)

Section UpsertSpec.
Context {DuplicatePolicy : Type}.
Variable handleDuplicateSample :
  DuplicatePolicy → double → double → ChunkResult * double.

(** The two outcomes of the upsert, with everything later proofs need
about the new chunk. *)
Lemma UpsertSample_cases (policy : DuplicatePolicy) (c : TurboGorilla_Chunk)
    (ts v : Z) (g : garbage) :
  chunk_inv c → num_samples c <= INT_MAX →
  let pos := count_below ts (samples_ts c) in
  let run := TurboGorilla_UpsertSample handleDuplicateSample
               (mkUpsertCtx c (mkSample ts v)) policy g in
  (ts ∈ samples_ts c →
     ∃ old, samples_ts c !! pos = Some ts
       ∧ samples_values c !! pos = Some old
       ∧ ∀ cr v', handleDuplicateSample policy old v = (cr, v') →
           (cr ≠ CR_OK →
              run = Ret (CR_ERR, mkUpsertCtx c (mkSample ts v'), 0))
           ∧ (cr = CR_OK →
              run = Ret (CR_OK,
                         mkUpsertCtx
                           (set_buffers c (buffer_ts c)
                              (<[pos := v']> (buffer_values c)))
                           (mkSample ts v'),
                         0)))
  ∧ (ts ∉ samples_ts c →
     ∃ c', run = Ret (CR_OK, mkUpsertCtx c' (mkSample ts v), 1)
       ∧ size c' = (if IsChunkFull c then size c + SAMPLE_SIZE else size c)
       ∧ samples_ts c' = take pos (samples_ts c) ++ ts :: drop pos (samples_ts c)
       ∧ samples_values c'
         = take pos (samples_values c) ++ v :: drop pos (samples_values c)
       ∧ num_samples c' = num_samples c + 1
       ∧ start_ts c' = (if decide (pos = 0%nat) then ts else start_ts c)
       ∧ buffer_in_use c' = buffer_in_use c
       ∧ allocated c').
Proof.
  intros Hc Hint pos run.
  destruct (inv_fits c Hc) as (Hn0 & Hlt & Hlv).
  pose proof (length_samples_ts c Hc) as Hlen.
  pose proof (count_below_le ts (samples_ts c)) as Hpos. fold pos in Hpos.
  assert (Hrun : run =
    (found ← (if bool_decide (Z.of_nat pos < num_samples c) then
                t ← load (buffer_ts c) (Z.of_nat pos); mret (bool_decide (t = ts))
              else mret false);
     if (found : bool) then
       old ← load (buffer_values c) (Z.of_nat pos);
       let '(cr, v') := handleDuplicateSample policy old v in
       if bool_decide (cr ≠ CR_OK) then
         mret (CR_ERR, mkUpsertCtx c (mkSample ts v'), 0)
       else
         bv ← store (buffer_values c) (Z.of_nat pos) v';
         mret (CR_OK, mkUpsertCtx (set_buffers c (buffer_ts c) bv) (mkSample ts v'), 0)
     else
       let c1 := if bool_decide (Z.of_nat pos = 0)
                 then set_start_ts c ts else c in
       c2 ← upsertChunk c1 (Z.of_nat pos) ts v g;
       mret (CR_OK, mkUpsertCtx c2 (mkSample ts v), 1))).
  { unfold run, TurboGorilla_UpsertSample. simpl.
    rewrite bool_decide_false by lia.
    rewrite count_loop by lia. done. }
  rewrite Hrun. clear Hrun. split.
  - intros Hin.
    apply (ascending_found ts _ (inv_sorted c Hc)) in Hin. fold pos in Hin.
    pose proof (lookup_lt_Some _ _ _ Hin) as Hp.
    destruct (samples_values c !! pos) as [old|] eqn:Hold;
      [| apply lookup_ge_None_1 in Hold;
         rewrite (length_samples_values c Hc) in Hold; lia].
    exists old. split; [done |]. split; [done |].
    unfold samples_ts in Hin. unfold samples_values in Hold.
    apply lookup_take_Some in Hin as [Hin _].
    apply lookup_take_Some in Hold as [Hold _].
    intros cr v' Hres.
    rewrite (bool_decide_true (Z.of_nat pos < num_samples c)) by lia.
    rewrite (load_Some _ _ _ Hin). simpl.
    rewrite (bool_decide_true (ts = ts)) by done.
    rewrite (load_Some _ _ _ Hold). simpl. rewrite Hres.
    split; intros Hcr.
    + by rewrite bool_decide_true.
    + rewrite bool_decide_false by (by intros []).
      pose proof (lookup_lt_Some _ _ _ Hold).
      rewrite store_ok by lia. simpl. by rewrite Nat2Z.id.
  - intros Hnin.
    assert (Hfound :
      (if bool_decide (Z.of_nat pos < num_samples c) then
         t ← load (buffer_ts c) (Z.of_nat pos); mret (bool_decide (t = ts))
       else mret false) = Ret false).
    { case_bool_decide as Hlt'; [| done].
      destruct (buffer_ts c !! pos) as [t|] eqn:Ht;
        [| apply lookup_ge_None_1 in Ht; lia].
      rewrite (load_Some _ _ _ Ht). simpl.
      rewrite bool_decide_false; [done |]. intros ->.
      apply Hnin. apply (ascending_found ts _ (inv_sorted c Hc)).
      fold pos. unfold samples_ts. apply lookup_take_Some. split; [done | lia]. }
    rewrite Hfound. simpl.
    set (c1 := if bool_decide (Z.of_nat pos = 0) then set_start_ts c ts else c).
    assert (E : num_samples c1 = num_samples c ∧ size c1 = size c
                ∧ buffer_ts c1 = buffer_ts c
                ∧ buffer_values c1 = buffer_values c
                ∧ buffer_in_use c1 = buffer_in_use c
                ∧ start_ts c1 = (if decide (pos = 0%nat) then ts else start_ts c)).
    { unfold c1. destruct (decide (pos = 0%nat)) as [Hp0 | Hp0].
      - rewrite bool_decide_true by lia. done.
      - rewrite bool_decide_false by lia. done. }
    destruct E as (En & Es & Et & Ev & Eu & Est).
    destruct Hc as [(Hn & Hsz) Hal _ Hcap _].
    destruct (upsertChunk_spec c1 (Z.of_nat pos) ts v g)
      as (c' & Hup & Hn' & Hs' & Hst' & Hu' & Hts' & Hvs' & Hal');
      try (rewrite ?En, ?Es; unfold allocated;
           rewrite ?Es, ?Et, ?Ev; done).
    { rewrite En. unfold INT_MAX, UINT32_MOD in *. lia. }
    { rewrite En. lia. }
    rewrite Hup. simpl. exists c'. split; [done |].
    assert (Hfull : IsChunkFull c1 = IsChunkFull c).
    { unfold IsChunkFull. by rewrite En, Es. }
    rewrite Hs', Hfull, Es, Hts', Hvs', Hn', En, Hst', Est, Hu', Eu, Nat2Z.id.
    unfold samples_ts, samples_values. rewrite En, Et, Ev.
    repeat (split; [done |]). exact Hal'.
Qed.

(** C1.  Upsert into a chunk that satisfies the data model and whose
    sample count fits the [int] loop counter; [pos] is the number of stored
    timestamps strictly below the incoming one.

    If the timestamp is stored, it is stored at [pos] and the resolver
    decides on the value found there.  When the resolver does not answer
    [CR_OK] the call answers [CR_ERR], reports 0 added and the chunk in the
    context is the chunk that went in.  When it answers [CR_OK] the call
    answers [CR_OK], reports 0 added, and the chunk differs from the old
    one in slot [pos] of the value buffer only, which holds the resolved
    value; [num_samples] is unchanged.

    If the timestamp is not stored, the call answers [CR_OK] and reports 1
    added; [size] has grown by one sample exactly when the chunk was full;
    the logical content is the old one with the new sample inserted at
    [pos], everything from [pos] on moved one slot to the right;
    [num_samples] is one more; [start_ts] is the new timestamp when [pos]
    is 0 and is unchanged otherwise. *)
Theorem upsert_sample (policy : DuplicatePolicy) (c : TurboGorilla_Chunk)
    (ts v : Z) (g : garbage) :
  chunk_inv c → num_samples c <= INT_MAX →
  let pos := count_below ts (samples_ts c) in
  let run := TurboGorilla_UpsertSample handleDuplicateSample
               (mkUpsertCtx c (mkSample ts v)) policy g in
  (ts ∈ samples_ts c →
     ∃ old, samples_ts c !! pos = Some ts
       ∧ samples_values c !! pos = Some old
       ∧ ∀ cr v', handleDuplicateSample policy old v = (cr, v') →
           (cr ≠ CR_OK →
              run = Ret (CR_ERR, mkUpsertCtx c (mkSample ts v'), 0))
           ∧ (cr = CR_OK →
              run = Ret (CR_OK,
                         mkUpsertCtx
                           (set_buffers c (buffer_ts c)
                              (<[pos := v']> (buffer_values c)))
                           (mkSample ts v'),
                         0)))
  ∧ (ts ∉ samples_ts c →
     ∃ c', run = Ret (CR_OK, mkUpsertCtx c' (mkSample ts v), 1)
       ∧ size c' = (if IsChunkFull c then size c + SAMPLE_SIZE else size c)
       ∧ samples_ts c' = take pos (samples_ts c) ++ ts :: drop pos (samples_ts c)
       ∧ samples_values c'
         = take pos (samples_values c) ++ v :: drop pos (samples_values c)
       ∧ num_samples c' = num_samples c + 1
       ∧ start_ts c' = (if decide (pos = 0%nat) then ts else start_ts c)
       ∧ buffer_in_use c' = buffer_in_use c).
Proof.
  intros Hc Hint pos run.
  destruct (UpsertSample_cases policy c ts v g Hc Hint) as [Hdup Hnew].
  split; [exact Hdup |].
  intros Hnin.
  destruct (Hnew Hnin) as (c' & H1 & H2 & H3 & H4 & H5 & H6 & H7 & H8 & _).
  exists c'. repeat split; assumption.
Qed.
End UpsertSpec.

Lemma four_samples_inv : chunk_inv four_samples.
Proof.
  split.
  - by vm_compute.
  - by vm_compute.
  - unfold strictly_ascending. simpl. repeat constructor; lia.
  - by vm_compute.
  - reflexivity.
Defined.

Lemma three_samples_inv : chunk_inv three_samples.
Proof.
  split.
  - by vm_compute.
  - by vm_compute.
  - unfold strictly_ascending. simpl. repeat constructor; lia.
  - by vm_compute.
  - reflexivity.
Defined.

Lemma upsert_sample_witness :
  TurboGorilla_UpsertSample sample_resolver
    (mkUpsertCtx four_samples (mkSample 200 5)) DP_BLOCK sample_garbage
  = Ret (CR_ERR, mkUpsertCtx four_samples (mkSample 200 5), 0)
  ∧ TurboGorilla_UpsertSample sample_resolver
      (mkUpsertCtx four_samples (mkSample 200 5)) DP_LAST sample_garbage
    = Ret (CR_OK,
           mkUpsertCtx
             (mkChunk 100 4 64 true [100; 150; 200; 300] [1; 9; 5; 3])
             (mkSample 200 5),
           0)
  ∧ (∃ c', TurboGorilla_UpsertSample sample_resolver
             (mkUpsertCtx four_samples (mkSample 50 5)) DP_LAST sample_garbage
           = Ret (CR_OK, mkUpsertCtx c' (mkSample 50 5), 1)
       ∧ size c' = 80
       ∧ samples_ts c' = [50; 100; 150; 200; 300]
       ∧ samples_values c' = [5; 1; 9; 2; 3]
       ∧ num_samples c' = 5
       ∧ start_ts c' = 50
       ∧ buffer_in_use c' = true).
Proof.
  assert (Hint : num_samples four_samples <= INT_MAX) by (by vm_compute).
  assert (Hin : 200 ∈ samples_ts four_samples).
  { apply (list_elem_of_lookup_2 _ 2%nat). reflexivity. }
  assert (Hnin : 50 ∉ samples_ts four_samples).
  { intros H. apply list_elem_of_In in H. simpl in H. lia. }
  split; [| split].
  - destruct (proj1 (upsert_sample sample_resolver DP_BLOCK four_samples 200 5
                       sample_garbage four_samples_inv Hint) Hin)
      as (old & _ & _ & Hres).
    apply (proj1 (Hres CR_ERR 5 eq_refl)). discriminate.
  - destruct (proj1 (upsert_sample sample_resolver DP_LAST four_samples 200 5
                       sample_garbage four_samples_inv Hint) Hin)
      as (old & _ & _ & Hres).
    apply (proj2 (Hres CR_OK 5 eq_refl)). reflexivity.
  - apply (proj2 (upsert_sample sample_resolver DP_LAST four_samples 50 5
                    sample_garbage four_samples_inv Hint) Hnin).
Defined.

(** ** Range delete *)

Lemma zip_samples_snoc (tsb vb : list Z) (j : nat) (t v : Z) :
  tsb !! j = Some t → vb !! j = Some v →
  zip_with mkSample (take (S j) tsb) (take (S j) vb)
  = zip_with mkSample (take j tsb) (take j vb) ++ [mkSample t v].
Proof.
  intros Ht Hv.
  rewrite (take_S_r _ _ _ Ht), (take_S_r _ _ _ Hv).
  apply lookup_lt_Some in Ht. apply lookup_lt_Some in Hv.
  rewrite zip_with_app by (rewrite !length_take; lia). done.
Qed.

Lemma zip_samples_fmap (l : list Sample) :
  zip_with mkSample (timestamp <$> l) (value <$> l) = l.
Proof.
  induction l as [|[t v] l IH]; [done |].
  rewrite !fmap_cons. cbn [zip_with]. by rewrite IH.
Qed.

Lemma survivors_snoc startTs endTs l s :
  survivors startTs endTs (l ++ [s])
  = survivors startTs endTs l
      ++ (if bool_decide (startTs <= timestamp s) && bool_decide (timestamp s <= endTs)
          then [] else [s]).
Proof.
  unfold survivors. rewrite filter_app. f_equal.
  rewrite filter_cons, filter_nil.
  case_decide as H; do 2 case_bool_decide; simpl; try done; exfalso; tauto.
Qed.

Lemma survivors_length_le startTs endTs l :
  (length (survivors startTs endTs l) ≤ length l)%nat.
Proof. apply length_filter. Qed.

Lemma DelRange_loop (tsb vb nts0 nvs0 : list Z) (startTs endTs n : Z) :
  0 <= n →
  n <= Z.of_nat (length tsb) → n <= Z.of_nat (length vb) →
  n <= Z.of_nat (length nts0) → n <= Z.of_nat (length nvs0) →
  ∃ st, for_loop 0 n (DelRange_step tsb vb startTs endTs) (nts0, nvs0, 0)
        = Ret st
    ∧ DelRange_inv tsb vb nts0 nvs0 startTs endTs (Z.to_nat n) st.
Proof.
  intros Hn Ht Hv Hnt Hnv.
  apply for_loop_inv; [done | |].
  - unfold DelRange_inv. simpl. done.
  - intros j [[nts nvs] k] Hj (Hk & Htk & Hvk & Hdr & Hlt & Hlv). simpl in *.
    destruct (tsb !! j) as [t|] eqn:Htj; [| apply lookup_ge_None_1 in Htj; lia].
    destruct (vb !! j) as [v|] eqn:Hvj; [| apply lookup_ge_None_1 in Hvj; lia].
    unfold DelRange_step, DelRange_inv.
    rewrite (load_Some _ _ _ Htj). simpl.
    rewrite (zip_samples_snoc _ _ _ _ _ Htj Hvj), survivors_snoc. simpl.
    set (kept := survivors startTs endTs
                   (zip_with mkSample (take j tsb) (take j vb))) in *.
    assert (Hkl : (length kept ≤ j)%nat).
    { etrans; [apply survivors_length_le |].
      rewrite length_zip_with, !length_take. lia. }
    destruct (bool_decide (startTs <= t) && bool_decide (t <= endTs)).
    + eexists. split; [reflexivity |]. simpl.
      rewrite app_nil_r. done.
    + subst k.
      rewrite store_ok by lia. simpl.
      rewrite (load_Some _ _ _ Hvj). simpl.
      rewrite store_ok by lia. simpl.
      eexists. split; [reflexivity |]. simpl.
      rewrite length_app, !fmap_app, !length_insert, Nat2Z.id. simpl.
      replace (length kept + 1)%nat with (S (length kept)) by lia.
      rewrite !take_succ_insert by lia.
      rewrite Htk, Hvk.
      repeat split; try done; try lia.
      rewrite drop_insert_lt by lia.
      replace (S (length kept)) with (length kept + 1)%nat by lia.
      rewrite <- !drop_drop. by rewrite Hdr.
Qed.

Lemma slots_of_half (sz : Z) : 0 <= sz → slots_of (sz / 2) = Z.to_nat (sz / 16).
Proof. intros H. unfold slots_of. by rewrite Z.div_div by lia. Qed.

(** What the range delete computes, and where it faults. *)
Lemma DelRange_spec (c : TurboGorilla_Chunk) (startTs endTs : Z) (g : garbage) :
  header_typed c → allocated c →
  num_samples c * SAMPLE_SIZE <= size c →
  let kept := survivors startTs endTs (samples c) in
  (SAMPLE_SIZE <= size c →
     ∃ c', TurboGorilla_DelRange c startTs endTs g
           = Ret (c', num_samples c - Z.of_nat (length kept))
       ∧ num_samples c' = Z.of_nat (length kept)
       ∧ size c' = size c
       ∧ buffer_in_use c' = buffer_in_use c
       ∧ samples_ts c' = timestamp <$> kept
       ∧ samples_values c' = value <$> kept
       ∧ buffer_ts c' !! 0%nat = Some (start_ts c')
       ∧ length (buffer_ts c') = Z.to_nat (size c / 16)
       ∧ length (buffer_values c') = Z.to_nat (size c / 16)
       ∧ drop (length kept) (buffer_ts c')
         = drop (length kept) (malloc (size c / 2) (g_ts g)))
  ∧ (size c < SAMPLE_SIZE →
     TurboGorilla_DelRange c startTs endTs g = Fault OutOfBounds).
Proof.
  intros ([Hn0 Hn1] & [Hs0 Hs1]) [Hat Hav] Hcap kept.
  unfold SAMPLE_SIZE in *.
  assert (Hn : num_samples c <= size c / 16)
    by (apply Z.div_le_lower_bound; lia).
  destruct (DelRange_loop (buffer_ts c) (buffer_values c)
              (malloc (size c / 2) (g_ts g)) (malloc (size c / 2) (g_values g))
              startTs endTs (num_samples c))
    as ([[nts nvs] k] & Hloop & Hk & Htk & Hvk & Hdr & Hlt & Hlv);
    try (rewrite ?length_malloc, ?slots_of_half by lia; lia).
  simpl in *. fold (samples_ts c) (samples_values c) (samples c) in *.
  fold kept in Hk, Htk, Hvk, Hdr.
  rewrite length_malloc, slots_of_half in Hlt, Hlv by lia.
  subst k.
  unfold TurboGorilla_DelRange. rewrite Hloop. simpl.
  split.
  - intros Hsz.
    assert (1 <= size c / 16) by (apply Z.div_le_lower_bound; lia).
    destruct (nts !! 0%nat) as [first|] eqn:Hf;
      [| apply lookup_ge_None_1 in Hf; lia].
    rewrite (load_lookup _ 0 first) by done. simpl.
    eexists. split; [reflexivity |]. simpl.
    unfold samples_ts, samples_values. simpl.
    rewrite Nat2Z.id, Htk, Hvk.
    repeat split; done.
  - intros Hsz.
    assert (size c / 16 = 0) by (apply Z.div_small; lia).
    rewrite load_None by lia. done.
Qed.

Lemma samples_of_columns (c : TurboGorilla_Chunk) (l : list Sample) :
  samples_ts c = timestamp <$> l → samples_values c = value <$> l →
  samples c = l.
Proof.
  intros Ht Hv. unfold samples. rewrite Ht, Hv. apply zip_samples_fmap.
Qed.

(** C2.  Range delete on a chunk whose header is well typed, whose blocks
    cover the capacity, which holds no more samples than its capacity and
    has room for at least one sample.  The call returns; the samples of the
    new chunk are the samples of the old one whose timestamp is outside
    [startTs, endTs], in their order; [num_samples] is their number;
    [start_ts] is slot 0 of the new timestamp buffer, which is the timestamp
    of the first survivor when there is one; the number returned is the
    count before minus the count after. *)
Theorem del_range (c : TurboGorilla_Chunk) (startTs endTs : Z) (g : garbage) :
  header_typed c → allocated c →
  num_samples c * SAMPLE_SIZE <= size c →
  SAMPLE_SIZE <= size c →
  ∃ c' deleted,
    TurboGorilla_DelRange c startTs endTs g = Ret (c', deleted)
    ∧ samples c'
      = filter (λ s, ¬ (startTs <= timestamp s ∧ timestamp s <= endTs))
               (samples c)
    ∧ num_samples c' = Z.of_nat (length (samples c'))
    ∧ buffer_ts c' !! 0%nat = Some (start_ts c')
    ∧ (∀ s, head (samples c') = Some s → start_ts c' = timestamp s)
    ∧ deleted = num_samples c - num_samples c'
    ∧ deleted = Z.of_nat (length (samples c)) - Z.of_nat (length (samples c')).
Proof.
  intros Hty Hal Hcap Hsz.
  destruct (proj1 (DelRange_spec c startTs endTs g Hty Hal Hcap) Hsz)
    as (c' & Hrun & Hn & _ & _ & Hts & Hvs & Hst & _).
  pose proof (samples_of_columns c' _ Hts Hvs) as Hs.
  exists c', (num_samples c - num_samples c').
  rewrite Hn at 1. split; [exact Hrun |].
  rewrite Hs. fold (survivors startTs endTs (samples c)).
  repeat split; try done.
  - intros s Hhead.
    assert (Hh : samples_ts c' !! 0%nat = Some (timestamp s)).
    { rewrite Hts, list_lookup_fmap, <- head_lookup, Hhead. done. }
    unfold samples_ts in Hh. apply lookup_take_Some in Hh as [Hh _].
    rewrite Hh in Hst. by injection Hst.
  - rewrite Hn. f_equal.
    destruct Hty as [[Hn0 _] _]. destruct Hal as [Hat Hav].
    unfold SAMPLE_SIZE in *.
    assert (num_samples c <= size c / 16) by (apply Z.div_le_lower_bound; lia).
    unfold samples, samples_ts, samples_values.
    rewrite length_zip_with, !length_take. lia.
Qed.

Lemma del_range_witness :
  ∃ c', TurboGorilla_DelRange four_samples 150 250 sample_garbage = Ret (c', 2)
    ∧ samples c' = [mkSample 100 1; mkSample 300 3]
    ∧ num_samples c' = 2
    ∧ buffer_ts c' !! 0%nat = Some (start_ts c').
Proof.
  destruct (del_range four_samples 150 250 sample_garbage
              ltac:(by vm_compute) ltac:(by vm_compute)
              ltac:(by vm_compute) ltac:(by vm_compute))
    as (c' & d & Hrun & Hs & Hn & Hst & _ & Hd & _).
  assert (Hs' : samples c' = [mkSample 100 1; mkSample 300 3])
    by (rewrite Hs; reflexivity).
  rewrite Hs' in Hn. simpl in Hn. rewrite Hn in Hd. simpl in Hd. subst d.
  exists c'. repeat split; assumption.
Defined.

(** When every stored timestamp lies in the interval, the chunk comes back
    empty and its [start_ts] is slot 0 of the fresh block. *)
Lemma DelRange_all_removed (c : TurboGorilla_Chunk) (startTs endTs : Z)
    (g : garbage) :
  chunk_inv c → SAMPLE_SIZE <= size c →
  (∀ t, t ∈ samples_ts c → startTs <= t <= endTs) →
  ∃ c', TurboGorilla_DelRange c startTs endTs g = Ret (c', num_samples c)
    ∧ num_samples c' = 0
    ∧ start_ts c' = wrap64 (g_ts g 0%nat).
Proof.
  intros Hc Hsz Hall.
  destruct (proj1 (DelRange_spec c startTs endTs g (inv_typed c Hc)
                     (inv_allocated c Hc) (inv_capacity c Hc)) Hsz)
    as (c' & Hrun & Hn & _ & _ & _ & _ & Hst & _ & _ & Hdrop).
  assert (Hnone : survivors startTs endTs (samples c) = []).
  { destruct (survivors startTs endTs (samples c)) as [|s l] eqn:Hs; [done |].
    assert (Hin : s ∈ survivors startTs endTs (samples c))
      by (rewrite Hs; left).
    apply list_elem_of_filter in Hin as [Hout Hin].
    apply elem_of_lookup_zip_with in Hin as (i & t & v & -> & Ht & _).
    exfalso. apply Hout. simpl.
    assert (startTs <= t <= endTs); [| lia].
    apply Hall. by eapply list_elem_of_lookup_2. }
  rewrite Hnone in *. simpl in *.
  exists c'. rewrite Z.sub_0_r in Hrun. split; [done |]. split; [done |].
  rewrite !drop_0 in Hdrop. rewrite Hdrop in Hst.
  destruct Hc as [[_ [Hs0 _]] _ _ _ _]. unfold SAMPLE_SIZE in *.
  assert (Hslot : (0 < slots_of (size c / 2))%nat).
  { rewrite slots_of_half by lia.
    assert (1 <= size c / 16) by (apply Z.div_le_lower_bound; lia). lia. }
  unfold malloc, fresh in Hst.
  destruct (slots_of (size c / 2)) as [|k]; [lia |].
  simpl in Hst. by injection Hst.
Qed.

(** C3.  The range delete evaluated where nothing survives.  The source
    reads slot 0 of the new timestamp buffer without looking at
    [new_count].  On a chunk of one sample and one slot, deleting that sample
    leaves [num_samples = 0] and stores in [start_ts] whatever the allocator
    left in the fresh block: the slot read lies past the zero surviving
    samples, and the value is neither the old [start_ts] nor a fixed
    sentinel.  On a chunk without capacity (the right half of a split of a
    one-sample chunk) the new block has no slot at all and the read is
    outside the allocation. *)
Theorem del_range_nothing_survives (g : garbage) (startTs endTs : Z) :
  TurboGorilla_DelRange one_sample 0 200 g
  = Ret (mkChunk (wrap64 (g_ts g 0%nat)) 0 16 true
                 [wrap64 (g_ts g 0%nat)] [wrap64 (g_values g 0%nat)],
         1)
  ∧ TurboGorilla_DelRange no_samples startTs endTs g = Fault OutOfBounds.
Proof. split; reflexivity. Qed.

(** ** Split *)

Lemma take_to_length {A} (l : list A) (n : nat) : length l = n → take n l = l.
Proof. intros <-. apply firstn_all. Qed.

Lemma SplitChunk_loop (c : TurboGorilla_Chunk) (keep newN : Z) (g : garbage) :
  0 <= keep → 0 <= newN → newN < UINT32_MOD →
  keep + newN <= Z.of_nat (length (buffer_ts c)) →
  keep + newN <= Z.of_nat (length (buffer_values c)) →
  ∃ nc, for_loop 0 newN (SplitChunk_step c keep)
          (TurboGorilla_NewChunk (newN * SAMPLE_SIZE) g) = Ret nc
    ∧ SplitChunk_inv c keep newN g (Z.to_nat newN) nc.
Proof.
  intros Hk Hn Hn32 Ht Hv.
  assert (Hslots : slots_of (newN * SAMPLE_SIZE / 2) = Z.to_nat newN).
  { unfold SAMPLE_SIZE. rewrite slots_of_half by lia.
    by rewrite Z.div_mul by lia. }
  apply for_loop_inv; [done | |].
  - unfold SplitChunk_inv, TurboGorilla_NewChunk. simpl.
    rewrite !length_malloc, Hslots. repeat split; try done. lia.
  - intros j nc Hj (Hnum & Hsz & Hu & Hlt & Hlv & Htk & Hvk & Hs0 & Hs1).
    destruct (buffer_ts c !! (Z.to_nat keep + j)%nat) as [t|] eqn:Htj;
      [| apply lookup_ge_None_1 in Htj; lia].
    destruct (buffer_values c !! (Z.to_nat keep + j)%nat) as [v|] eqn:Hvj;
      [| apply lookup_ge_None_1 in Hvj; lia].
    assert (Hidx : Z.to_nat (keep + Z.of_nat j) = (Z.to_nat keep + j)%nat)
      by lia.
    assert (Hlt' : load (buffer_ts c) (keep + Z.of_nat j) = Ret t).
    { apply load_lookup; [lia |]. by rewrite Hidx. }
    assert (Hlv' : load (buffer_values c) (keep + Z.of_nat j) = Ret v).
    { apply load_lookup; [lia |]. by rewrite Hidx. }
    unfold SplitChunk_step. rewrite Hlt'. simpl. rewrite Hlv'. simpl.
    assert (Hdiv : size nc / SAMPLE_SIZE = newN).
    { rewrite Hsz. unfold SAMPLE_SIZE. by rewrite Z.div_mul by lia. }
    rewrite AddSampleOptimized_room; cycle 1.
    { split; unfold in_u32, in_u64, UINT64_MOD, UINT32_MOD, SAMPLE_SIZE in *;
        rewrite ?Hnum, ?Hsz; lia. }
    { unfold allocated. rewrite Hdiv. lia. }
    { rewrite Hdiv. lia. }
    simpl. eexists. split; [reflexivity |].
    assert (Hw : wrap32 (num_samples nc + 1) = Z.of_nat (S j)).
    { rewrite wrap32_small; unfold in_u32; lia. }
    unfold SplitChunk_inv. simpl.
    rewrite Hw, Hnum, Nat2Z.id, !length_insert.
    rewrite !take_succ_insert by lia.
    rewrite Htk, Hvk.
    rewrite (take_S_r _ _ t) by (by rewrite lookup_drop).
    rewrite (take_S_r _ _ v) by (by rewrite lookup_drop).
    repeat split; try done; try lia.
    intros _. destruct j as [|j].
    + rewrite bool_decide_true by lia. by rewrite Nat.add_0_r in Htj.
    + rewrite bool_decide_false by lia. apply Hs1. lia.
Qed.

Lemma half_bounds (n : Z) : 0 <= n → 0 <= n / 2 ∧ n / 2 <= n ∧ 0 <= n - n / 2.
Proof.
  intros H. pose proof (Z.div_pos n 2 H ltac:(lia)).
  pose proof (Z.div_le_upper_bound n 2 n ltac:(lia) ltac:(lia)). lia.
Qed.

(** The two chunks a split produces. *)
Lemma SplitChunk_spec (c : TurboGorilla_Chunk) (g g' : garbage) :
  in_u32 (num_samples c) →
  num_samples c <= Z.of_nat (length (buffer_ts c)) →
  num_samples c <= Z.of_nat (length (buffer_values c)) →
  let newN := num_samples c / 2 in
  let keep := num_samples c - newN in
  ∃ right,
    TurboGorilla_SplitChunk c g g'
    = Ret (mkChunk (start_ts c) keep (keep * SAMPLE_SIZE) (buffer_in_use c)
                   (take (Z.to_nat keep) (buffer_ts c))
                   (take (Z.to_nat keep) (buffer_values c)),
           right)
    ∧ num_samples right = newN
    ∧ size right = newN * SAMPLE_SIZE
    ∧ buffer_in_use right = true
    ∧ buffer_ts right = take (Z.to_nat newN) (drop (Z.to_nat keep) (buffer_ts c))
    ∧ buffer_values right
      = take (Z.to_nat newN) (drop (Z.to_nat keep) (buffer_values c))
    ∧ (newN = 0 → start_ts right = wrap64 (g_word g))
    ∧ (0 < newN → buffer_ts c !! Z.to_nat keep = Some (start_ts right)).
Proof.
  intros [Hn0 Hn1] Ht Hv newN keep.
  destruct (half_bounds (num_samples c) Hn0) as (Hh0 & Hh1 & Hk0).
  fold newN in Hh0, Hh1. fold newN keep in Hk0.
  destruct (SplitChunk_loop c keep newN g)
    as (nc & Hloop & Hnum & Hsz & Hu & Hlt & Hlv & Htk & Hvk & Hs0 & Hs1);
    try (unfold keep; lia).
  unfold TurboGorilla_SplitChunk. fold newN keep. rewrite Hloop. simpl.
  exists nc. unfold sizeof_u64, sizeof_double.
  rewrite !realloc_shrink by (rewrite slots_of_mul by lia; lia).
  rewrite slots_of_mul by lia.
  split; [done |].
  rewrite take_to_length in Htk by done.
  rewrite take_to_length in Hvk by done.
  repeat split; try done; try lia.
  all: intros H0; first [apply Hs0 | apply Hs1]; lia.
Qed.

(** ** Forward iteration *)

Lemma samples_lookup (c : TurboGorilla_Chunk) (i : nat) (t v : Z) :
  (i < Z.to_nat (num_samples c))%nat →
  buffer_ts c !! i = Some t → buffer_values c !! i = Some v →
  samples c !! i = Some (mkSample t v).
Proof.
  intros Hi Ht Hv. unfold samples, samples_ts, samples_values.
  rewrite lookup_zip_with, !lookup_take_lt by lia. by rewrite Ht, Hv.
Qed.

Lemma length_samples (c : TurboGorilla_Chunk) :
  num_samples c <= Z.of_nat (length (buffer_ts c)) →
  num_samples c <= Z.of_nat (length (buffer_values c)) →
  length (samples c) = Z.to_nat (num_samples c).
Proof.
  intros Ht Hv. unfold samples, samples_ts, samples_values.
  rewrite length_zip_with, !length_take. lia.
Qed.

(** Draining a forward cursor that stands at [idx] yields the samples from
    [idx] on, provided the cut-off exceeds their number. *)
Lemma drain_next_spec (c : TurboGorilla_Chunk) (opts : Z) (fuel idx : nat) :
  num_samples c <= Z.of_nat (length (buffer_ts c)) →
  num_samples c <= Z.of_nat (length (buffer_values c)) →
  (Z.to_nat (num_samples c) - idx < fuel)%nat →
  drain_next fuel (mkIter c (Z.of_nat idx) opts)
  = Ret (Some (drop idx (samples c))).
Proof.
  intros Ht Hv. revert idx. induction fuel as [|fuel IH]; intros idx Hf; [lia |].
  simpl. unfold TurboGorilla_ChunkIteratorGetNext. simpl.
  case_bool_decide as Hlt.
  - destruct (buffer_ts c !! idx) as [t|] eqn:Htj;
      [| apply lookup_ge_None_1 in Htj; lia].
    destruct (buffer_values c !! idx) as [v|] eqn:Hvj;
      [| apply lookup_ge_None_1 in Hvj; lia].
    rewrite (load_Some _ _ _ Hvj). simpl.
    rewrite (load_Some _ _ _ Htj). simpl.
    unfold advance. simpl.
    replace (Z.of_nat idx + 1) with (Z.of_nat (S idx)) by lia.
    rewrite IH by lia. simpl.
    rewrite (drop_S _ (mkSample t v) idx); [done |].
    apply samples_lookup; [lia | done | done].
  - simpl. rewrite drop_ge; [done |].
    rewrite length_samples by done. lia.
Qed.

Lemma forward_iteration_spec (reverse_bit : Z) (c : TurboGorilla_Chunk)
    (fuel : nat) :
  num_samples c <= Z.of_nat (length (buffer_ts c)) →
  num_samples c <= Z.of_nat (length (buffer_values c)) →
  (Z.to_nat (num_samples c) < fuel)%nat →
  forward_iteration reverse_bit fuel c = Ret (Some (samples c)).
Proof.
  intros Ht Hv Hf. unfold forward_iteration, TurboGorilla_NewChunkIterator.
  rewrite Z.land_0_l, bool_decide_false by (intros H; by apply H).
  rewrite <- (drop_0 (samples c)).
  apply (drain_next_spec c 0 fuel 0); [done | done | lia].
Qed.

(** ** Split: the whole operation *)

(** C7.  Splitting a chunk of [n] samples that satisfies the data model.
    The call returns a left and a right chunk; left holds the first
    [n - n / 2] samples, right the last [n / 2], each in the old order; the
    two counts add up to [n]; every timestamp of left is at most every
    timestamp of right; and, for any cut-off above [n] and any value of the
    reverse option bit, forward iteration over left reaches [CR_END] after
    yielding exactly the first [n - n / 2] samples of the old chunk,
    forward iteration over right after yielding exactly its last [n / 2],
    and forward iteration over the old chunk after yielding exactly its
    samples, which is the first sequence followed by the second. *)
Theorem split_chunk (c : TurboGorilla_Chunk) (g g' : garbage) :
  chunk_inv c →
  let n := num_samples c in
  let keep := Z.to_nat (n - n / 2) in
  ∃ left right,
    TurboGorilla_SplitChunk c g g' = Ret (left, right)
    ∧ num_samples left = n - n / 2
    ∧ num_samples right = n / 2
    ∧ samples left = take keep (samples c)
    ∧ samples right = drop keep (samples c)
    ∧ num_samples left + num_samples right = n
    ∧ (∀ a b, a ∈ samples_ts left → b ∈ samples_ts right → a <= b)
    ∧ samples left ++ samples right = samples c
    ∧ ∀ reverse_bit fuel, (Z.to_nat n < fuel)%nat →
        forward_iteration reverse_bit fuel left
        = Ret (Some (take keep (samples c)))
        ∧ forward_iteration reverse_bit fuel right
          = Ret (Some (drop keep (samples c)))
        ∧ forward_iteration reverse_bit fuel c = Ret (Some (samples c))
        ∧ ∃ ls rs, forward_iteration reverse_bit fuel left = Ret (Some ls)
                 ∧ forward_iteration reverse_bit fuel right = Ret (Some rs)
                 ∧ ls = samples left ∧ rs = samples right
                 ∧ forward_iteration reverse_bit fuel c
                   = Ret (Some (ls ++ rs)).
Proof.
  intros Hc n keep.
  destruct (inv_fits c Hc) as (Hn0 & Hlt & Hlv).
  destruct (half_bounds n Hn0) as (Hh0 & Hh1 & Hk0).
  pose proof (proj1 (inv_typed c Hc)) as Hn32.
  destruct (SplitChunk_spec c g g' Hn32 Hlt Hlv)
    as (right & Hrun & Hrn & Hrs & Hru & Hrt & Hrv & _ & _).
  fold n in Hrun, Hrn, Hrs, Hrt, Hrv, Hlt, Hlv. fold keep in Hrun, Hrt, Hrv.
  set (left := mkChunk (start_ts c) (n - n / 2) ((n - n / 2) * SAMPLE_SIZE)
                 (buffer_in_use c) (take keep (buffer_ts c))
                 (take keep (buffer_values c))) in *.
  assert (Hlts : samples_ts left = take keep (samples_ts c)).
  { unfold samples_ts, left. simpl. fold n keep.
    rewrite !take_take. f_equal. lia. }
  assert (Hlvs : samples_values left = take keep (samples_values c)).
  { unfold samples_values, left. simpl. fold n keep.
    rewrite !take_take. f_equal. lia. }
  assert (Hrts : samples_ts right = drop keep (samples_ts c)).
  { unfold samples_ts. rewrite Hrn, Hrt. fold n.
    rewrite take_take, Nat.min_id, take_drop_commute. do 2 f_equal. lia. }
  assert (Hrvs : samples_values right = drop keep (samples_values c)).
  { unfold samples_values. rewrite Hrn, Hrv. fold n.
    rewrite take_take, Nat.min_id, take_drop_commute. do 2 f_equal. lia. }
  assert (Hls : samples left = take keep (samples c)).
  { unfold samples. by rewrite Hlts, Hlvs, zip_with_take. }
  assert (Hrsm : samples right = drop keep (samples c)).
  { unfold samples. by rewrite Hrts, Hrvs, zip_with_drop. }
  exists left, right. split; [exact Hrun |].
  split; [done |]. split; [done |]. split; [done |]. split; [done |].
  split; [simpl; lia |]. split; [| split].
  - intros a b Ha Hb. rewrite Hlts in Ha. rewrite Hrts in Hb.
    pose proof (inv_sorted c Hc) as Hs. unfold strictly_ascending in Hs.
    rewrite <- (take_drop keep (samples_ts c)) in Hs.
    pose proof (StronglySorted_app_1_elem_of _ _ _ a b Hs Ha Hb). lia.
  - rewrite Hls, Hrsm. apply take_drop.
  - intros reverse_bit fuel Hf.
    assert (Hil : forward_iteration reverse_bit fuel left
                  = Ret (Some (samples left))).
    { apply forward_iteration_spec; unfold left; simpl;
        rewrite ?length_take; lia. }
    assert (Hir : forward_iteration reverse_bit fuel right
                  = Ret (Some (samples right))).
    { apply forward_iteration_spec; rewrite ?Hrn, ?Hrt, ?Hrv;
        fold n; rewrite ?length_take, ?length_drop; lia. }
    assert (Hic : forward_iteration reverse_bit fuel c
                  = Ret (Some (samples c))).
    { apply forward_iteration_spec; fold n; lia. }
    split; [by rewrite Hil, Hls |]. split; [by rewrite Hir, Hrsm |].
    split; [exact Hic |].
    exists (samples left), (samples right).
    split; [exact Hil |]. split; [exact Hir |].
    split; [done |]. split; [done |].
    by rewrite Hic, Hls, Hrsm, take_drop.
Qed.

Lemma split_chunk_witness :
  ∃ left right,
    TurboGorilla_SplitChunk three_samples sample_garbage sample_garbage
    = Ret (left, right)
    ∧ samples left = [mkSample 100 1; mkSample 200 2]
    ∧ samples right = [mkSample 300 3]
    ∧ num_samples left + num_samples right = 3
    ∧ (∀ a b, a ∈ samples_ts left → b ∈ samples_ts right → a <= b)
    ∧ forward_iteration 1 4 left
      = Ret (Some [mkSample 100 1; mkSample 200 2])
    ∧ forward_iteration 1 4 right = Ret (Some [mkSample 300 3])
    ∧ forward_iteration 1 4 three_samples
      = Ret (Some [mkSample 100 1; mkSample 200 2; mkSample 300 3]).
Proof.
  destruct (split_chunk three_samples sample_garbage sample_garbage
              three_samples_inv)
    as (left & right & Hrun & _ & _ & Hl & Hr & Hsum & Hord & _ & Hiter).
  destruct (Hiter 1 4%nat ltac:(simpl; lia)) as (Hil & Hir & Hic & _).
  exists left, right. repeat split; assumption.
Defined.

(** ** Storage after split and range delete *)

(** A range delete does not shrink the storage to the logical size:
    deleting one of three samples from a chunk with room for four leaves
    [size] at 64 bytes for two samples. *)
Lemma del_range_exact_storage_counterexample :
  ¬ (∀ c startTs endTs g c' deleted,
       chunk_inv c →
       TurboGorilla_DelRange c startTs endTs g = Ret (c', deleted) →
       exact_storage c').
Proof.
  intros H.
  destruct (H three_samples 200 200 sample_garbage _ _ three_samples_inv eq_refl)
    as [Hsize _].
  vm_compute in Hsize. discriminate.
Qed.

(** C4, as amended.  After a split both chunks have storage of exactly
    their logical size: [size] is [num_samples * SAMPLE_SIZE] and each buffer
    has [num_samples] slots.  After a range delete [size] is what it was and
    both buffers are fresh blocks of [size / SAMPLE_SIZE] slots, whatever
    the number of survivors. *)
Theorem storage_after_split_and_delete (c : TurboGorilla_Chunk)
    (g g' : garbage) (startTs endTs : Z) :
  chunk_inv c →
  (∃ left right,
     TurboGorilla_SplitChunk c g g' = Ret (left, right)
     ∧ exact_storage left ∧ exact_storage right)
  ∧ (SAMPLE_SIZE <= size c →
     ∃ c' deleted,
       TurboGorilla_DelRange c startTs endTs g = Ret (c', deleted)
       ∧ size c' = size c
       ∧ length (buffer_ts c') = Z.to_nat (size c / SAMPLE_SIZE)
       ∧ length (buffer_values c') = Z.to_nat (size c / SAMPLE_SIZE)).
Proof.
  intros Hc.
  destruct (inv_fits c Hc) as (Hn0 & Hlt & Hlv).
  destruct (half_bounds (num_samples c) Hn0) as (Hh0 & Hh1 & Hk0).
  split.
  - pose proof (proj1 (inv_typed c Hc)) as Hn32.
    destruct (SplitChunk_spec c g g' Hn32 Hlt Hlv)
      as (right & Hrun & Hrn & Hrs & Hru & Hrt & Hrv & _ & _).
    eexists _, right. split; [exact Hrun |]. split.
    + unfold exact_storage. simpl. rewrite !length_take. lia.
    + unfold exact_storage. rewrite Hrn, Hrs, Hrt, Hrv.
      rewrite !length_take, !length_drop. lia.
  - intros Hsz.
    destruct (proj1 (DelRange_spec c startTs endTs g (inv_typed c Hc)
                       (inv_allocated c Hc) (inv_capacity c Hc)) Hsz)
      as (c' & Hrun & _ & Hs & _ & _ & _ & _ & Hl1 & Hl2 & _).
    eexists c', _. split; [exact Hrun |]. done.
Qed.

Lemma storage_after_split_and_delete_witness :
  (∃ left right,
     TurboGorilla_SplitChunk three_samples sample_garbage sample_garbage
     = Ret (left, right)
     ∧ exact_storage left ∧ exact_storage right)
  ∧ (∃ c' deleted,
       TurboGorilla_DelRange three_samples 200 200 sample_garbage
       = Ret (c', deleted)
       ∧ size c' = 64
       ∧ length (buffer_ts c') = 4%nat
       ∧ length (buffer_values c') = 4%nat).
Proof.
  destruct (storage_after_split_and_delete three_samples sample_garbage
              sample_garbage 200 200 three_samples_inv) as [Hsplit Hdel].
  split; [exact Hsplit |].
  apply Hdel. by vm_compute.
Defined.

(** ** Serialization *)

Lemma slot_bytes_round_trip (z : Z) :
  in_u64 z →
  slot_of_bytes (byte_at z 0) (byte_at z 1) (byte_at z 2) (byte_at z 3)
                (byte_at z 4) (byte_at z 5) (byte_at z 6) (byte_at z 7) = z.
Proof.
  unfold in_u64, UINT64_MOD, slot_of_bytes, byte_at. intros H.
  change (2 ^ (8 * 0)) with 1. change (2 ^ (8 * 1)) with 256.
  change (2 ^ (8 * 2)) with (256 * 256).
  change (2 ^ (8 * 3)) with (256 * 256 * 256).
  change (2 ^ (8 * 4)) with (256 * 256 * 256 * 256).
  change (2 ^ (8 * 5)) with (256 * 256 * 256 * 256 * 256).
  change (2 ^ (8 * 6)) with (256 * 256 * 256 * 256 * 256 * 256).
  change (2 ^ (8 * 7)) with (256 * 256 * 256 * 256 * 256 * 256 * 256).
  rewrite <- !Z.div_div by lia. rewrite Z.div_1_r.
  set (q1 := z / 256). set (q2 := q1 / 256). set (q3 := q2 / 256).
  set (q4 := q3 / 256). set (q5 := q4 / 256). set (q6 := q5 / 256).
  set (q7 := q6 / 256).
  pose proof (Z.div_mod z 256 ltac:(lia)).
  pose proof (Z.div_mod q1 256 ltac:(lia)).
  pose proof (Z.div_mod q2 256 ltac:(lia)).
  pose proof (Z.div_mod q3 256 ltac:(lia)).
  pose proof (Z.div_mod q4 256 ltac:(lia)).
  pose proof (Z.div_mod q5 256 ltac:(lia)).
  pose proof (Z.div_mod q6 256 ltac:(lia)).
  assert (q7 mod 256 = q7).
  { apply Z.mod_small. unfold q7, q6, q5, q4, q3, q2, q1.
    rewrite !Z.div_div by lia. split.
    - apply Z.div_pos; lia.
    - apply Z.div_lt_upper_bound; lia. }
  lia.
Qed.

Lemma bytes_of_slots_cons (z : Z) (l : list Z) :
  bytes_of_slots (z :: l) = bytes_of_slot z ++ bytes_of_slots l.
Proof. reflexivity. Qed.

Lemma slots_bytes_round_trip (l : list Z) :
  Forall in_u64 l → slots_of_bytes (bytes_of_slots l) = l.
Proof.
  induction 1 as [|z l Hz Hl IH]; [done |].
  rewrite bytes_of_slots_cons. unfold bytes_of_slot.
  cbn [app slots_of_bytes]. by rewrite slot_bytes_round_trip, IH.
Qed.

Lemma length_bytes_of_slots (l : list Z) :
  length (bytes_of_slots l) = (8 * length l)%nat.
Proof.
  induction l as [|z l IH]; [done |].
  rewrite bytes_of_slots_cons, length_app, IH. simpl. lia.
Qed.

Lemma take_bytes_of_slots (l : list Z) (n : nat) :
  take (8 * n) (bytes_of_slots l) = bytes_of_slots (take n l).
Proof.
  revert l. induction n as [|n IH]; intros l; [done |].
  destruct l as [|z l]; [done |].
  replace (8 * S n)%nat with (8 + 8 * n)%nat by lia.
  rewrite firstn_cons, !bytes_of_slots_cons.
  rewrite take_app_add' by done. by rewrite IH.
Qed.

Lemma read_bytes_samples (buf : list Z) (n : Z) :
  0 <= n <= Z.of_nat (length buf) →
  read_bytes buf (n * 8) = Ret (bytes_of_slots (take (Z.to_nat n) buf)).
Proof.
  intros H. unfold read_bytes. rewrite bool_decide_true by lia.
  replace (Z.to_nat (n * 8)) with (8 * Z.to_nat n)%nat by lia.
  by rewrite take_bytes_of_slots.
Qed.

Lemma length_slots_of_bytes_bounded (k : nat) (bs : list Z) :
  (length bs ≤ k)%nat → length (slots_of_bytes bs) = (length bs / 8)%nat.
Proof.
  revert bs. induction k as [|k IH]; intros bs Hk.
  - destruct bs; [done | simpl in Hk; lia].
  - destruct bs as [|b0 [|b1 [|b2 [|b3 [|b4 [|b5 [|b6 [|b7 rest]]]]]]]];
      try reflexivity.
    cbn [slots_of_bytes length] in *.
    rewrite IH by lia.
    replace (S (S (S (S (S (S (S (S (length rest)))))))))
      with (1 * 8 + length rest)%nat by lia.
    rewrite Nat.div_add_l by lia. lia.
Qed.

Lemma length_slots_of_bytes (bs : list Z) :
  length (slots_of_bytes bs) = (length bs / 8)%nat.
Proof. by apply (length_slots_of_bytes_bounded (length bs)). Qed.

(** C6.  Save followed by load, through the stream primitives, for every
    chunk whose header fields and stored words fit their C types and whose
    buffers hold at least [num_samples] slots.  The save appends six items
    in the order size, start_ts, num_samples, in_use flag, timestamp bytes,
    value bytes, each byte string being [num_samples * 8] bytes long; the
    load of these items returns a chunk with the same size, start_ts,
    num_samples and flag and the same timestamp and value sequences, and
    leaves the rest of the stream. *)
Theorem serialize_round_trip (c : TurboGorilla_Chunk) (g : garbage) :
  header_typed c → in_u64 (start_ts c) →
  num_samples c <= Z.of_nat (length (buffer_ts c)) →
  num_samples c <= Z.of_nat (length (buffer_values c)) →
  Forall in_u64 (samples_ts c) → Forall in_u64 (samples_values c) →
  ∃ ts_bytes v_bytes c',
    let items := [RdbUnsigned (size c); RdbUnsigned (start_ts c);
                  RdbUnsigned (num_samples c);
                  RdbUnsigned (if buffer_in_use c then 1 else 0);
                  RdbString ts_bytes; RdbString v_bytes] in
    (∀ io, TurboGorilla_SaveToRDB c io = Ret (io ++ items))
    ∧ Z.of_nat (length ts_bytes) = num_samples c * 8
    ∧ Z.of_nat (length v_bytes) = num_samples c * 8
    ∧ (∀ rest, TurboGorilla_LoadFromRDB (items ++ rest) g = (c', rest))
    ∧ size c' = size c
    ∧ start_ts c' = start_ts c
    ∧ num_samples c' = num_samples c
    ∧ buffer_in_use c' = buffer_in_use c
    ∧ samples_ts c' = samples_ts c
    ∧ samples_values c' = samples_values c
    ∧ samples c' = samples c.
Proof.
  intros ([Hn0 Hn1] & Hsz) Hst Hlt Hlv Hts Hvs.
  exists (bytes_of_slots (samples_ts c)), (bytes_of_slots (samples_values c)).
  eexists. cbn zeta. split; [| split; [| split; [| split]]].
  - intros io. unfold TurboGorilla_SaveToRDB, TurboGorilla_GenericSerialize.
    unfold sizeof_u64, sizeof_double.
    rewrite !read_bytes_samples by lia. simpl.
    unfold rdb_saveUnsigned, rdb_saveString.
    rewrite !wrap64_small; try done.
    + by rewrite <- !app_assoc.
    + destruct (buffer_in_use c); by vm_compute.
    + unfold in_u64, in_u32, UINT64_MOD, UINT32_MOD in *. lia.
  - rewrite length_bytes_of_slots. unfold samples_ts. rewrite length_take. lia.
  - rewrite length_bytes_of_slots. unfold samples_values.
    rewrite length_take. lia.
  - intros rest. unfold TurboGorilla_LoadFromRDB, TurboGorilla_Deserialize.
    simpl. reflexivity.
  - simpl.
    rewrite !slots_bytes_round_trip by done.
    rewrite wrap32_small by done. rewrite !wrap64_small by done.
    unfold samples, samples_ts, samples_values. simpl.
    rewrite !take_take, !Nat.min_id.
    repeat split; try done.
    destruct (buffer_in_use c); by vm_compute.
Qed.

Lemma serialize_round_trip_witness :
  ∃ c',
    TurboGorilla_SaveToRDB three_samples []
    = Ret [RdbUnsigned 64; RdbUnsigned 100; RdbUnsigned 3; RdbUnsigned 1;
           RdbString (bytes_of_slots [100; 200; 300]);
           RdbString (bytes_of_slots [1; 2; 3])]
    ∧ TurboGorilla_LoadFromRDB
        [RdbUnsigned 64; RdbUnsigned 100; RdbUnsigned 3; RdbUnsigned 1;
         RdbString (bytes_of_slots [100; 200; 300]);
         RdbString (bytes_of_slots [1; 2; 3])] sample_garbage
      = (c', [])
    ∧ size c' = 64 ∧ start_ts c' = 100 ∧ num_samples c' = 3
    ∧ samples c' = samples three_samples.
Proof.
  destruct (serialize_round_trip three_samples sample_garbage
              ltac:(by vm_compute) ltac:(by vm_compute)
              ltac:(by vm_compute) ltac:(by vm_compute))
    as (tb & vb & c' & Hsave & Hlt & Hlv & Hload & Hsz & Hst & Hn & _ & _ & _ & Hs).
  { simpl. repeat constructor; by vm_compute. }
  { simpl. repeat constructor; by vm_compute. }
  exists c'.
  pose proof (Hsave []) as Hs0. pose proof (Hload []) as Hl0.
  assert (Hrun : TurboGorilla_SaveToRDB three_samples []
                 = Ret [RdbUnsigned 64; RdbUnsigned 100; RdbUnsigned 3;
                        RdbUnsigned 1;
                        RdbString (bytes_of_slots [100; 200; 300]);
                        RdbString (bytes_of_slots [1; 2; 3])])
    by reflexivity.
  rewrite Hrun in Hs0. injection Hs0 as <- <-.
  rewrite app_nil_r in Hl0.
  repeat split; assumption.
Defined.

(** ** Loading without validation *)

(** A load does not validate what the header declares: a stream declaring
    five samples and carrying two empty buffers is loaded into a chunk of
    five samples over empty blocks; nothing is reported, and the next read
    of the last timestamp leaves the block. *)
Lemma deserialize_validates_counterexample :
  ∃ c, TurboGorilla_LoadFromRDB corrupt_stream sample_garbage = (c, [])
    ∧ num_samples c = 5
    ∧ size c = 16
    ∧ buffer_ts c = []
    ∧ buffer_values c = []
    ∧ ¬ load_consistent c
    ∧ TurboGorilla_GetLastTimestamp c = Fault OutOfBounds.
Proof.
  eexists. split; [reflexivity |]. repeat split.
  intros (H & _). vm_compute in H. by apply H.
Qed.

(** C5, as amended.  The load performs no validation and has no failure
    outcome.  On every stream that starts with four integers and two byte
    strings it returns a chunk whose size, start_ts, num_samples (reduced
    to 32 bits) and flag are the integers read, in this order, and whose
    buffers are the two byte strings cut into 8-byte slots, of whatever
    length they are. *)
Theorem deserialize_takes_stream_as_is (sz st n u : Z)
    (ts_bytes v_bytes : list Z) (rest : list rdb_item) (g : garbage) :
  ∃ c,
    TurboGorilla_LoadFromRDB
      (RdbUnsigned sz :: RdbUnsigned st :: RdbUnsigned n :: RdbUnsigned u
         :: RdbString ts_bytes :: RdbString v_bytes :: rest) g
    = (c, rest)
    ∧ size c = wrap64 sz
    ∧ start_ts c = wrap64 st
    ∧ num_samples c = wrap32 n
    ∧ buffer_in_use c = bool_decide (wrap64 u ≠ 0)
    ∧ buffer_ts c = slots_of_bytes ts_bytes
    ∧ buffer_values c = slots_of_bytes v_bytes
    ∧ length (buffer_ts c) = (length ts_bytes / 8)%nat
    ∧ length (buffer_values c) = (length v_bytes / 8)%nat.
Proof.
  eexists. split; [reflexivity |]. simpl.
  rewrite !length_slots_of_bytes. repeat split.
Qed.

(** The same absence of a check shows on an honest stream: the chunk loaded
    from the save of a chunk that was not full announces the old capacity
    over buffers that hold the samples only, and the next append writes
    outside the block. *)
Lemma append_after_load_leaves_block :
  ∃ io c,
    TurboGorilla_SaveToRDB three_samples [] = Ret io
    ∧ TurboGorilla_LoadFromRDB io sample_garbage = (c, [])
    ∧ size c = 64 ∧ num_samples c = 3 ∧ length (buffer_ts c) = 3%nat
    ∧ TurboGorilla_AddSampleOptimized c 400 4 = Fault OutOfBounds.
Proof.
  eexists _, _. split; [reflexivity |]. split; [reflexivity |].
  repeat split.
Qed.

(** ** The data-model invariants are preserved *)

Lemma inv_capacity_slots (c : TurboGorilla_Chunk) :
  chunk_inv c → num_samples c <= size c / SAMPLE_SIZE.
Proof.
  intros Hc. apply Z.div_le_lower_bound; [done |].
  pose proof (inv_capacity c Hc). lia.
Qed.

Lemma append_preserves_inv (c : TurboGorilla_Chunk) (ts : Z) (v : double) :
  chunk_inv c →
  (∀ t, t ∈ samples_ts c → t < ts) →
  ∃ r c', TurboGorilla_AddSampleOptimized c ts v = Ret (r, c') ∧ chunk_inv c'.
Proof.
  intros Hc Hmono.
  destruct (decide (num_samples c = size c / SAMPLE_SIZE)) as [Hfull | Hroom].
  - exists CR_END, c. split; [| done].
    unfold TurboGorilla_AddSampleOptimized, IsChunkFull.
    by rewrite bool_decide_true.
  - pose proof (inv_capacity_slots c Hc) as Hslots.
    destruct (inv_fits c Hc) as (Hn0 & Hlt & Hlv).
    destruct Hc as [Hty Hal Hsorted Hcap Hstart].
    rewrite AddSampleOptimized_room by (done || lia).
    eexists _, _. split; [reflexivity |].
    destruct Hty as [[_ Hn1] Hsz]. destruct Hal as [Hat Hav].
    pose proof Hsz as [Hs0 Hs1].
    assert (Hcases : (num_samples c + 1 < UINT32_MOD
                      ∧ wrap32 (num_samples c + 1) = num_samples c + 1)
                     ∨ wrap32 (num_samples c + 1) = 0).
    { destruct (decide (num_samples c + 1 < UINT32_MOD)) as [Hlt' | Hge].
      - left. split; [done |]. apply wrap32_small. unfold in_u32. lia.
      - right. replace (num_samples c + 1) with UINT32_MOD by lia. reflexivity. }
    split; simpl.
    + split; [apply wrap32_in | done].
    + unfold allocated. simpl. rewrite !length_insert. done.
    + unfold strictly_ascending, samples_ts. simpl.
      destruct Hcases as [[Hlt' ->] | ->]; [| constructor].
      replace (Z.to_nat (num_samples c + 1))
        with (S (Z.to_nat (num_samples c))) by lia.
      rewrite take_succ_insert by lia.
      apply StronglySorted_app_2; [| done | repeat constructor].
      intros x1 x2 H1 H2. apply list_elem_of_singleton in H2 as ->.
      by apply Hmono.
    + destruct Hcases as [[Hlt' ->] | ->]; [| lia].
      unfold SAMPLE_SIZE in *.
      pose proof (Z.mul_div_le (size c) 16 ltac:(lia)). lia.
    + intros Hpos. case_bool_decide as H0.
      * rewrite H0. simpl. apply list_lookup_insert_eq. lia.
      * rewrite list_lookup_insert_ne by lia. apply Hstart. lia.
Qed.

Section UpsertInv.
Context {DuplicatePolicy : Type}.
Variable handleDuplicateSample :
  DuplicatePolicy → double → double → ChunkResult * double.

Lemma upsert_preserves_inv (policy : DuplicatePolicy) (c : TurboGorilla_Chunk)
    (ts v : Z) (g : garbage) :
  chunk_inv c → num_samples c <= INT_MAX →
  ∃ r ctx added,
    TurboGorilla_UpsertSample handleDuplicateSample
      (mkUpsertCtx c (mkSample ts v)) policy g = Ret (r, ctx, added)
    ∧ chunk_inv (inChunk ctx).
Proof.
  intros Hc Hint.
  destruct (UpsertSample_cases handleDuplicateSample policy c ts v g Hc Hint)
    as [Hdup Hnew].
  destruct (decide (ts ∈ samples_ts c)) as [Hin | Hnin].
  - destruct (Hdup Hin) as (old & Hpos & Hold & Hres).
    destruct (handleDuplicateSample policy old v) as [cr v'] eqn:Hr.
    destruct (Hres cr v' eq_refl) as [Herr Hok].
    destruct (decide (cr = CR_OK)) as [-> | Hne].
    + eexists _, _, _. split; [by apply Hok |]. simpl.
      destruct Hc as [Hty Hal Hsorted Hcap Hstart].
      split; try done.
      unfold allocated in *. simpl. by rewrite length_insert.
    + eexists _, _, _. split; [by apply Herr |]. done.
  - destruct (Hnew Hnin)
      as (c' & Hrun & Hsz' & Hts' & Hvs' & Hn' & Hst' & Hu' & Hal').
    eexists _, _, _. split; [exact Hrun |]. simpl.
    pose proof (inv_capacity_slots c Hc) as Hslots.
    pose proof (length_samples_ts c Hc) as Hlen.
    pose proof (count_below_le ts (samples_ts c)) as Hple.
    destruct (inv_fits c Hc) as (Hn0 & Hlt & Hlv).
    destruct Hc as [[[_ Hn1] [Hs0 Hs1]] Hal Hsorted Hcap Hstart].
    clear Hdup Hnew Hrun.
    unfold SAMPLE_SIZE, INT_MAX, UINT32_MOD, UINT64_MOD, IsChunkFull in *.
    pose proof (Z.mul_div_le (size c) 16 ltac:(lia)) as Hmd.
    pose proof (Z.mul_succ_div_gt (size c) 16 ltac:(lia)) as Hms.
    assert (Hsize : (num_samples c = size c / 16 ∧ size c' = size c + 16)
                    ∨ (num_samples c < size c / 16 ∧ size c' = size c)).
    { rewrite Hsz'. case_bool_decide; [left | right];
        unfold SAMPLE_SIZE in *; lia. }
    clear Hsz'.
    split.
    + split; [unfold in_u32, UINT32_MOD; lia |].
      unfold in_u64, UINT64_MOD. lia.
    + done.
    + rewrite Hts'. by apply ascending_insert.
    + rewrite Hn'. unfold SAMPLE_SIZE. lia.
    + intros _.
      assert (Hhead : samples_ts c' !! 0%nat = Some (start_ts c')).
      { rewrite Hts', Hst'. case_decide as Hp0.
        - rewrite Hp0. done.
        - rewrite lookup_app_l by (rewrite length_take; lia).
          rewrite lookup_take_lt by lia.
          unfold samples_ts. rewrite lookup_take_lt by lia.
          apply Hstart. lia. }
      unfold samples_ts in Hhead. by apply lookup_take_Some in Hhead as [? _].
Qed.
End UpsertInv.

Lemma split_preserves_inv (c : TurboGorilla_Chunk) (g g' : garbage) :
  chunk_inv c →
  ∃ left right,
    TurboGorilla_SplitChunk c g g' = Ret (left, right)
    ∧ chunk_inv left ∧ chunk_inv right.
Proof.
  intros Hc.
  destruct (inv_fits c Hc) as (Hn0 & Hlt & Hlv).
  destruct (half_bounds (num_samples c) Hn0) as (Hh0 & Hh1 & Hk0).
  pose proof (proj1 (inv_typed c Hc)) as Hn32.
  destruct (SplitChunk_spec c g g' Hn32 Hlt Hlv)
    as (right & Hrun & Hrn & Hrs & Hru & Hrt & Hrv & _ & Hrstart).
  set (n := num_samples c) in *.
  set (keep := n - n / 2) in *.
  assert (Hkn : keep + n / 2 = n) by (unfold keep; lia).
  clearbody keep.
  eexists _, right. split; [exact Hrun |].
  pose proof (inv_sorted c Hc) as Hsorted. unfold strictly_ascending in Hsorted.
  destruct Hn32 as [_ Hn1].
  unfold SAMPLE_SIZE, UINT32_MOD in *.
  split.
  - split; simpl.
    + split; unfold in_u32, in_u64, UINT32_MOD, UINT64_MOD; simpl; lia.
    + unfold allocated, SAMPLE_SIZE. simpl.
      rewrite Z.div_mul, !length_take by lia. lia.
    + unfold strictly_ascending, samples_ts. simpl.
      rewrite take_take, Nat.min_id.
      replace (take (Z.to_nat keep) (buffer_ts c))
        with (take (Z.to_nat keep) (samples_ts c))
        by (unfold samples_ts; fold n; rewrite take_take; f_equal; lia).
      rewrite <- (take_drop (Z.to_nat keep) (samples_ts c)) in Hsorted.
      by apply StronglySorted_app_1_l in Hsorted.
    + unfold SAMPLE_SIZE. lia.
    + intros Hpos. rewrite lookup_take_lt by lia.
      apply (inv_start c Hc). fold n. lia.
  - split.
    + split; unfold in_u32, in_u64, UINT32_MOD, UINT64_MOD;
        rewrite ?Hrn, ?Hrs; unfold SAMPLE_SIZE; lia.
    + unfold allocated, SAMPLE_SIZE. rewrite Hrs, Hrt, Hrv. unfold SAMPLE_SIZE.
      rewrite Z.div_mul, !length_take, !length_drop by lia. lia.
    + unfold strictly_ascending, samples_ts. rewrite Hrn, Hrt.
      rewrite take_take, Nat.min_id, take_drop_commute.
      replace (Z.to_nat keep + Z.to_nat (n / 2))%nat with (Z.to_nat n) by lia.
      fold (samples_ts c).
      rewrite <- (take_drop (Z.to_nat keep) (samples_ts c)) in Hsorted.
      by apply StronglySorted_app_1_r in Hsorted.
    + rewrite Hrn, Hrs. unfold SAMPLE_SIZE. lia.
    + rewrite Hrn. intros Hpos. rewrite Hrt.
      rewrite lookup_take_lt by lia. rewrite lookup_drop, Nat.add_0_r.
      by apply Hrstart.
Qed.

Lemma ascending_filter_samples (P : Sample → Prop) `{∀ s, Decision (P s)}
    (l : list Sample) :
  strictly_ascending (timestamp <$> l) →
  strictly_ascending (timestamp <$> filter P l).
Proof.
  unfold strictly_ascending. induction l as [|s l IH]; [done |].
  rewrite fmap_cons. intros [Hall Hs]%StronglySorted_cons.
  rewrite filter_cons. case_decide; [| by apply IH].
  rewrite fmap_cons. apply StronglySorted_cons. split; [| by apply IH].
  rewrite Forall_forall in Hall |- *.
  intros t [s' [-> Hs']]%list_elem_of_fmap.
  apply list_elem_of_filter in Hs' as [_ Hs'].
  apply Hall. apply list_elem_of_fmap. eauto.
Qed.

Lemma del_range_preserves_inv (c : TurboGorilla_Chunk) (startTs endTs : Z)
    (g : garbage) :
  chunk_inv c → SAMPLE_SIZE <= size c →
  ∃ c' deleted,
    TurboGorilla_DelRange c startTs endTs g = Ret (c', deleted)
    ∧ chunk_inv c'.
Proof.
  intros Hc Hsz.
  destruct (proj1 (DelRange_spec c startTs endTs g (inv_typed c Hc)
                     (inv_allocated c Hc) (inv_capacity c Hc)) Hsz)
    as (c' & Hrun & Hn & Hs & _ & Hts & Hvs & Hst & Hl1 & Hl2 & _).
  eexists c', _. split; [exact Hrun |].
  destruct (inv_fits c Hc) as (Hn0 & Hlt & Hlv).
  pose proof (survivors_length_le startTs endTs (samples c)) as Hle.
  rewrite length_samples in Hle by done.
  destruct Hc as [[[_ Hn1] Hsz64] Hal Hsorted Hcap Hstart].
  split.
  - split; [unfold in_u32; lia | by rewrite Hs].
  - unfold allocated, SAMPLE_SIZE. rewrite Hs, Hl1, Hl2.
    pose proof (Z.div_pos (size c) 16 ltac:(unfold SAMPLE_SIZE in *; lia)
                  ltac:(lia)). lia.
  - rewrite Hts. apply ascending_filter_samples.
    unfold samples. rewrite fmap_zip_with_l; [done | done |].
    unfold samples_ts, samples_values. rewrite !length_take. lia.
  - rewrite Hn, Hs. unfold SAMPLE_SIZE in *. lia.
  - intros _. exact Hst.
Qed.

(** A new chunk satisfies the data model. *)
Lemma NewChunk_inv (sz : Z) (g : garbage) :
  in_u64 sz → chunk_inv (TurboGorilla_NewChunk sz g).
Proof.
  intros [Hs0 Hs1]. unfold TurboGorilla_NewChunk. split; simpl.
  - split; [by vm_compute | done].
  - unfold allocated, SAMPLE_SIZE. simpl.
    rewrite !length_malloc, slots_of_half by done.
    pose proof (Z.div_pos sz 16 Hs0 ltac:(lia)). lia.
  - constructor.
  - lia.
  - lia.
Qed.

(** C9.  Each mutating operation, called on a chunk that satisfies the
    data model ([chunk_inv]: header fields fit their types, the blocks cover
    the capacity, the stored timestamps are strictly ascending, [num_samples
    * SAMPLE_SIZE <= size], and [start_ts] is the first stored timestamp
    whenever there is one), returns, and every chunk it returns satisfies
    the data model again, whatever the result code: the append when the new
    timestamp is above all stored ones, the upsert when the count fits the
    [int] counter, the split for both halves, the range delete when the
    chunk has room for at least one sample. *)
Theorem invariants_preserved (c : TurboGorilla_Chunk) :
  chunk_inv c →
  (∀ ts v,
     (∀ t, t ∈ samples_ts c → t < ts) →
     ∃ r c', TurboGorilla_AddSampleOptimized c ts v = Ret (r, c')
       ∧ chunk_inv c')
  ∧ (∀ (DuplicatePolicy : Type)
       (handleDuplicateSample :
          DuplicatePolicy → double → double → ChunkResult * double)
       (policy : DuplicatePolicy) ts v g,
     num_samples c <= INT_MAX →
     ∃ r ctx added,
       TurboGorilla_UpsertSample handleDuplicateSample
         (mkUpsertCtx c (mkSample ts v)) policy g = Ret (r, ctx, added)
       ∧ chunk_inv (inChunk ctx))
  ∧ (∀ g g',
     ∃ left right,
       TurboGorilla_SplitChunk c g g' = Ret (left, right)
       ∧ chunk_inv left ∧ chunk_inv right)
  ∧ (∀ startTs endTs g,
     SAMPLE_SIZE <= size c →
     ∃ c' deleted,
       TurboGorilla_DelRange c startTs endTs g = Ret (c', deleted)
       ∧ chunk_inv c').
Proof.
  intros Hc. split; [| split; [| split]].
  - intros ts v Hmono. by apply append_preserves_inv.
  - intros DP resolver policy ts v g Hint. by apply upsert_preserves_inv.
  - intros g g'. by apply split_preserves_inv.
  - intros startTs endTs g Hsz. by apply del_range_preserves_inv.
Qed.

Lemma invariants_preserved_witness :
  (∃ r c', TurboGorilla_AddSampleOptimized three_samples 400 4 = Ret (r, c')
     ∧ chunk_inv c')
  ∧ (∃ r ctx added,
       TurboGorilla_UpsertSample sample_resolver
         (mkUpsertCtx three_samples (mkSample 150 9)) DP_LAST sample_garbage
       = Ret (r, ctx, added)
       ∧ chunk_inv (inChunk ctx))
  ∧ (∃ left right,
       TurboGorilla_SplitChunk three_samples sample_garbage sample_garbage
       = Ret (left, right)
       ∧ chunk_inv left ∧ chunk_inv right)
  ∧ (∃ c' deleted,
       TurboGorilla_DelRange three_samples 150 250 sample_garbage
       = Ret (c', deleted)
       ∧ chunk_inv c').
Proof.
  destruct (invariants_preserved three_samples three_samples_inv)
    as (Hadd & Hups & Hsplit & Hdel).
  split; [| split; [| split]].
  - apply Hadd. intros t Ht. apply list_elem_of_In in Ht. simpl in Ht. lia.
  - apply Hups. by vm_compute.
  - apply Hsplit.
  - apply Hdel. by vm_compute.
Defined.

(** * Further properties of the chunk *)

(** ** Reading *)

(** X1.  Positional reads.  At a position at or past [num_samples] both
    reads answer [CR_ERR] and deliver nothing, whatever the buffers are;
    at a position below [num_samples] (the buffers holding that many
    slots) they answer [CR_OK] with the timestamp and the value of the
    sample at that position. *)
Theorem positional_reads (c : TurboGorilla_Chunk) (pos : Z) :
  0 <= pos →
  (num_samples c <= pos →
     TurboGorilla_GetSampleTimestampAtPos c pos = Ret (CR_ERR, None)
     ∧ TurboGorilla_GetSampleValueAtPos c pos = Ret (CR_ERR, None))
  ∧ (pos < num_samples c →
     num_samples c <= Z.of_nat (length (buffer_ts c)) →
     num_samples c <= Z.of_nat (length (buffer_values c)) →
     ∃ t v, samples c !! Z.to_nat pos = Some (mkSample t v)
       ∧ TurboGorilla_GetSampleTimestampAtPos c pos = Ret (CR_OK, Some t)
       ∧ TurboGorilla_GetSampleValueAtPos c pos = Ret (CR_OK, Some v)).
Proof.
  intros Hpos.
  unfold TurboGorilla_GetSampleTimestampAtPos, TurboGorilla_GetSampleValueAtPos.
  split.
  - intros Hge. by rewrite !bool_decide_false by lia.
  - intros Hlt Ht Hv. rewrite !bool_decide_true by lia.
    destruct (buffer_ts c !! Z.to_nat pos) as [t|] eqn:Htj;
      [| apply lookup_ge_None_1 in Htj; lia].
    destruct (buffer_values c !! Z.to_nat pos) as [v|] eqn:Hvj;
      [| apply lookup_ge_None_1 in Hvj; lia].
    exists t, v. split; [apply samples_lookup; [lia | done | done] |].
    rewrite (load_lookup _ _ t), (load_lookup _ _ v) by done. done.
Qed.

Lemma positional_reads_witness :
  (TurboGorilla_GetSampleTimestampAtPos three_samples 3 = Ret (CR_ERR, None)
   ∧ TurboGorilla_GetSampleValueAtPos three_samples 3 = Ret (CR_ERR, None))
  ∧ (∃ t v, samples three_samples !! 1%nat = Some (mkSample t v)
       ∧ TurboGorilla_GetSampleTimestampAtPos three_samples 1
         = Ret (CR_OK, Some t)
       ∧ TurboGorilla_GetSampleValueAtPos three_samples 1
         = Ret (CR_OK, Some v)).
Proof.
  split.
  - apply (proj1 (positional_reads three_samples 3 ltac:(lia))). simpl. lia.
  - apply (proj2 (positional_reads three_samples 1 ltac:(lia)));
      simpl; lia.
Defined.

(** X2.  On a non-empty chunk that satisfies the data model the first
    timestamp returned is the cached [start_ts], and every stored timestamp
    lies between the first and the last timestamp returned. *)
Theorem timestamps_between_first_and_last (c : TurboGorilla_Chunk) :
  chunk_inv c → 0 < num_samples c →
  ∃ lst,
    TurboGorilla_GetFirstTimestamp c = Ret (start_ts c)
    ∧ TurboGorilla_GetLastTimestamp c = Ret lst
    ∧ ∀ t, t ∈ samples_ts c → start_ts c <= t <= lst.
Proof.
  intros Hc Hpos.
  destruct (inv_fits c Hc) as (Hn0 & Hlt & Hlv).
  pose proof (inv_start c Hc Hpos) as Hfirst.
  pose proof (inv_sorted c Hc) as Hs.
  set (n := Z.to_nat (num_samples c)).
  destruct (buffer_ts c !! (n - 1)%nat) as [lst|] eqn:Hl;
    [| apply lookup_ge_None_1 in Hl; lia].
  exists lst.
  unfold TurboGorilla_GetFirstTimestamp, TurboGorilla_GetLastTimestamp.
  rewrite !bool_decide_false by lia.
  split; [by apply load_lookup |]. split.
  { apply load_lookup; [lia |].
    by replace (Z.to_nat (num_samples c - 1)) with (n - 1)%nat by lia. }
  intros t Ht. apply list_elem_of_lookup_1 in Ht as [i Hi].
  pose proof (lookup_lt_Some _ _ _ Hi) as Hil.
  rewrite (length_samples_ts c Hc) in Hil. fold n in Hil.
  assert (H0 : samples_ts c !! 0%nat = Some (start_ts c)).
  { unfold samples_ts. rewrite lookup_take_lt by lia. done. }
  assert (Hn : samples_ts c !! (n - 1)%nat = Some lst).
  { unfold samples_ts. fold n. rewrite lookup_take_lt by lia. done. }
  split.
  - destruct (decide (i = 0%nat)) as [-> | Hne].
    + rewrite H0 in Hi. injection Hi as ->. lia.
    + pose proof (ascending_lookup_lt _ _ _ _ _ Hs H0 Hi ltac:(lia)). lia.
  - destruct (decide (i = (n - 1)%nat)) as [-> | Hne].
    + rewrite Hn in Hi. injection Hi as ->. lia.
    + pose proof (ascending_lookup_lt _ _ _ _ _ Hs Hi Hn ltac:(lia)). lia.
Qed.

Lemma timestamps_between_first_and_last_witness :
  ∃ lst,
    TurboGorilla_GetFirstTimestamp three_samples = Ret 100
    ∧ TurboGorilla_GetLastTimestamp three_samples = Ret lst
    ∧ ∀ t, t ∈ samples_ts three_samples → 100 <= t <= lst.
Proof.
  apply (timestamps_between_first_and_last three_samples three_samples_inv).
  simpl. lia.
Defined.

(** ** Iteration *)

Lemma GetNext_exhausted (c : TurboGorilla_Chunk) (idx opts : Z) :
  num_samples c <= idx →
  TurboGorilla_ChunkIteratorGetNext (mkIter c idx opts)
  = Ret (CR_END, mkIter c idx opts, None).
Proof.
  intros H. unfold TurboGorilla_ChunkIteratorGetNext. simpl.
  by rewrite bool_decide_false by lia.
Qed.

(** X3.  Forward iteration over a chunk whose buffers hold [num_samples]
    slots: for any cut-off above [num_samples] it yields exactly
    [num_samples] samples and then [CR_END]; the sample yielded at step [i]
    is the one the positional reads return at [i]; an exhausted iterator
    keeps answering [CR_END] and does not move. *)
Theorem forward_iteration_complete (reverse_bit : Z) (c : TurboGorilla_Chunk)
    (fuel : nat) :
  0 <= num_samples c →
  num_samples c <= Z.of_nat (length (buffer_ts c)) →
  num_samples c <= Z.of_nat (length (buffer_values c)) →
  (Z.to_nat (num_samples c) < fuel)%nat →
  forward_iteration reverse_bit fuel c = Ret (Some (samples c))
  ∧ Z.of_nat (length (samples c)) = num_samples c
  ∧ (∀ i s, samples c !! i = Some s →
       TurboGorilla_GetSampleTimestampAtPos c (Z.of_nat i)
       = Ret (CR_OK, Some (timestamp s))
       ∧ TurboGorilla_GetSampleValueAtPos c (Z.of_nat i)
         = Ret (CR_OK, Some (value s)))
  ∧ TurboGorilla_ChunkIteratorGetNext (mkIter c (num_samples c) 0)
    = Ret (CR_END, mkIter c (num_samples c) 0, None).
Proof.
  intros Hn0 Ht Hv Hf. split; [| split; [| split]].
  - unfold forward_iteration, TurboGorilla_NewChunkIterator.
    rewrite Z.land_0_l, bool_decide_false by (intros H; by apply H).
    rewrite <- (drop_0 (samples c)).
    apply (drain_next_spec c 0 fuel 0); [done | done | lia].
  - rewrite length_samples by done. lia.
  - intros i s Hi. pose proof (lookup_lt_Some _ _ _ Hi) as Hil.
    rewrite length_samples in Hil by done.
    unfold samples in Hi.
    apply lookup_zip_with_Some in Hi as (t' & v' & -> & Hti & Hvi).
    unfold samples_ts in Hti. unfold samples_values in Hvi.
    apply lookup_take_Some in Hti as [Hti _].
    apply lookup_take_Some in Hvi as [Hvi _].
    unfold TurboGorilla_GetSampleTimestampAtPos,
      TurboGorilla_GetSampleValueAtPos.
    rewrite !bool_decide_true by lia.
    by rewrite (load_Some _ _ _ Hti), (load_Some _ _ _ Hvi).
  - apply GetNext_exhausted. lia.
Qed.

Lemma forward_iteration_complete_witness :
  forward_iteration 1 4 three_samples = Ret (Some (samples three_samples))
  ∧ Z.of_nat (length (samples three_samples)) = 3
  ∧ (∀ i s, samples three_samples !! i = Some s →
       TurboGorilla_GetSampleTimestampAtPos three_samples (Z.of_nat i)
       = Ret (CR_OK, Some (timestamp s))
       ∧ TurboGorilla_GetSampleValueAtPos three_samples (Z.of_nat i)
         = Ret (CR_OK, Some (value s)))
  ∧ TurboGorilla_ChunkIteratorGetNext (mkIter three_samples 3 0)
    = Ret (CR_END, mkIter three_samples 3 0, None).
Proof.
  apply (forward_iteration_complete 1 three_samples 4); simpl; lia.
Defined.

(** Draining a reverse cursor that stands at [idx - 1] yields the first
    [idx] samples, last one first. *)
Lemma drain_prev_spec (c : TurboGorilla_Chunk) (opts : Z) (fuel idx : nat) :
  num_samples c <= Z.of_nat (length (buffer_ts c)) →
  num_samples c <= Z.of_nat (length (buffer_values c)) →
  (idx ≤ Z.to_nat (num_samples c))%nat →
  (idx < fuel)%nat →
  drain_prev fuel (mkIter c (Z.of_nat idx - 1) opts)
  = Ret (Some (reverse (take idx (samples c)))).
Proof.
  intros Ht Hv. revert idx. induction fuel as [|fuel IH]; intros idx Hi Hf;
    [lia |].
  simpl. unfold TurboGorilla_ChunkIteratorGetPrev. simpl.
  destruct idx as [|idx].
  - rewrite bool_decide_false by lia. done.
  - rewrite bool_decide_true by lia.
    replace (Z.of_nat (S idx) - 1) with (Z.of_nat idx) by lia.
    destruct (buffer_ts c !! idx) as [t|] eqn:Htj;
      [| apply lookup_ge_None_1 in Htj; lia].
    destruct (buffer_values c !! idx) as [v|] eqn:Hvj;
      [| apply lookup_ge_None_1 in Hvj; lia].
    rewrite (load_Some _ _ _ Hvj). simpl.
    rewrite (load_Some _ _ _ Htj). simpl.
    unfold advance. simpl.
    replace (Z.of_nat idx + -1) with (Z.of_nat idx - 1) by lia.
    rewrite IH by lia. simpl.
    rewrite (take_S_r _ _ (mkSample t v))
      by (apply samples_lookup; [lia | done | done]).
    by rewrite reverse_snoc.
Qed.

(** X4.  Reverse iteration over a non-empty chunk of at most [INT_MAX]
    samples, made with a non-zero reverse bit: it yields the samples from
    the last to the first and then [CR_END], the forward sequence
    reversed. *)
Theorem reverse_iteration_complete (reverse_bit : Z) (c : TurboGorilla_Chunk)
    (fuel : nat) :
  reverse_bit ≠ 0 →
  0 < num_samples c <= INT_MAX →
  num_samples c <= Z.of_nat (length (buffer_ts c)) →
  num_samples c <= Z.of_nat (length (buffer_values c)) →
  (Z.to_nat (num_samples c) < fuel)%nat →
  reverse_iteration reverse_bit fuel c = Ret (Some (reverse (samples c)))
  ∧ ∃ fwd, forward_iteration reverse_bit fuel c = Ret (Some fwd)
         ∧ reverse_iteration reverse_bit fuel c = Ret (Some (reverse fwd)).
Proof.
  intros Hbit [Hn0 _] Ht Hv Hf.
  assert (Hrev : reverse_iteration reverse_bit fuel c
                 = Ret (Some (reverse (samples c)))).
  { unfold reverse_iteration, TurboGorilla_NewChunkIterator.
    rewrite Z.land_diag, bool_decide_true by done.
    replace (num_samples c - 1)
      with (Z.of_nat (Z.to_nat (num_samples c)) - 1) by lia.
    rewrite drain_prev_spec by (done || lia).
    rewrite take_ge; [done |]. rewrite length_samples by done. lia. }
  split; [exact Hrev |].
  exists (samples c). split; [| exact Hrev].
  unfold forward_iteration, TurboGorilla_NewChunkIterator.
  rewrite Z.land_0_l, bool_decide_false by (intros H; by apply H).
  rewrite <- (drop_0 (samples c)).
  apply (drain_next_spec c 0 fuel 0); [done | done | lia].
Qed.

Lemma reverse_iteration_complete_witness :
  reverse_iteration 1 4 three_samples
  = Ret (Some [mkSample 300 3; mkSample 200 2; mkSample 100 1])
  ∧ ∃ fwd, forward_iteration 1 4 three_samples = Ret (Some fwd)
         ∧ reverse_iteration 1 4 three_samples = Ret (Some (reverse fwd)).
Proof.
  apply (reverse_iteration_complete 1 three_samples 4);
    try (simpl; lia); by vm_compute.
Defined.

(** ** Sequences of appends *)

Lemma samples_snoc (c c' : TurboGorilla_Chunk) (t v : Z) :
  length (samples_ts c) = length (samples_values c) →
  samples_ts c' = samples_ts c ++ [t] →
  samples_values c' = samples_values c ++ [v] →
  samples c' = samples c ++ [mkSample t v].
Proof.
  intros Hl Ht Hv. unfold samples. rewrite Ht, Hv.
  by rewrite zip_with_app.
Qed.

(** One append that finds room, with what the next append needs. *)
Lemma AddSample_room (c : TurboGorilla_Chunk) (s : Sample) :
  header_typed c → allocated c →
  0 <= num_samples c < size c / SAMPLE_SIZE →
  size c / SAMPLE_SIZE < UINT32_MOD →
  ∃ c', TurboGorilla_AddSample c s = Ret (CR_OK, c')
    ∧ header_typed c' ∧ allocated c'
    ∧ num_samples c' = num_samples c + 1
    ∧ size c' = size c
    ∧ start_ts c' = (if bool_decide (num_samples c = 0)
                     then timestamp s else start_ts c)
    ∧ samples_ts c' = samples_ts c ++ [timestamp s]
    ∧ samples c' = samples c ++ [s].
Proof.
  intros Hty Hal [Hn0 Hroom] Hcap32.
  unfold TurboGorilla_AddSample.
  rewrite AddSampleOptimized_room by done.
  eexists. split; [reflexivity |].
  destruct Hty as [[_ Hn1] Hsz]. destruct Hal as [Hat Hav].
  assert (Hw : wrap32 (num_samples c + 1) = num_samples c + 1).
  { apply wrap32_small. unfold in_u32. lia. }
  assert (Hts : take (Z.to_nat (num_samples c + 1))
                  (<[Z.to_nat (num_samples c) := timestamp s]> (buffer_ts c))
                = samples_ts c ++ [timestamp s]).
  { replace (Z.to_nat (num_samples c + 1))
      with (S (Z.to_nat (num_samples c))) by lia.
    apply take_succ_insert. lia. }
  assert (Hvs : take (Z.to_nat (num_samples c + 1))
                  (<[Z.to_nat (num_samples c) := value s]> (buffer_values c))
                = samples_values c ++ [value s]).
  { replace (Z.to_nat (num_samples c + 1))
      with (S (Z.to_nat (num_samples c))) by lia.
    apply take_succ_insert. lia. }
  simpl. rewrite Hw.
  split; [split; [unfold in_u32, UINT32_MOD in *; simpl; lia | done] |].
  split; [split; simpl; by rewrite length_insert |].
  split; [done |]. split; [done |]. split; [done |].
  split; [exact Hts |].
  destruct s as [t v]. apply samples_snoc.
  - unfold samples_ts, samples_values. rewrite !length_take. lia.
  - exact Hts.
  - exact Hvs.
Qed.

Lemma append_samples_full (c : TurboGorilla_Chunk) (l : list Sample) :
  num_samples c = size c / SAMPLE_SIZE →
  append_samples c l = Ret (replicate (length l) CR_END, c).
Proof.
  intros Hfull. induction l as [|s l IH]; [done |].
  simpl. unfold TurboGorilla_AddSample, TurboGorilla_AddSampleOptimized,
    IsChunkFull.
  rewrite bool_decide_true by done. simpl. by rewrite IH.
Qed.

(** A run of appends: the first [free] succeed, the others are refused. *)
Lemma append_samples_spec (l : list Sample) : ∀ (c : TurboGorilla_Chunk),
  header_typed c → allocated c →
  0 <= num_samples c <= size c / SAMPLE_SIZE →
  size c / SAMPLE_SIZE < UINT32_MOD →
  let free := Z.to_nat (size c / SAMPLE_SIZE - num_samples c) in
  ∃ c', append_samples c l
        = Ret (replicate (free `min` length l) CR_OK
                 ++ replicate (length l - free) CR_END, c')
    ∧ samples c' = samples c ++ take free l
    ∧ samples_ts c' = samples_ts c ++ (timestamp <$> take free l)
    ∧ num_samples c' = num_samples c + Z.of_nat (free `min` length l)
    ∧ size c' = size c
    ∧ header_typed c' ∧ allocated c'
    ∧ start_ts c' = (if bool_decide (num_samples c = 0)
                     then default (start_ts c) (timestamp <$> head (take free l))
                     else start_ts c).
Proof.
  induction l as [|s l IH]; intros c Hty Hal [Hn0 Hle] Hcap32 free;
    pose proof Hty as [[? ?] [? ?]]; pose proof Hal as [? ?].
  - exists c. simpl. rewrite Nat.min_0_r, take_nil, !app_nil_r. simpl.
    repeat split; try done; try lia; try (by case_bool_decide).
  - destruct (decide (num_samples c = size c / SAMPLE_SIZE)) as [Hfull | Hne].
    + exists c. rewrite append_samples_full by done.
      assert (free = 0%nat) as -> by (unfold free; lia).
      simpl. rewrite !app_nil_r.
      repeat split; try done; try lia; try (by case_bool_decide).
    + destruct (AddSample_room c s Hty Hal ltac:(lia) Hcap32)
        as (c1 & Hrun & Hty1 & Hal1 & Hn1 & Hs1 & Hst1 & Hts1 & Hsm1).
      destruct (IH c1 Hty1 Hal1 ltac:(rewrite Hn1, Hs1; lia)
                  ltac:(by rewrite Hs1))
        as (c' & Hrest & Hsm & Hts & Hn & Hs & Hty' & Hal' & Hst').
      exists c'. cbn [append_samples]. rewrite Hrun. simpl.
      rewrite Hrest. simpl.
      rewrite Hs1, Hn1 in *.
      set (free1 := Z.to_nat (size c / SAMPLE_SIZE - (num_samples c + 1))) in *.
      assert (Hfree : free = S free1) by (unfold free, free1; lia).
      rewrite Hfree. simpl.
      rewrite Hsm, Hsm1, Hts, Hts1, Hn, Hs, Hst', Hst1, <- !app_assoc. simpl.
      rewrite (bool_decide_false (num_samples c + 1 = 0)) by lia.
      split; [done |]. split; [done |]. split; [done |]. split; [lia |]. done.
Qed.

(** X5.  A run of appends into a chunk whose capacity fits an [unsigned
    int]: the first [free] calls answer [CR_OK], where [free] is the
    capacity minus [num_samples], all later ones answer [CR_END]; the
    chunk at the end holds the old samples followed by the accepted ones;
    [size] never changes. *)
Theorem append_run (c : TurboGorilla_Chunk) (l : list Sample) :
  header_typed c → allocated c →
  0 <= num_samples c <= size c / SAMPLE_SIZE →
  size c / SAMPLE_SIZE < UINT32_MOD →
  let free := Z.to_nat (size c / SAMPLE_SIZE - num_samples c) in
  ∃ c', append_samples c l
        = Ret (replicate (free `min` length l) CR_OK
                 ++ replicate (length l - free) CR_END, c')
    ∧ samples c' = samples c ++ take free l
    ∧ num_samples c' = num_samples c + Z.of_nat (free `min` length l)
    ∧ size c' = size c.
Proof.
  intros Hty Hal Hn Hcap free.
  destruct (append_samples_spec l c Hty Hal Hn Hcap)
    as (c' & Hrun & Hsm & _ & Hn' & Hs & _).
  exists c'. done.
Qed.

Lemma append_run_witness :
  ∃ c', append_samples three_samples [mkSample 400 4; mkSample 500 5]
        = Ret ([CR_OK; CR_END], c')
    ∧ samples c' = samples three_samples ++ [mkSample 400 4]
    ∧ num_samples c' = 4
    ∧ size c' = 64.
Proof.
  apply (append_run three_samples [mkSample 400 4; mkSample 500 5]);
    by vm_compute.
Defined.

(** X6.  A new chunk fed with strictly ascending samples, no more than its
    capacity: every append answers [CR_OK], the chunk holds exactly these
    samples, satisfies the data model, and the two getters return the first
    and the last timestamp appended (the sentinel when nothing was
    appended). *)
Theorem ascending_appends_into_new_chunk (sz : Z) (g : garbage)
    (l : list Sample) :
  in_u64 sz → sz / SAMPLE_SIZE < UINT32_MOD →
  Z.of_nat (length l) <= sz / SAMPLE_SIZE →
  strictly_ascending (timestamp <$> l) →
  ∃ c', append_samples (TurboGorilla_NewChunk sz g) l
        = Ret (replicate (length l) CR_OK, c')
    ∧ samples c' = l
    ∧ TurboGorilla_NumOfSample c' = Z.of_nat (length l)
    ∧ chunk_inv c'
    ∧ TurboGorilla_GetFirstTimestamp c'
      = Ret (default (wrap64 (-1)) (timestamp <$> head l))
    ∧ TurboGorilla_GetLastTimestamp c'
      = Ret (default (wrap64 (-1)) (timestamp <$> last l)).
Proof.
  intros Hsz Hcap Hlen Hasc.
  pose proof (NewChunk_inv sz g Hsz) as Hnew.
  set (c0 := TurboGorilla_NewChunk sz g) in *.
  assert (Hpos : 0 <= sz / SAMPLE_SIZE).
  { apply Z.div_pos; [apply Hsz | done]. }
  assert (Hc0 : num_samples c0 = 0 ∧ size c0 = sz ∧ samples c0 = []
                ∧ samples_ts c0 = [] ∧ start_ts c0 = wrap64 (g_word g))
    by done.
  destruct Hc0 as (Hn0 & Hs0 & Hsm0 & Hts0 & Hst0).
  destruct (append_samples_spec l c0 (inv_typed _ Hnew) (inv_allocated _ Hnew)
              ltac:(rewrite Hn0, Hs0; lia) ltac:(by rewrite Hs0))
    as (c' & Hrun & Hsm & Hts & Hn & Hs & Hty' & Hal' & Hst').
  clearbody c0.
  rewrite Hn0, Hs0, Hsm0, Hts0, Hst0, ?Z.sub_0_r in *.
  rewrite take_ge in * by lia.
  rewrite Nat.min_r in * by lia.
  replace (length l - Z.to_nat (sz / SAMPLE_SIZE))%nat with 0%nat in Hrun by lia.
  simpl in Hrun, Hsm, Hts, Hn. rewrite app_nil_r in Hrun.
  assert (Hfirst : 0 < num_samples c' →
                   buffer_ts c' !! 0%nat = Some (start_ts c')).
  { intros Hp. rewrite Hst'. rewrite bool_decide_true by done.
    assert (H0 : samples_ts c' !! 0%nat
                 = Some (default (wrap64 (g_word g)) (timestamp <$> head l))).
    { rewrite Hts. destruct l; [simpl in *; lia | done]. }
    unfold samples_ts in H0. by apply lookup_take_Some in H0 as [? _]. }
  assert (Hinv : chunk_inv c').
  { split; try done.
    - by rewrite Hts.
    - rewrite Hn, Hs. unfold SAMPLE_SIZE in *.
      pose proof (Z.mul_div_le sz 16 ltac:(lia)). lia. }
  exists c'. split; [done |]. split; [done |].
  split; [unfold TurboGorilla_NumOfSample; lia |].
  split; [done |].
  unfold TurboGorilla_GetFirstTimestamp, TurboGorilla_GetLastTimestamp.
  destruct (decide (l = [])) as [-> | Hne].
  - simpl in Hn. rewrite !bool_decide_true by lia. done.
  - assert (0 < length l)%nat by (destruct l; [done | simpl; lia]).
    rewrite !bool_decide_false by lia.
    destruct (inv_fits c' Hinv) as (_ & Hlt & _).
    split.
    + apply load_lookup; [lia |]. change (Z.to_nat 0) with 0%nat.
      assert (H0 : samples_ts c' !! 0%nat = timestamp <$> head l).
      { rewrite Hts, head_lookup, list_lookup_fmap. done. }
      unfold samples_ts in H0. rewrite lookup_take_lt in H0 by lia.
      rewrite H0. destruct l; done.
    + assert (Hl : samples_ts c' !! (length l - 1)%nat = timestamp <$> last l).
      { rewrite Hts, last_lookup, list_lookup_fmap.
        by replace (Init.Nat.pred (length l)) with (length l - 1)%nat by lia. }
      unfold samples_ts in Hl. rewrite lookup_take_lt in Hl by lia.
      apply load_lookup; [lia |].
      replace (Z.to_nat (num_samples c' - 1)) with (length l - 1)%nat by lia.
      rewrite Hl. destruct (last l) eqn:E; [done |].
      apply last_None in E. done.
Qed.

Lemma ascending_appends_into_new_chunk_witness :
  ∃ c', append_samples (TurboGorilla_NewChunk 64 sample_garbage)
          [mkSample 100 1; mkSample 200 2; mkSample 300 3]
        = Ret ([CR_OK; CR_OK; CR_OK], c')
    ∧ samples c' = [mkSample 100 1; mkSample 200 2; mkSample 300 3]
    ∧ TurboGorilla_NumOfSample c' = 3
    ∧ chunk_inv c'
    ∧ TurboGorilla_GetFirstTimestamp c' = Ret 100
    ∧ TurboGorilla_GetLastTimestamp c' = Ret 300.
Proof.
  apply (ascending_appends_into_new_chunk 64 sample_garbage
           [mkSample 100 1; mkSample 200 2; mkSample 300 3]);
    try (by vm_compute).
  unfold strictly_ascending. simpl. repeat constructor; lia.
Defined.

(** ** Upsert, composed with reads, deletes and itself *)

Lemma samples_inserted (c c' : TurboGorilla_Chunk) (p : nat) (t v : Z) :
  length (samples_ts c) = length (samples_values c) →
  samples_ts c' = take p (samples_ts c) ++ t :: drop p (samples_ts c) →
  samples_values c'
  = take p (samples_values c) ++ v :: drop p (samples_values c) →
  samples c' = take p (samples c) ++ mkSample t v :: drop p (samples c).
Proof.
  intros Hl Ht Hv. unfold samples. rewrite Ht, Hv.
  rewrite zip_with_app by (rewrite !length_take; lia).
  by rewrite zip_with_take, zip_with_drop.
Qed.

Lemma survivors_all_outside (startTs endTs : Z) (l : list Sample) :
  Forall (λ s, ¬ (startTs <= timestamp s ∧ timestamp s <= endTs)) l →
  survivors startTs endTs l = l.
Proof.
  unfold survivors. induction 1 as [|s l Hs Hl IH]; [done |].
  rewrite filter_cons. case_decide; [by rewrite IH | done].
Qed.

Lemma timestamp_of_sample (c : TurboGorilla_Chunk) (s : Sample) :
  s ∈ samples c → timestamp s ∈ samples_ts c.
Proof.
  unfold samples. intros Hin.
  apply elem_of_lookup_zip_with in Hin as (i & t & v & -> & Ht & _).
  simpl. by eapply list_elem_of_lookup_2.
Qed.

Section UpsertComposed.
Context {DuplicatePolicy : Type}.
Variable handleDuplicateSample :
  DuplicatePolicy → double → double → ChunkResult * double.

(** The insert of an absent timestamp, at the level of samples, with the
    invariant of the result. *)
Lemma upsert_absent (policy : DuplicatePolicy) (c : TurboGorilla_Chunk)
    (ts v : Z) (g : garbage) :
  chunk_inv c → num_samples c <= INT_MAX → ts ∉ samples_ts c →
  let pos := count_below ts (samples_ts c) in
  ∃ c', TurboGorilla_UpsertSample handleDuplicateSample
          (mkUpsertCtx c (mkSample ts v)) policy g
        = Ret (CR_OK, mkUpsertCtx c' (mkSample ts v), 1)
    ∧ chunk_inv c'
    ∧ num_samples c' = num_samples c + 1
    ∧ size c' = (if IsChunkFull c then size c + SAMPLE_SIZE else size c)
    ∧ samples_ts c' = take pos (samples_ts c) ++ ts :: drop pos (samples_ts c)
    ∧ samples c' = take pos (samples c) ++ mkSample ts v :: drop pos (samples c)
    ∧ (pos ≤ length (samples c))%nat.
Proof.
  intros Hc Hint Hnin pos.
  destruct (proj2 (UpsertSample_cases handleDuplicateSample policy c ts v g
                     Hc Hint) Hnin)
    as (c' & Hrun & Hsz & Hts & Hvs & Hn & Hst & Hu & Hal).
  destruct (upsert_preserves_inv handleDuplicateSample policy c ts v g Hc Hint)
    as (r & ctx & added & Hrun' & Hinv).
  rewrite Hrun in Hrun'. injection Hrun' as <- <- <-. simpl in Hinv.
  exists c'. split; [done |]. split; [done |]. split; [done |].
  split; [done |]. split; [done |].
  destruct (inv_fits c Hc) as (Hn0 & Hlt & Hlv).
  split.
  - apply samples_inserted; [| done | done].
    by rewrite length_samples_ts, length_samples_values.
  - pose proof (count_below_le ts (samples_ts c)) as Hp. fold pos in Hp.
    rewrite length_samples_ts in Hp by done.
    rewrite length_samples by done. lia.
Qed.

(** X7.  Upsert of an absent timestamp, then read: the new chunk holds the
    old samples with the new one at the insertion position, the positional
    reads at that position return the timestamp and the value just written,
    and no other sample appeared or disappeared. *)
Theorem upsert_then_read (policy : DuplicatePolicy) (c : TurboGorilla_Chunk)
    (ts v : Z) (g : garbage) :
  chunk_inv c → num_samples c <= INT_MAX → ts ∉ samples_ts c →
  let pos := count_below ts (samples_ts c) in
  ∃ c', TurboGorilla_UpsertSample handleDuplicateSample
          (mkUpsertCtx c (mkSample ts v)) policy g
        = Ret (CR_OK, mkUpsertCtx c' (mkSample ts v), 1)
    ∧ samples c' = take pos (samples c) ++ mkSample ts v :: drop pos (samples c)
    ∧ TurboGorilla_GetSampleTimestampAtPos c' (Z.of_nat pos)
      = Ret (CR_OK, Some ts)
    ∧ TurboGorilla_GetSampleValueAtPos c' (Z.of_nat pos) = Ret (CR_OK, Some v)
    ∧ (∀ s, s ∈ samples c' ↔ s = mkSample ts v ∨ s ∈ samples c).
Proof.
  intros Hc Hint Hnin pos.
  destruct (upsert_absent policy c ts v g Hc Hint Hnin)
    as (c' & Hrun & Hinv & Hn & _ & _ & Hsm & Hpos).
  fold pos in Hsm, Hpos.
  exists c'. split; [done |]. split; [done |].
  destruct (inv_fits c' Hinv) as (Hn0 & Hlt & Hlv).
  pose proof (length_samples c' Hlt Hlv) as Hlen.
  assert (Hat : samples c' !! pos = Some (mkSample ts v)).
  { rewrite Hsm, lookup_app_r by (rewrite length_take; lia).
    rewrite length_take, Nat.min_l by lia. by rewrite Nat.sub_diag. }
  pose proof (lookup_lt_Some _ _ _ Hat) as Hlt'.
  unfold samples in Hat.
  apply lookup_zip_with_Some in Hat as (t' & v' & Heq & Hti & Hvi).
  injection Heq as <- <-.
  unfold samples_ts in Hti. unfold samples_values in Hvi.
  apply lookup_take_Some in Hti as [Hti _].
  apply lookup_take_Some in Hvi as [Hvi _].
  unfold TurboGorilla_GetSampleTimestampAtPos, TurboGorilla_GetSampleValueAtPos.
  rewrite !bool_decide_true by lia.
  rewrite (load_Some _ _ _ Hti), (load_Some _ _ _ Hvi).
  split; [done |]. split; [done |].
  intros s. rewrite Hsm, elem_of_app, elem_of_cons.
  rewrite <- (take_drop pos (samples c)) at 3. rewrite elem_of_app. tauto.
Qed.

(** X8.  Upsert never stores a timestamp twice: after the insert of an
    absent timestamp, a second upsert of the same timestamp, with any value
    and policy, reports 0 added, answers [CR_OK] or [CR_ERR], and leaves
    the count, the timestamps and [size] as the first one made them. *)
Theorem upsert_twice (policy policy' : DuplicatePolicy)
    (c : TurboGorilla_Chunk) (ts v w : Z) (g g2 : garbage) :
  chunk_inv c → num_samples c < INT_MAX → ts ∉ samples_ts c →
  ∃ c' r ctx,
    TurboGorilla_UpsertSample handleDuplicateSample
      (mkUpsertCtx c (mkSample ts v)) policy g
    = Ret (CR_OK, mkUpsertCtx c' (mkSample ts v), 1)
    ∧ TurboGorilla_UpsertSample handleDuplicateSample
        (mkUpsertCtx c' (mkSample ts w)) policy' g2
      = Ret (r, ctx, 0)
    ∧ (r = CR_OK ∨ r = CR_ERR)
    ∧ num_samples (inChunk ctx) = num_samples c + 1
    ∧ samples_ts (inChunk ctx) = samples_ts c'
    ∧ size (inChunk ctx) = size c'.
Proof.
  intros Hc Hint Hnin.
  destruct (upsert_absent policy c ts v g Hc ltac:(lia) Hnin)
    as (c' & Hrun & Hinv & Hn & _ & Hts & _ & _).
  assert (Hin : ts ∈ samples_ts c').
  { rewrite Hts, elem_of_app, elem_of_cons. tauto. }
  destruct (proj1 (UpsertSample_cases handleDuplicateSample policy' c' ts w g2
                     Hinv ltac:(lia)) Hin)
    as (old & _ & _ & Hres).
  destruct (handleDuplicateSample policy' old w) as [cr w'] eqn:Hr.
  destruct (Hres cr w' eq_refl) as [Herr Hok].
  exists c'.
  destruct (decide (cr = CR_OK)) as [-> | Hne].
  - eexists _, _. split; [done |]. split; [by apply Hok |].
    split; [by left |]. done.
  - eexists _, _. split; [done |]. split; [by apply Herr |].
    split; [by right |]. done.
Qed.

(** X9.  Result codes of the upsert on a chunk that satisfies the data
    model: never [CR_END]; 1 added exactly when the timestamp was absent,
    0 exactly when it was present; [CR_ERR] only for a present timestamp,
    with the chunk untouched; [num_samples] grows by the number reported;
    no stored timestamp is lost. *)
Theorem upsert_result_codes (policy : DuplicatePolicy)
    (c : TurboGorilla_Chunk) (ts v : Z) (g : garbage) :
  chunk_inv c → num_samples c <= INT_MAX →
  ∃ r ctx added,
    TurboGorilla_UpsertSample handleDuplicateSample
      (mkUpsertCtx c (mkSample ts v)) policy g = Ret (r, ctx, added)
    ∧ r ≠ CR_END
    ∧ (added = 1 ↔ ts ∉ samples_ts c)
    ∧ (added = 0 ↔ ts ∈ samples_ts c)
    ∧ (r = CR_ERR → ts ∈ samples_ts c ∧ inChunk ctx = c)
    ∧ num_samples (inChunk ctx) = num_samples c + added
    ∧ (∀ t, t ∈ samples_ts c → t ∈ samples_ts (inChunk ctx)).
Proof.
  intros Hc Hint.
  destruct (UpsertSample_cases handleDuplicateSample policy c ts v g Hc Hint)
    as [Hdup Hnew].
  destruct (decide (ts ∈ samples_ts c)) as [Hin | Hnin].
  - destruct (Hdup Hin) as (old & _ & _ & Hres).
    destruct (handleDuplicateSample policy old v) as [cr v'] eqn:Hr.
    destruct (Hres cr v' eq_refl) as [Herr Hok].
    destruct (decide (cr = CR_OK)) as [-> | Hne].
    + eexists _, _, _. split; [by apply Hok |]. simpl.
      repeat split; try done; try lia; try tauto.
    + eexists _, _, _. split; [by apply Herr |]. simpl.
      repeat split; try done; try lia; try tauto.
  - destruct (Hnew Hnin) as (c' & Hrun & _ & Hts & _ & Hn & _).
    eexists _, _, _. split; [exact Hrun |]. simpl.
    repeat split; try done; try lia; try tauto.
    intros t Ht. rewrite Hts, elem_of_app, elem_of_cons.
    rewrite <- (take_drop (count_below ts (samples_ts c)) (samples_ts c)) in Ht.
    rewrite elem_of_app in Ht. tauto.
Qed.

(** X10.  Insert, then delete: after the upsert of an absent timestamp
    [ts], deleting the range [ts, ts] removes one sample and gives back
    the samples the chunk had before. *)
Theorem upsert_then_delete (policy : DuplicatePolicy) (c : TurboGorilla_Chunk)
    (ts v : Z) (g g2 : garbage) :
  chunk_inv c → num_samples c <= INT_MAX → ts ∉ samples_ts c →
  ∃ c' c'',
    TurboGorilla_UpsertSample handleDuplicateSample
      (mkUpsertCtx c (mkSample ts v)) policy g
    = Ret (CR_OK, mkUpsertCtx c' (mkSample ts v), 1)
    ∧ TurboGorilla_DelRange c' ts ts g2 = Ret (c'', 1)
    ∧ samples c'' = samples c
    ∧ num_samples c'' = num_samples c.
Proof.
  intros Hc Hint Hnin.
  destruct (upsert_absent policy c ts v g Hc Hint Hnin)
    as (c' & Hrun & Hinv & Hn & _ & _ & Hsm & Hpos).
  destruct (inv_fits c Hc) as (Hn0 & Hlt & Hlv).
  assert (Hsz : SAMPLE_SIZE <= size c').
  { pose proof (inv_capacity c' Hinv). unfold SAMPLE_SIZE in *. lia. }
  destruct (proj1 (DelRange_spec c' ts ts g2 (inv_typed c' Hinv)
                     (inv_allocated c' Hinv) (inv_capacity c' Hinv)) Hsz)
    as (c'' & Hdel & Hn'' & _ & _ & Hts'' & Hvs'' & _).
  assert (Hout : Forall (λ s, ¬ (ts <= timestamp s ∧ timestamp s <= ts))
                   (samples c)).
  { rewrite Forall_forall. intros s Hs [H1 H2].
    apply Hnin. replace ts with (timestamp s) by lia.
    by apply timestamp_of_sample. }
  assert (Hkept : survivors ts ts (samples c') = samples c).
  { rewrite Hsm. unfold survivors. rewrite filter_app, filter_cons.
    rewrite decide_False by (simpl; lia).
    rewrite <- (take_drop (count_below ts (samples_ts c)) (samples c))
      in Hout.
    apply Forall_app in Hout as [Ho1 Ho2].
    fold (survivors ts ts (take (count_below ts (samples_ts c)) (samples c))).
    fold (survivors ts ts (drop (count_below ts (samples_ts c)) (samples c))).
    rewrite !survivors_all_outside by done. apply take_drop. }
  rewrite Hkept in *.
  exists c', c''. split; [done |].
  rewrite length_samples in * by done.
  split; [rewrite Hdel; do 2 f_equal; lia |].
  split; [by apply samples_of_columns | lia].
Qed.

(** X11.  Capacity after an inserting upsert is the larger of the old
    capacity and [num_samples + 1]: a chunk that was full is full again,
    and the append path answers [CR_END] on it. *)
Theorem upsert_capacity (policy : DuplicatePolicy) (c : TurboGorilla_Chunk)
    (ts v t w : Z) (g : garbage) :
  chunk_inv c → num_samples c <= INT_MAX → ts ∉ samples_ts c →
  ∃ c', TurboGorilla_UpsertSample handleDuplicateSample
          (mkUpsertCtx c (mkSample ts v)) policy g
        = Ret (CR_OK, mkUpsertCtx c' (mkSample ts v), 1)
    ∧ size c' / SAMPLE_SIZE
      = Z.max (size c / SAMPLE_SIZE) (num_samples c + 1)
    ∧ (num_samples c = size c / SAMPLE_SIZE →
       num_samples c' = size c' / SAMPLE_SIZE
       ∧ TurboGorilla_AddSampleOptimized c' t w = Ret (CR_END, c')).
Proof.
  intros Hc Hint Hnin.
  destruct (upsert_absent policy c ts v g Hc Hint Hnin)
    as (c' & Hrun & Hinv & Hn & Hsz & _ & _ & _).
  pose proof (inv_capacity_slots c Hc) as Hslots.
  exists c'. split; [done |].
  unfold IsChunkFull, SAMPLE_SIZE in *.
  assert (Hfullsz : num_samples c = size c / 16 →
                    size c' / 16 = num_samples c + 1).
  { intros Hfull. rewrite Hsz, bool_decide_true by done.
    replace (size c + 16) with (size c + 1 * 16) by lia.
    rewrite Z.div_add by lia. lia. }
  split.
  - destruct (decide (num_samples c = size c / 16)) as [Hfull | Hne].
    + rewrite Hfullsz by done. lia.
    + rewrite Hsz, bool_decide_false by done. lia.
  - intros Hfull. split; [rewrite Hfullsz by done; lia |].
    unfold TurboGorilla_AddSampleOptimized, IsChunkFull, SAMPLE_SIZE.
    rewrite bool_decide_true; [done |]. rewrite Hfullsz by done. lia.
Qed.
End UpsertComposed.

Lemma not_stored_150 : 150 ∉ samples_ts three_samples.
Proof. intros H. apply list_elem_of_In in H. simpl in H. lia. Defined.

Lemma upsert_then_read_witness :
  ∃ c', TurboGorilla_UpsertSample sample_resolver
          (mkUpsertCtx three_samples (mkSample 150 9)) DP_BLOCK sample_garbage
        = Ret (CR_OK, mkUpsertCtx c' (mkSample 150 9), 1)
    ∧ samples c'
      = [mkSample 100 1; mkSample 150 9; mkSample 200 2; mkSample 300 3]
    ∧ TurboGorilla_GetSampleTimestampAtPos c' 1 = Ret (CR_OK, Some 150)
    ∧ TurboGorilla_GetSampleValueAtPos c' 1 = Ret (CR_OK, Some 9)
    ∧ (∀ s, s ∈ samples c' ↔ s = mkSample 150 9 ∨ s ∈ samples three_samples).
Proof.
  apply (upsert_then_read sample_resolver DP_BLOCK three_samples 150 9
           sample_garbage three_samples_inv ltac:(by vm_compute)
           not_stored_150).
Defined.

Lemma upsert_twice_witness :
  ∃ c' r ctx,
    TurboGorilla_UpsertSample sample_resolver
      (mkUpsertCtx three_samples (mkSample 150 9)) DP_LAST sample_garbage
    = Ret (CR_OK, mkUpsertCtx c' (mkSample 150 9), 1)
    ∧ TurboGorilla_UpsertSample sample_resolver
        (mkUpsertCtx c' (mkSample 150 5)) DP_BLOCK sample_garbage
      = Ret (r, ctx, 0)
    ∧ (r = CR_OK ∨ r = CR_ERR)
    ∧ num_samples (inChunk ctx) = 4
    ∧ samples_ts (inChunk ctx) = samples_ts c'
    ∧ size (inChunk ctx) = size c'.
Proof.
  apply (upsert_twice sample_resolver DP_LAST DP_BLOCK three_samples 150 9 5
           sample_garbage sample_garbage three_samples_inv
           ltac:(by vm_compute) not_stored_150).
Defined.

Lemma upsert_result_codes_witness :
  ∃ r ctx added,
    TurboGorilla_UpsertSample sample_resolver
      (mkUpsertCtx three_samples (mkSample 200 5)) DP_BLOCK sample_garbage
    = Ret (r, ctx, added)
    ∧ r ≠ CR_END
    ∧ (added = 1 ↔ 200 ∉ samples_ts three_samples)
    ∧ (added = 0 ↔ 200 ∈ samples_ts three_samples)
    ∧ (r = CR_ERR → 200 ∈ samples_ts three_samples
                    ∧ inChunk ctx = three_samples)
    ∧ num_samples (inChunk ctx) = 3 + added
    ∧ (∀ t, t ∈ samples_ts three_samples → t ∈ samples_ts (inChunk ctx)).
Proof.
  apply (upsert_result_codes sample_resolver DP_BLOCK three_samples 200 5
           sample_garbage three_samples_inv ltac:(by vm_compute)).
Defined.

Lemma upsert_then_delete_witness :
  ∃ c' c'',
    TurboGorilla_UpsertSample sample_resolver
      (mkUpsertCtx three_samples (mkSample 150 9)) DP_BLOCK sample_garbage
    = Ret (CR_OK, mkUpsertCtx c' (mkSample 150 9), 1)
    ∧ TurboGorilla_DelRange c' 150 150 sample_garbage = Ret (c'', 1)
    ∧ samples c'' = samples three_samples
    ∧ num_samples c'' = 3.
Proof.
  apply (upsert_then_delete sample_resolver DP_BLOCK three_samples 150 9
           sample_garbage sample_garbage three_samples_inv
           ltac:(by vm_compute) not_stored_150).
Defined.

Lemma upsert_capacity_witness :
  ∃ c', TurboGorilla_UpsertSample sample_resolver
          (mkUpsertCtx four_samples (mkSample 50 5)) DP_BLOCK sample_garbage
        = Ret (CR_OK, mkUpsertCtx c' (mkSample 50 5), 1)
    ∧ size c' / SAMPLE_SIZE = 5
    ∧ num_samples c' = size c' / SAMPLE_SIZE
    ∧ TurboGorilla_AddSampleOptimized c' 400 4 = Ret (CR_END, c').
Proof.
  destruct (upsert_capacity sample_resolver DP_BLOCK four_samples 50 5 400 4
              sample_garbage four_samples_inv ltac:(by vm_compute))
    as (c' & Hrun & Hcap & Hfull).
  { intros H. apply list_elem_of_In in H. simpl in H. lia. }
  destruct (Hfull ltac:(by vm_compute)) as [Hn Hend].
  exists c'. repeat split; assumption.
Defined.

(** ** Range delete, composed *)

(** The range delete on a chunk that satisfies the data model, at the level
    of samples, with the invariant of the result. *)
Lemma DelRange_samples (c : TurboGorilla_Chunk) (startTs endTs : Z)
    (g : garbage) :
  chunk_inv c → SAMPLE_SIZE <= size c →
  ∃ c', TurboGorilla_DelRange c startTs endTs g
        = Ret (c', num_samples c - num_samples c')
    ∧ chunk_inv c'
    ∧ samples c' = survivors startTs endTs (samples c)
    ∧ num_samples c' = Z.of_nat (length (samples c'))
    ∧ 0 <= num_samples c' <= num_samples c
    ∧ size c' = size c
    ∧ buffer_ts c' !! 0%nat = Some (start_ts c').
Proof.
  intros Hc Hsz.
  destruct (proj1 (DelRange_spec c startTs endTs g (inv_typed c Hc)
                     (inv_allocated c Hc) (inv_capacity c Hc)) Hsz)
    as (c' & Hrun & Hn & Hs & _ & Hts & Hvs & Hst & _).
  destruct (del_range_preserves_inv c startTs endTs g Hc Hsz)
    as (c2 & d & Hrun' & Hinv).
  rewrite Hrun in Hrun'. injection Hrun' as <- _.
  pose proof (samples_of_columns c' _ Hts Hvs) as Hsm.
  destruct (inv_fits c Hc) as (Hn0 & Hlt & Hlv).
  pose proof (survivors_length_le startTs endTs (samples c)) as Hle.
  rewrite length_samples in Hle by done.
  exists c'. rewrite Hn at 1. split; [done |]. split; [done |].
  split; [done |]. rewrite Hsm. split; [done |]. split; [lia |]. done.
Qed.

(** X12.  A range delete whose interval holds no stored timestamp (an
    empty interval, [endTs < startTs], included) returns 0 and keeps
    samples, count, [size] and, on a non-empty chunk, [start_ts]. *)
Theorem del_range_outside (c : TurboGorilla_Chunk) (startTs endTs : Z)
    (g : garbage) :
  chunk_inv c → SAMPLE_SIZE <= size c →
  (∀ t, t ∈ samples_ts c → ¬ (startTs <= t <= endTs)) →
  ∃ c', TurboGorilla_DelRange c startTs endTs g = Ret (c', 0)
    ∧ samples c' = samples c
    ∧ num_samples c' = num_samples c
    ∧ size c' = size c
    ∧ (0 < num_samples c → start_ts c' = start_ts c).
Proof.
  intros Hc Hsz Hout.
  destruct (DelRange_samples c startTs endTs g Hc Hsz)
    as (c' & Hrun & Hinv & Hsm & Hn & _ & Hs & Hst).
  destruct (inv_fits c Hc) as (Hn0 & Hlt & Hlv).
  assert (Hkept : survivors startTs endTs (samples c) = samples c).
  { apply survivors_all_outside. rewrite Forall_forall. intros s Hs' Hr.
    apply (Hout (timestamp s)); [by apply timestamp_of_sample | lia]. }
  rewrite Hkept in Hsm.
  assert (Hn' : num_samples c' = num_samples c).
  { rewrite Hn, Hsm, length_samples by done. lia. }
  exists c'. rewrite Hn', Z.sub_diag in Hrun.
  split; [done |]. split; [done |]. split; [done |]. split; [done |].
  intros Hpos.
  assert (H0 : samples c' !! 0%nat = samples c !! 0%nat) by (by rewrite Hsm).
  destruct (buffer_values c' !! 0%nat) as [v'|] eqn:Hv';
    [| apply lookup_ge_None_1 in Hv';
       destruct (inv_fits c' Hinv) as (_ & _ & ?); lia].
  destruct (buffer_values c !! 0%nat) as [v|] eqn:Hv;
    [| apply lookup_ge_None_1 in Hv; lia].
  rewrite (samples_lookup c' 0 _ _ ltac:(lia) Hst Hv') in H0.
  rewrite (samples_lookup c 0 _ _ ltac:(lia) (inv_start c Hc Hpos) Hv) in H0.
  by injection H0.
Qed.

Lemma del_range_outside_witness :
  ∃ c', TurboGorilla_DelRange three_samples 101 199 sample_garbage = Ret (c', 0)
    ∧ samples c' = samples three_samples
    ∧ num_samples c' = 3
    ∧ size c' = 64
    ∧ start_ts c' = 100.
Proof.
  destruct (del_range_outside three_samples 101 199 sample_garbage
              three_samples_inv ltac:(by vm_compute))
    as (c' & H1 & H2 & H3 & H4 & H5).
  { intros t Ht. apply list_elem_of_In in Ht. simpl in Ht. lia. }
  exists c'. repeat split; try assumption. apply H5. simpl. lia.
Defined.

(** X13.  After a range delete no stored timestamp lies in the interval,
    the samples left are exactly the old ones outside it, and deleting the
    same interval again returns 0 and changes no sample. *)
Theorem del_range_clears (c : TurboGorilla_Chunk) (startTs endTs : Z)
    (g g2 : garbage) :
  chunk_inv c → SAMPLE_SIZE <= size c →
  ∃ c' deleted c'',
    TurboGorilla_DelRange c startTs endTs g = Ret (c', deleted)
    ∧ (∀ t, t ∈ samples_ts c' → ¬ (startTs <= t <= endTs))
    ∧ (∀ s, s ∈ samples c' ↔
            s ∈ samples c ∧ ¬ (startTs <= timestamp s <= endTs))
    ∧ TurboGorilla_DelRange c' startTs endTs g2 = Ret (c'', 0)
    ∧ samples c'' = samples c'.
Proof.
  intros Hc Hsz.
  destruct (DelRange_samples c startTs endTs g Hc Hsz)
    as (c' & Hrun & Hinv & Hsm & Hn & _ & Hs & _).
  assert (Hmem : ∀ s, s ∈ samples c' ↔
                      s ∈ samples c ∧ ¬ (startTs <= timestamp s <= endTs)).
  { intros s. rewrite Hsm. unfold survivors. rewrite list_elem_of_filter.
    tauto. }
  assert (Hclear : ∀ t, t ∈ samples_ts c' → ¬ (startTs <= t <= endTs)).
  { intros t Ht.
    destruct (inv_fits c' Hinv) as (Hn0 & Hlt & Hlv).
    apply list_elem_of_lookup_1 in Ht as [i Hi].
    pose proof (lookup_lt_Some _ _ _ Hi) as Hil.
    rewrite (length_samples_ts c' Hinv) in Hil.
    unfold samples_ts in Hi. apply lookup_take_Some in Hi as [Hi _].
    destruct (buffer_values c' !! i) as [v|] eqn:Hv;
      [| apply lookup_ge_None_1 in Hv; lia].
    pose proof (samples_lookup c' i t v Hil Hi Hv) as Hsi.
    apply list_elem_of_lookup_2 in Hsi. apply Hmem in Hsi as [_ Hsi].
    exact Hsi. }
  destruct (DelRange_samples c' startTs endTs g2 Hinv ltac:(by rewrite Hs))
    as (c'' & Hrun2 & _ & Hsm2 & Hn2 & _).
  assert (Hkept : survivors startTs endTs (samples c') = samples c').
  { apply survivors_all_outside. rewrite Forall_forall. intros s Hs' Hr.
    apply Hmem in Hs' as [_ Hs']. apply Hs'. lia. }
  rewrite Hkept in Hsm2.
  eexists c', _, c''. split; [exact Hrun |]. split; [done |]. split; [done |].
  split; [| done].
  rewrite Hrun2. do 2 f_equal. rewrite Hn2, Hn, Hsm2. lia.
Qed.

Lemma del_range_clears_witness :
  ∃ c' deleted c'',
    TurboGorilla_DelRange four_samples 150 250 sample_garbage
    = Ret (c', deleted)
    ∧ (∀ t, t ∈ samples_ts c' → ¬ (150 <= t <= 250))
    ∧ (∀ s, s ∈ samples c' ↔
            s ∈ samples four_samples ∧ ¬ (150 <= timestamp s <= 250))
    ∧ TurboGorilla_DelRange c' 150 250 sample_garbage = Ret (c'', 0)
    ∧ samples c'' = samples c'.
Proof.
  apply (del_range_clears four_samples 150 250 sample_garbage sample_garbage
           four_samples_inv). by vm_compute.
Defined.

(** X14.  A range delete keeps the capacity, so the free room grows by
    the number of samples deleted; when at least one was deleted the next
    append answers [CR_OK] and puts its sample behind the survivors. *)
Theorem del_range_frees_room (c : TurboGorilla_Chunk) (startTs endTs : Z)
    (g : garbage) (t w : Z) :
  chunk_inv c → SAMPLE_SIZE <= size c → size c / SAMPLE_SIZE < UINT32_MOD →
  ∃ c' deleted,
    TurboGorilla_DelRange c startTs endTs g = Ret (c', deleted)
    ∧ 0 <= deleted
    ∧ size c' / SAMPLE_SIZE - num_samples c'
      = size c / SAMPLE_SIZE - num_samples c + deleted
    ∧ (0 < deleted →
       ∃ c'', TurboGorilla_AddSampleOptimized c' t w = Ret (CR_OK, c'')
         ∧ samples c'' = samples c' ++ [mkSample t w]).
Proof.
  intros Hc Hsz Hcap.
  destruct (DelRange_samples c startTs endTs g Hc Hsz)
    as (c' & Hrun & Hinv & Hsm & Hn & Hle & Hs & _).
  pose proof (inv_capacity_slots c Hc) as Hslots.
  eexists c', _. split; [exact Hrun |]. split; [lia |].
  split; [rewrite Hs; lia |].
  intros Hpos.
  destruct (AddSample_room c' (mkSample t w) (inv_typed c' Hinv)
              (inv_allocated c' Hinv) ltac:(rewrite Hs; lia)
              ltac:(by rewrite Hs))
    as (c'' & Hadd & _ & _ & _ & _ & _ & _ & Hsm'').
  exists c''. done.
Qed.

Lemma del_range_frees_room_witness :
  ∃ c' deleted,
    TurboGorilla_DelRange four_samples 150 250 sample_garbage
    = Ret (c', deleted)
    ∧ 0 <= deleted
    ∧ size c' / SAMPLE_SIZE - num_samples c' = 0 + deleted
    ∧ ∃ c'', TurboGorilla_AddSampleOptimized c' 400 4 = Ret (CR_OK, c'')
        ∧ samples c'' = samples c' ++ [mkSample 400 4].
Proof.
  destruct (del_range_frees_room four_samples 150 250 sample_garbage 400 4
              four_samples_inv ltac:(by vm_compute) ltac:(by vm_compute))
    as (c' & d & Hrun & Hd & Hroom & Hadd).
  exists c', d. repeat split; try assumption.
  apply Hadd.
  assert (Hrun' : TurboGorilla_DelRange four_samples 150 250 sample_garbage
                  = Ret (mkChunk 100 2 64 true [100; 300; 1002; 1003]
                           [1; 3; 2002; 2003], 2)) by reflexivity.
  rewrite Hrun' in Hrun. injection Hrun as _ <-. lia.
Defined.

(** X15.  Deleting every sample leaves an empty chunk whose [start_ts] is
    what the allocator left in the fresh block; the next append writes its
    own timestamp into [start_ts], and the chunk then holds that one
    sample and satisfies the data model. *)
Theorem delete_everything_then_append (c : TurboGorilla_Chunk)
    (startTs endTs : Z) (g : garbage) (t w : Z) :
  chunk_inv c → SAMPLE_SIZE <= size c →
  (∀ x, x ∈ samples_ts c → startTs <= x <= endTs) →
  ∃ c' c'',
    TurboGorilla_DelRange c startTs endTs g = Ret (c', num_samples c)
    ∧ num_samples c' = 0
    ∧ start_ts c' = wrap64 (g_ts g 0%nat)
    ∧ TurboGorilla_AddSampleOptimized c' t w = Ret (CR_OK, c'')
    ∧ samples c'' = [mkSample t w]
    ∧ start_ts c'' = t
    ∧ TurboGorilla_GetFirstTimestamp c'' = Ret t
    ∧ chunk_inv c''.
Proof.
  intros Hc Hsz Hall.
  destruct (DelRange_all_removed c startTs endTs g Hc Hsz Hall)
    as (c' & Hrun & Hn & Hst).
  destruct (del_range_preserves_inv c startTs endTs g Hc Hsz)
    as (c2 & d & Hrun' & Hinv).
  rewrite Hrun in Hrun'. injection Hrun' as <- _.
  destruct (DelRange_samples c startTs endTs g Hc Hsz)
    as (c3 & Hrun3 & _ & _ & _ & _ & Hs & _).
  rewrite Hrun in Hrun3. injection Hrun3 as <- _.
  assert (Hroom : num_samples c' < size c' / SAMPLE_SIZE).
  { rewrite Hn, Hs. unfold SAMPLE_SIZE in *.
    assert (1 <= size c / 16) by (apply Z.div_le_lower_bound; lia). lia. }
  destruct (append_preserves_inv c' t w Hinv) as (r & c'' & Hadd & Hinv'').
  { intros x Hx. unfold samples_ts in Hx. rewrite Hn in Hx. simpl in Hx.
    by apply elem_of_nil in Hx. }
  rewrite (AddSampleOptimized_room c' t w (inv_typed c' Hinv)
             (inv_allocated c' Hinv) Hroom) in Hadd.
  injection Hadd as <- <-.
  destruct (inv_allocated c' Hinv) as [Hat Hav].
  eexists c', _. split; [done |]. split; [done |]. split; [done |].
  split; [apply AddSampleOptimized_room;
            [apply Hinv | apply Hinv | exact Hroom] |].
  rewrite Hn in *. rewrite bool_decide_true in * by done.
  change (wrap32 (0 + 1)) with 1 in *. change (Z.to_nat 0) with 0%nat in *.
  assert (Hb : buffer_ts c' ≠ [] ∧ buffer_values c' ≠ []).
  { split; intros E; rewrite E in *; simpl in *; lia. }
  destruct Hb as [Hbt Hbv].
  split; [| split; [done | split; [| done]]].
  - unfold samples, samples_ts, samples_values. simpl.
    destruct (buffer_ts c'); [done |]. destruct (buffer_values c'); done.
  - unfold TurboGorilla_GetFirstTimestamp. simpl.
    destruct (buffer_ts c'); done.
Qed.

Lemma delete_everything_then_append_witness :
  ∃ c' c'',
    TurboGorilla_DelRange three_samples 0 1000 sample_garbage = Ret (c', 3)
    ∧ num_samples c' = 0
    ∧ start_ts c' = 1000
    ∧ TurboGorilla_AddSampleOptimized c' 7 8 = Ret (CR_OK, c'')
    ∧ samples c'' = [mkSample 7 8]
    ∧ start_ts c'' = 7
    ∧ TurboGorilla_GetFirstTimestamp c'' = Ret 7
    ∧ chunk_inv c''.
Proof.
  apply (delete_everything_then_append three_samples 0 1000 sample_garbage 7 8
           three_samples_inv); [by vm_compute |].
  intros x Hx. apply list_elem_of_In in Hx. simpl in Hx. lia.
Defined.

(** ** Split, composed with the append path *)

(** X16.  Both halves of a split are at capacity: their counts differ by
    at most one, the left never being the smaller, and the append path
    answers [CR_END] on either of them. *)
Theorem split_halves_are_full (c : TurboGorilla_Chunk) (g g' : garbage)
    (t w : Z) :
  chunk_inv c →
  ∃ left right,
    TurboGorilla_SplitChunk c g g' = Ret (left, right)
    ∧ 0 <= num_samples left - num_samples right <= 1
    ∧ num_samples left = size left / SAMPLE_SIZE
    ∧ num_samples right = size right / SAMPLE_SIZE
    ∧ TurboGorilla_AddSampleOptimized left t w = Ret (CR_END, left)
    ∧ TurboGorilla_AddSampleOptimized right t w = Ret (CR_END, right).
Proof.
  intros Hc.
  destruct (inv_fits c Hc) as (Hn0 & Hlt & Hlv).
  destruct (SplitChunk_spec c g g' (proj1 (inv_typed c Hc)) Hlt Hlv)
    as (right & Hrun & Hrn & Hrs & _).
  set (n := num_samples c) in *.
  assert (Hhalf : 0 <= n - n / 2 - n / 2 <= 1).
  { pose proof (Z.div_mod n 2 ltac:(lia)).
    pose proof (Z.mod_pos_bound n 2 ltac:(lia)). lia. }
  eexists _, right. split; [exact Hrun |].
  unfold TurboGorilla_AddSampleOptimized, IsChunkFull, SAMPLE_SIZE in *.
  simpl. rewrite Hrn, Hrs, !Z.div_mul by lia.
  rewrite !bool_decide_true by done. done.
Qed.

Lemma split_halves_are_full_witness :
  ∃ left right,
    TurboGorilla_SplitChunk three_samples sample_garbage sample_garbage
    = Ret (left, right)
    ∧ 0 <= num_samples left - num_samples right <= 1
    ∧ num_samples left = size left / SAMPLE_SIZE
    ∧ num_samples right = size right / SAMPLE_SIZE
    ∧ TurboGorilla_AddSampleOptimized left 400 4 = Ret (CR_END, left)
    ∧ TurboGorilla_AddSampleOptimized right 400 4 = Ret (CR_END, right).
Proof.
  apply (split_halves_are_full three_samples sample_garbage sample_garbage
           400 4 three_samples_inv).
Defined.

(** ** The append path does not look at the timestamp *)

(** X17.  The append path performs no ordering check: on a chunk with
    room, a timestamp at or below a stored one is accepted with [CR_OK]
    and stored at the tail, after which the timestamps are no longer
    ascending. *)
Theorem append_out_of_order (c : TurboGorilla_Chunk) (ts v x : Z) :
  chunk_inv c →
  num_samples c < size c / SAMPLE_SIZE →
  size c / SAMPLE_SIZE < UINT32_MOD →
  x ∈ samples_ts c → ts <= x →
  ∃ c', TurboGorilla_AddSampleOptimized c ts v = Ret (CR_OK, c')
    ∧ samples_ts c' = samples_ts c ++ [ts]
    ∧ ¬ strictly_ascending (samples_ts c')
    ∧ ¬ chunk_inv c'.
Proof.
  intros Hc Hroom Hcap Hx Hle.
  destruct (inv_fits c Hc) as (Hn0 & _ & _).
  destruct (AddSample_room c (mkSample ts v) (inv_typed c Hc)
              (inv_allocated c Hc) ltac:(lia) Hcap)
    as (c' & Hadd & _ & _ & _ & _ & _ & Hts & _).
  unfold TurboGorilla_AddSample in Hadd. simpl in Hadd, Hts.
  exists c'. split; [done |]. split; [done |].
  assert (Hno : ¬ strictly_ascending (samples_ts c')).
  { unfold strictly_ascending. rewrite Hts. intros Hs.
    pose proof (StronglySorted_app_1_elem_of _ _ _ x ts Hs Hx
                  ltac:(by apply list_elem_of_singleton)). lia. }
  split; [done |]. intros Hinv. apply Hno. apply Hinv.
Qed.

Lemma append_out_of_order_witness :
  ∃ c', TurboGorilla_AddSampleOptimized three_samples 150 9 = Ret (CR_OK, c')
    ∧ samples_ts c' = samples_ts three_samples ++ [150]
    ∧ ¬ strictly_ascending (samples_ts c')
    ∧ ¬ chunk_inv c'.
Proof.
  apply (append_out_of_order three_samples 150 9 200 three_samples_inv);
    try (by vm_compute).
  apply (list_elem_of_lookup_2 _ 1%nat). reflexivity.
Defined.

(** ** Save and load, composed *)

(** What a save writes and what a load of it returns. *)
Lemma save_load (c : TurboGorilla_Chunk) :
  header_typed c → in_u64 (start_ts c) →
  num_samples c <= Z.of_nat (length (buffer_ts c)) →
  num_samples c <= Z.of_nat (length (buffer_values c)) →
  Forall in_u64 (samples_ts c) → Forall in_u64 (samples_values c) →
  ∃ items,
    (∀ io, TurboGorilla_SaveToRDB c io = Ret (io ++ items))
    ∧ ∀ rest g,
        TurboGorilla_LoadFromRDB (items ++ rest) g
        = (mkChunk (start_ts c) (num_samples c) (size c) (buffer_in_use c)
                   (samples_ts c) (samples_values c),
           rest).
Proof.
  intros ([Hn0 Hn1] & Hsz) Hst Hlt Hlv Hts Hvs.
  exists [RdbUnsigned (size c); RdbUnsigned (start_ts c);
          RdbUnsigned (num_samples c);
          RdbUnsigned (if buffer_in_use c then 1 else 0);
          RdbString (bytes_of_slots (samples_ts c));
          RdbString (bytes_of_slots (samples_values c))].
  split.
  - intros io. unfold TurboGorilla_SaveToRDB, TurboGorilla_GenericSerialize.
    unfold sizeof_u64, sizeof_double.
    rewrite !read_bytes_samples by lia. simpl.
    unfold rdb_saveUnsigned, rdb_saveString.
    rewrite !wrap64_small; try done.
    + by rewrite <- !app_assoc.
    + destruct (buffer_in_use c); by vm_compute.
    + unfold in_u64, in_u32, UINT64_MOD, UINT32_MOD in *. lia.
  - intros rest g.
    unfold TurboGorilla_LoadFromRDB, TurboGorilla_Deserialize. simpl.
    rewrite !slots_bytes_round_trip by done.
    rewrite wrap32_small by done. rewrite !wrap64_small by done.
    unfold set_buffers. simpl. do 2 f_equal.
    destruct (buffer_in_use c); by vm_compute.
Qed.

Lemma samples_of_exact (st n sz : Z) (u : bool) (c : TurboGorilla_Chunk) :
  n = num_samples c →
  samples (mkChunk st n sz u (samples_ts c) (samples_values c)) = samples c.
Proof.
  intros ->. unfold samples, samples_ts, samples_values. simpl.
  by rewrite !take_take, !Nat.min_id.
Qed.

(** X18.  Two chunks saved one after the other onto a stream are read
    back by two loads, in that order, with their samples, [size] and
    [start_ts]; each save writes six items and each load consumes six. *)
Theorem save_two_load_two (c1 c2 : TurboGorilla_Chunk) (g1 g2 : garbage) :
  header_typed c1 → in_u64 (start_ts c1) →
  num_samples c1 <= Z.of_nat (length (buffer_ts c1)) →
  num_samples c1 <= Z.of_nat (length (buffer_values c1)) →
  Forall in_u64 (samples_ts c1) → Forall in_u64 (samples_values c1) →
  header_typed c2 → in_u64 (start_ts c2) →
  num_samples c2 <= Z.of_nat (length (buffer_ts c2)) →
  num_samples c2 <= Z.of_nat (length (buffer_values c2)) →
  Forall in_u64 (samples_ts c2) → Forall in_u64 (samples_values c2) →
  ∃ io c1' c2',
    (io1 ← TurboGorilla_SaveToRDB c1 []; TurboGorilla_SaveToRDB c2 io1)
    = Ret io
    ∧ length io = 12%nat
    ∧ (let '(a, rest) := TurboGorilla_LoadFromRDB io g1 in
       let '(b, rest') := TurboGorilla_LoadFromRDB rest g2 in
       (a, b, rest')) = (c1', c2', [])
    ∧ samples c1' = samples c1 ∧ size c1' = size c1
    ∧ start_ts c1' = start_ts c1
    ∧ samples c2' = samples c2 ∧ size c2' = size c2
    ∧ start_ts c2' = start_ts c2.
Proof.
  intros A1 A2 A3 A4 A5 A6 B1 B2 B3 B4 B5 B6.
  destruct (save_load c1 A1 A2 A3 A4 A5 A6) as (i1 & Hs1 & Hl1).
  destruct (save_load c2 B1 B2 B3 B4 B5 B6) as (i2 & Hs2 & Hl2).
  assert (Hlen : ∀ c items,
             TurboGorilla_SaveToRDB c [] = Ret ([] ++ items) →
             length items = 6%nat).
  { intros c items H.
    unfold TurboGorilla_SaveToRDB, TurboGorilla_GenericSerialize in H.
    destruct (read_bytes (buffer_ts c) _); [| done].
    destruct (read_bytes (buffer_values c) _); [| done].
    simpl in H. injection H as <-. done. }
  eexists (i1 ++ i2), _, _. split; [| split; [| split]].
  - rewrite Hs1. simpl. by rewrite Hs2.
  - rewrite length_app, (Hlen c1 i1 (Hs1 [])), (Hlen c2 i2 (Hs2 [])). done.
  - rewrite (Hl1 i2 g1).
    rewrite <- (app_nil_r i2) at 1. rewrite (Hl2 [] g2). reflexivity.
  - simpl. rewrite !samples_of_exact by done. done.
Qed.

Lemma save_two_load_two_witness :
  ∃ io c1' c2',
    (io1 ← TurboGorilla_SaveToRDB three_samples [];
     TurboGorilla_SaveToRDB four_samples io1) = Ret io
    ∧ length io = 12%nat
    ∧ (let '(a, rest) := TurboGorilla_LoadFromRDB io sample_garbage in
       let '(b, rest') := TurboGorilla_LoadFromRDB rest sample_garbage in
       (a, b, rest')) = (c1', c2', [])
    ∧ samples c1' = samples three_samples ∧ size c1' = size three_samples
    ∧ start_ts c1' = start_ts three_samples
    ∧ samples c2' = samples four_samples ∧ size c2' = size four_samples
    ∧ start_ts c2' = start_ts four_samples.
Proof.
  assert (T3 : Forall in_u64 [100; 200; 300]) by (repeat constructor; lia).
  assert (V3 : Forall in_u64 [1; 2; 3]) by (repeat constructor; lia).
  assert (T4 : Forall in_u64 [100; 150; 200; 300])
    by (repeat constructor; lia).
  assert (V4 : Forall in_u64 [1; 9; 2; 3]) by (repeat constructor; lia).
  exact (save_two_load_two three_samples four_samples sample_garbage
           sample_garbage
           ltac:(by vm_compute) ltac:(by vm_compute) ltac:(simpl; lia)
           ltac:(simpl; lia) T3 V3
           ltac:(by vm_compute) ltac:(by vm_compute) ltac:(simpl; lia)
           ltac:(simpl; lia) T4 V4).
Defined.

(** X19.  The chunk loaded from a save keeps the saved [size] over
    buffers of exactly [num_samples] slots.  For a chunk that was full the
    append path answers [CR_END] as before; for a chunk that had room, the
    append that succeeds on the saved chunk writes outside the block on
    the loaded one. *)
Theorem append_after_load (c : TurboGorilla_Chunk) (g : garbage) (t w : Z) :
  header_typed c → in_u64 (start_ts c) → allocated c →
  0 <= num_samples c <= size c / SAMPLE_SIZE →
  Forall in_u64 (samples_ts c) → Forall in_u64 (samples_values c) →
  ∃ io c',
    TurboGorilla_SaveToRDB c [] = Ret io
    ∧ TurboGorilla_LoadFromRDB io g = (c', [])
    ∧ size c' = size c
    ∧ Z.of_nat (length (buffer_ts c')) = num_samples c
    ∧ (num_samples c = size c / SAMPLE_SIZE →
       TurboGorilla_AddSampleOptimized c' t w = Ret (CR_END, c'))
    ∧ (num_samples c < size c / SAMPLE_SIZE →
       (∃ c'', TurboGorilla_AddSampleOptimized c t w = Ret (CR_OK, c''))
       ∧ TurboGorilla_AddSampleOptimized c' t w = Fault OutOfBounds).
Proof.
  intros Hty Hst Hal [Hn0 Hle] Hts Hvs.
  pose proof Hal as [Hat Hav].
  destruct (save_load c Hty Hst ltac:(lia) ltac:(lia) Hts Hvs)
    as (items & Hsave & Hload).
  eexists _, _. split; [apply Hsave |]. simpl.
  rewrite <- (app_nil_r items) at 1. split; [apply Hload |]. simpl.
  split; [done |].
  assert (Hlen : Z.of_nat (length (samples_ts c)) = num_samples c).
  { unfold samples_ts. rewrite length_take. lia. }
  split; [done |].
  unfold TurboGorilla_AddSampleOptimized at 1 3, IsChunkFull. simpl.
  split.
  - intros Hfull. by rewrite bool_decide_true.
  - intros Hroom.
    split; [eexists; by apply AddSampleOptimized_room |].
    rewrite bool_decide_false by lia.
    assert (Hst' : store (samples_ts c) (num_samples c) t = Fault OutOfBounds).
    { unfold store. rewrite bool_decide_false by lia. done. }
    case_bool_decide; simpl; by rewrite Hst'.
Qed.

Lemma append_after_load_witness :
  ∃ io c',
    TurboGorilla_SaveToRDB three_samples [] = Ret io
    ∧ TurboGorilla_LoadFromRDB io sample_garbage = (c', [])
    ∧ size c' = size three_samples
    ∧ Z.of_nat (length (buffer_ts c')) = num_samples three_samples
    ∧ (∃ c'', TurboGorilla_AddSampleOptimized three_samples 400 4
              = Ret (CR_OK, c''))
    ∧ TurboGorilla_AddSampleOptimized c' 400 4 = Fault OutOfBounds.
Proof.
  assert (T3 : Forall in_u64 [100; 200; 300]) by (repeat constructor; lia).
  assert (V3 : Forall in_u64 [1; 2; 3]) by (repeat constructor; lia).
  destruct (append_after_load three_samples sample_garbage 400 4
              ltac:(by vm_compute) ltac:(by vm_compute) ltac:(by vm_compute)
              ltac:(by vm_compute) T3 V3)
    as (io & c' & Hs & Hl & Hsz & Hlen & _ & Hroom).
  destruct (Hroom ltac:(by vm_compute)) as [Hok Hfault].
  exists io, c'. repeat split; assumption.
Defined.

(** ** Byte footprint *)

(** X20.  Byte footprint across a split: without the header, each half
    reports its count times [SAMPLE_SIZE], the two add up to the old count
    times [SAMPLE_SIZE], and this is at most what the chunk reported
    before. *)
Theorem split_footprint (c : TurboGorilla_Chunk) (g g' : garbage)
    (sizeof_struct : Z) :
  chunk_inv c →
  ∃ left right,
    TurboGorilla_SplitChunk c g g' = Ret (left, right)
    ∧ TurboGorilla_GetChunkSize left false sizeof_struct
      = TurboGorilla_NumOfSample left * SAMPLE_SIZE
    ∧ TurboGorilla_GetChunkSize right false sizeof_struct
      = TurboGorilla_NumOfSample right * SAMPLE_SIZE
    ∧ TurboGorilla_GetChunkSize left false sizeof_struct
      + TurboGorilla_GetChunkSize right false sizeof_struct
      = TurboGorilla_NumOfSample c * SAMPLE_SIZE
    ∧ TurboGorilla_NumOfSample c * SAMPLE_SIZE
      <= TurboGorilla_GetChunkSize c false sizeof_struct.
Proof.
  intros Hc.
  destruct (inv_fits c Hc) as (Hn0 & Hlt & Hlv).
  destruct (half_bounds (num_samples c) Hn0) as (Hh0 & Hh1 & Hk0).
  destruct (SplitChunk_spec c g g' (proj1 (inv_typed c Hc)) Hlt Hlv)
    as (right & Hrun & Hrn & Hrs & _).
  destruct (inv_typed c Hc) as [[_ Hn1] Hsz].
  pose proof (inv_capacity c Hc) as Hcap.
  eexists _, right. split; [exact Hrun |].
  unfold TurboGorilla_GetChunkSize, TurboGorilla_NumOfSample. simpl.
  rewrite Hrn, Hrs, !Z.add_0_r.
  unfold SAMPLE_SIZE, UINT32_MOD in *.
  rewrite !wrap64_small by (unfold in_u64, UINT64_MOD in *; lia).
  lia.
Qed.

Lemma split_footprint_witness :
  ∃ left right,
    TurboGorilla_SplitChunk three_samples sample_garbage sample_garbage
    = Ret (left, right)
    ∧ TurboGorilla_GetChunkSize left false 48
      = TurboGorilla_NumOfSample left * SAMPLE_SIZE
    ∧ TurboGorilla_GetChunkSize right false 48
      = TurboGorilla_NumOfSample right * SAMPLE_SIZE
    ∧ TurboGorilla_GetChunkSize left false 48
      + TurboGorilla_GetChunkSize right false 48
      = TurboGorilla_NumOfSample three_samples * SAMPLE_SIZE
    ∧ TurboGorilla_NumOfSample three_samples * SAMPLE_SIZE
      <= TurboGorilla_GetChunkSize three_samples false 48.
Proof.
  apply (split_footprint three_samples sample_garbage sample_garbage 48
           three_samples_inv).
Defined.
